(** * Workspace templates: template compiler and version store

    A shallow embedding of the workspace-template code of the [v1] package
    (parameter injection, manifest assembly, task-graph compilation and the
    transactional version store) together with the properties checked
    against it.

    Conventions.
    - Go [uint64] row ids are [N], [int64] versions are [Z]; no arithmetic is
      performed on them by this code apart from the id sequences of the store.
    - A [*string] is an [option string]; a pointer to a struct that the code
      mutates is modelled by passing the struct and returning the new value.
    - A [map[string]bool] is a [gmap string bool]; reading an absent key gives
      [false] as in Go.
    - Every document is built as a structured value and then handed to
      [yaml.Marshal], an external library taken as a parameter ([Lib]); the
      properties below are stated on the structured value. *)

From Stdlib Require Import ZArith NArith String List Lia.
From stdpp Require Import base gmap strings list.

Import ListNotations.
Local Open Scope string_scope.
Local Open Scope list_scope.

(** ** Errors *)

(** gRPC status codes used by the package. *)
Inductive Code := InvalidArgument | NotFound | AlreadyExists | Unknown.

(** Go [error] values as the package builds them. *)
Inductive error :=
| ErrNoRows                                  (* sql.ErrNoRows *)
| Errorf (msg : string)                      (* fmt.Errorf / driver and collaborator errors *)
| UserError (code : Code) (msg : string)     (* util.NewUserError(code, msg) *)
| WrapErrorf (inner : error) (msg : string)  (* fmt.Errorf with a %w verb: text and wrapped error *)
| Panic (msg : string).                      (* a run-time panic (nil dereference), not an error value *)

(** [err.Error()]. *)
Definition Error (e : error) : string :=
  match e with
  | ErrNoRows => "sql: no rows in result set"
  | Errorf m => m
  | UserError _ m => m
  | WrapErrorf _ m => m
  | Panic m => m
  end.

(** [fmt.Errorf("%w; %s", err, other)]. *)
Definition Errorf_w_semicolon (err other : error) : error :=
  WrapErrorf err (Error err +:+ "; " +:+ Error other).

(** [errors.Unwrap] chain membership, as [errors.Is] walks it. *)
Fixpoint error_Is (e target : error) : Prop :=
  e = target \/
  match e with
  | WrapErrorf inner _ => error_Is inner target
  | _ => False
  end.

(** [needle] occurs in [hay]. *)
Definition occurs_in (needle hay : string) : Prop :=
  exists pre post, hay = pre +:+ needle +:+ post.

Definition result (A : Type) : Type := A + error.

Definition is_ok {A} (r : result A) : bool :=
  match r with inl _ => true | inr _ => false end.

(** The double-quote character, for [fmt.Sprintf] formats that contain one. *)
Definition dquote : string := String (Ascii.ascii_of_nat 34) EmptyString.

(** ** Data model of the compiler *)

Record ParameterOption := {
  po_Name : string;
  po_Value : string
}.

(** The [Parameter] struct. *)
Record Param := {
  p_Name : string;
  p_Value : option string;
  p_Type : string;
  p_Options : list ParameterOption;
  p_DisplayName : option string;
  p_Hint : option string;
  p_Required : bool
}.

(** [Parameter{Name: n, Value: v, Type: t}]: the other fields are zero. *)
Definition mkHidden (n : string) (v : option string) (t : string) : Param :=
  {| p_Name := n; p_Value := v; p_Type := t; p_Options := [];
     p_DisplayName := None; p_Hint := None; p_Required := false |}.

(** [SystemConfig] as this code uses it: the results of its three methods
    and the string entries read by [createStatefulSetManifest]. *)
Record SystemConfig := {
  Domain : option string;
  NodePoolLabel : option string;
  NodePoolOptions : result (list ParameterOption);
  config_entries : gmap string string
}.

(** [config[key]]: the zero string when absent. *)
Definition config_get (config : SystemConfig) (key : string) : string :=
  default EmptyString (config_entries config !! key).

Record VolumeMount := {
  vm_Name : string;
  vm_MountPath : string
}.

Record EnvVar := {
  env_Name : string;
  env_Value : string
}.

Record Container := {
  c_Name : string;
  c_Env : list EnvVar;
  c_VolumeMounts : list VolumeMount
}.

(** [corev1.PersistentVolumeClaim] restricted to the fields read here.
    [pvc_Requests] is [Spec.Resources.Requests], [None] for a nil map. *)
Record PersistentVolumeClaim := {
  pvc_Name : string;
  pvc_AccessModes : list string;
  pvc_StorageClassName : option string;
  pvc_Requests : option (gmap string string)
}.

Record ServicePort := {
  sp_Name : string;
  sp_Port : Z;
  sp_TargetPort : Z
}.

(** The route types of the mesh API ([networking.HTTPRoute] and below),
    which are not part of these sources.  The compiler only walks
    [spec.Routes], each route's [Route] and each entry's [Destination], all
    of them slices of pointers or pointers ([None] is nil), and writes
    [Host]; what else the types hold is carried along untouched: the match
    clauses and [r_Other] for the remaining fields of a route, the weight of
    an entry, the subset and port of a destination. *)
Record Destination := {
  dst_Host : string;
  dst_Subset : string;
  dst_Port : Z
}.

Record HTTPRouteDestination := {
  d_Destination : option Destination;
  d_Weight : Z
}.

Record HTTPRoute := {
  r_Match : list string;
  r_Route : list (option HTTPRouteDestination);
  r_Other : string
}.

(** ** Task graph (the [wfv1] types the compiler fills in) *)

Record DAGTask := {
  t_Name : string;
  t_Template : string;
  t_Dependencies : list string;
  t_Arguments : list (string * string);
  t_When : string;
  t_WithItems : list string
}.

Record ResourceTemplate := {
  rt_Action : string;
  rt_Manifest : string;
  rt_SuccessCondition : string
}.

Inductive TemplateBody :=
| DAG (failFast : bool) (tasks : list DAGTask)
| Resource (r : ResourceTemplate)
| Other (payload : string).

Record Template := {
  tpl_Name : string;
  tpl_Inputs : list string;
  tpl_Outputs : list (string * string);
  tpl_Body : TemplateBody
}.

Record PostExecutionWorkflow := {
  pew_Entrypoint : string;
  pew_Templates : list Template
}.

Record WorkspaceSpec := {
  Arguments_ : option (list Param);
  Containers : list Container;
  Ports : list ServicePort;
  Routes : list (option HTTPRoute);
  VolumeClaimTemplates : list PersistentVolumeClaim;
  PostExecution : option PostExecutionWorkflow
}.

Definition set_Arguments (spec : WorkspaceSpec) (ps : list Param) : WorkspaceSpec :=
  {| Arguments_ := Some ps; Containers := Containers spec; Ports := Ports spec;
     Routes := Routes spec; VolumeClaimTemplates := VolumeClaimTemplates spec;
     PostExecution := PostExecution spec |}.

Definition set_Containers (spec : WorkspaceSpec) (cs : list Container) : WorkspaceSpec :=
  {| Arguments_ := Arguments_ spec; Containers := cs; Ports := Ports spec;
     Routes := Routes spec; VolumeClaimTemplates := VolumeClaimTemplates spec;
     PostExecution := PostExecution spec |}.

Definition set_Routes (spec : WorkspaceSpec) (rs : list (option HTTPRoute))
  : WorkspaceSpec :=
  {| Arguments_ := Arguments_ spec; Containers := Containers spec; Ports := Ports spec;
     Routes := rs; VolumeClaimTemplates := VolumeClaimTemplates spec;
     PostExecution := PostExecution spec |}.

(** [m[k]] on a Go [map[string]bool]. *)
Definition map_get (m : gmap string bool) (k : string) : bool :=
  default false (m !! k).

(** ** Parameter injection *)

(** [generateRuntimeParameters]. *)
Definition generateRuntimeParameters (config : SystemConfig) : result (list Param) :=
  let parameters := [ mkHidden "sys-host" (Domain config) "input.hidden" ] in
  match NodePoolOptions config with
  | inr err => inr err
  | inl nodePoolOptions =>
      match nodePoolOptions with
      | [] => inr (Errorf "no node pool options in config")
      | first :: _ =>
          let options :=
            map (fun o => {| po_Name := po_Name o; po_Value := po_Value o |}) nodePoolOptions in
          let parameters :=
            parameters ++ [ mkHidden "sys-node-pool-label" (NodePoolLabel config) "input.hidden" ] in
          let parameters :=
            parameters ++ [ {| p_Name := "sys-node-pool";
                               p_Value := Some (po_Value first);
                               p_Type := "select.select";
                               p_Options := options;
                               p_DisplayName := Some "Node pool";
                               p_Hint := Some "Name of node pool or group";
                               p_Required := true |} ] in
          inl parameters
      end
  end.

(** The four placeholders appended first by [generateArguments]. *)
Definition placeholderParameters : list Param :=
  [ {| p_Name := "sys-name"; p_Value := Some "name"; p_Type := "input.text";
       p_Options := []; p_DisplayName := Some "Workspace name";
       p_Hint := Some "Must be between 3-30 characters, contain only alphanumeric or `-` characters";
       p_Required := true |};
    mkHidden "sys-resource-action" (Some "apply") "input.hidden";
    mkHidden "sys-workspace-action" (Some "create") "input.hidden";
    mkHidden "sys-uid" (Some "uid") "input.hidden" ].

(** Loop over [spec.VolumeClaimTemplates] filling [volumeStorageQuantityIsSet]. *)
Definition storageQuantityIsSet (vcts : list PersistentVolumeClaim) : gmap string bool :=
  fold_left
    (fun m v => match pvc_Requests v with
                | Some _ => <[pvc_Name v := true]> m
                | None => m
                end)
    vcts ∅.

(** The parameter synthesized for one volume mount. *)
Definition volumeSizeParameter (v : VolumeMount) : Param :=
  {| p_Name := "sys-" +:+ vm_Name v +:+ "-volume-size";
     p_Type := "input.number";
     p_Value := Some "20480";
     p_Options := [];
     p_DisplayName := Some ("Disk size for " +:+ dquote +:+ vm_Name v +:+ dquote);
     p_Hint := Some ("Disk size in MB for volume mounted at `" +:+ vm_MountPath v +:+ "`");
     p_Required := true |}.

(** Body of the inner loop of [generateArguments] over one container's
    mounts; the state is [(systemVolumeParameters, volumeClaimsMapped)]. *)
Definition volumeParametersStep (isSet : gmap string bool)
    (st : list Param * gmap string bool) (v : VolumeMount) : list Param * gmap string bool :=
  let '(systemVolumeParameters, volumeClaimsMapped) := st in
  if map_get volumeClaimsMapped (vm_Name v) || map_get isSet (vm_Name v) then st
  else (systemVolumeParameters ++ [volumeSizeParameter v],
        <[vm_Name v := true]> volumeClaimsMapped).

(** The two nested loops over containers and their mounts. *)
Definition volumeParametersLoop (isSet : gmap string bool) (cs : list Container)
    (st : list Param * gmap string bool) : list Param * gmap string bool :=
  fold_left (fun st c => fold_left (volumeParametersStep isSet) (c_VolumeMounts c) st) cs st.

Definition systemVolumeParameters (spec : WorkspaceSpec) : list Param :=
  fst (volumeParametersLoop (storageQuantityIsSet (VolumeClaimTemplates spec))
         (Containers spec) ([], ∅)).

(** [generateArguments]: on success the spec with its arguments replaced; on
    failure the spec has not been touched. *)
Definition generateArguments (spec : WorkspaceSpec) (config : SystemConfig)
  : result WorkspaceSpec :=
  let systemParameters := placeholderParameters in
  match generateRuntimeParameters config with
  | inr err => inr err
  | inl runtimeParameters =>
      let systemParameters := systemParameters ++ runtimeParameters in
      let declared := match Arguments_ spec with Some ps => ps | None => [] end in
      let parameters := systemParameters ++ declared in
      inl (set_Arguments spec (parameters ++ systemVolumeParameters spec))
  end.

(** ** Documents and external libraries *)

Record Service := {
  svc_Name : string;
  svc_URL : string
}.

Record ServiceDoc := {
  sd_Name : string;
  sd_Ports : list ServicePort;
  sd_Selector : list (string * string)
}.

Record VirtualServiceDoc := {
  vsd_Name : string;
  vsd_Http : list (option HTTPRoute);
  vsd_Gateways : list string;
  vsd_Hosts : list string
}.

(** The [storage] request of a claim: the deferred-size text, or the
    quantity found under the [storage] key of the declared requests
    ([None] when the key is absent, Go's zero quantity). *)
Inductive StorageValue :=
| StorageText (s : string)
| StorageQuantity (q : option string).

Record VolumeClaimDoc := {
  vc_Name : string;
  vc_AccessModes : list string;
  vc_StorageClassName : option string;
  vc_Storage : StorageValue
}.

Record StatefulSetDoc := {
  ssd_Name : string;
  ssd_Replicas : Z;
  ssd_ServiceName : string;
  ssd_MatchLabels : list (string * string);
  ssd_PodLabels : list (string * string);
  ssd_NodeSelector : list (string * string);
  ssd_Containers : list Container;
  ssd_Volumes : list string;
  ssd_VolumeClaimTemplates : list VolumeClaimDoc
}.

Record WorkspaceDoc := {
  wd_ApiVersion : string;
  wd_Kind : string;
  wd_Name : string
}.

Record WorkflowTemplateSpec := {
  wts_Arguments : option (list Param);
  wts_Entrypoint : string;
  wts_Templates : list Template
}.

Inductive Document :=
| DocService (d : ServiceDoc)
| DocVirtualService (d : VirtualServiceDoc)
| DocStatefulSet (d : StatefulSetDoc)
| DocWorkspace (d : WorkspaceDoc)
| DocWorkflowTemplateSpec (d : WorkflowTemplateSpec)
| DocStatus (phase : string).

(** Library functions that are not part of the sources at hand: the YAML and
    JSON codecs, the [env] helpers (which only touch a container's [Env]),
    [strings.ToUpper] and [getCURLNodeTemplate]. *)
Record Lib := {
  yaml_Marshal : Document -> result string;
  json_Marshal : Document -> result string;
  yaml_UnmarshalStrict : string -> result WorkspaceSpec;
  env_AddDefaultEnvVars : list EnvVar -> list EnvVar;
  env_PrependEnvVar : list EnvVar -> string -> string -> list EnvVar;
  strings_ToUpper : string -> string;
  getCURLNodeTemplate : string -> string -> string -> string -> list string -> result Template
}.

Definition nl : string := String (Ascii.ascii_of_nat 10) EmptyString.

(** [strings.Replace(s, old, new, -1)] for a non-empty [old]: [skip] counts
    the characters of a match still to be dropped. *)
Fixpoint replaceAll_from (old new : string) (skip : nat) (s : string) : string :=
  match s with
  | EmptyString => EmptyString
  | String ch rest =>
      match skip with
      | S k => replaceAll_from old new k rest
      | O =>
          if String.prefix old s
          then new +:+ replaceAll_from old new (String.length old - 1) rest
          else String ch (replaceAll_from old new 0 rest)
      end
  end.

Definition strings_ReplaceAll (s old new : string) : string :=
  replaceAll_from old new 0 s.

(** [parseWorkspaceSpec]. *)
Definition parseWorkspaceSpec (lib : Lib) (template : string) : result WorkspaceSpec :=
  yaml_UnmarshalStrict lib template.

(** ** Manifest assembly *)

Definition sys_uid_ref : string := "{{workflow.parameters.sys-uid}}".

(** [createServiceManifest]. *)
Definition serviceDocument (spec : WorkspaceSpec) : ServiceDoc :=
  {| sd_Name := sys_uid_ref;
     sd_Ports := Ports spec;
     sd_Selector := [("app", sys_uid_ref)] |}.

Definition createServiceManifest (lib : Lib) (spec : WorkspaceSpec) : result string :=
  yaml_Marshal lib (DocService (serviceDocument spec)).

(** [createVirtualServiceManifest].  The two loops write
    [r.Destination.Host] through the pointers of the spec, so the rewrite is
    visible in the spec afterwards; a nil route, a nil entry of [Route] or an
    entry without [Destination] makes the write dereference nil, and the
    function panics ([None] below). *)
Definition rewriteDestination (r : option HTTPRouteDestination)
  : option (option HTTPRouteDestination) :=
  match r with
  | None => None
  | Some r =>
      match d_Destination r with
      | None => None
      | Some d =>
          Some (Some {| d_Destination := Some {| dst_Host := sys_uid_ref;
                                                 dst_Subset := dst_Subset d;
                                                 dst_Port := dst_Port d |};
                        d_Weight := d_Weight r |})
      end
  end.

Definition rewriteRoute (h : option HTTPRoute) : option (option HTTPRoute) :=
  match h with
  | None => None
  | Some h =>
      match mapM rewriteDestination (r_Route h) with
      | None => None
      | Some route =>
          Some (Some {| r_Match := r_Match h; r_Route := route; r_Other := r_Other h |})
      end
  end.

Definition rewriteRoutes (rs : list (option HTTPRoute)) : option (list (option HTTPRoute)) :=
  mapM rewriteRoute rs.

(** The document, built from the routes as the loops left them. *)
Definition virtualServiceDocument (routes : list (option HTTPRoute)) : VirtualServiceDoc :=
  {| vsd_Name := sys_uid_ref;
     vsd_Http := routes;
     vsd_Gateways := ["istio-system/ingressgateway"];
     vsd_Hosts := ["{{workflow.parameters.sys-host}}"] |}.

(** A panic unwinds the whole call and the spec, an object of that call,
    is not seen again; it is returned as it was. *)
Definition createVirtualServiceManifest (lib : Lib) (spec : WorkspaceSpec)
  : result string * WorkspaceSpec :=
  match rewriteRoutes (Routes spec) with
  | None => (inr (Panic "nil pointer dereference"), spec)
  | Some routes =>
      (yaml_Marshal lib (DocVirtualService (virtualServiceDocument routes)),
       set_Routes spec routes)
  end.

Definition deferredVolumeSize (name : string) : string :=
  "{{workflow.parameters.sys-" +:+ name +:+ "-volume-size}}Mi".

(** Claim built from a user-declared volume-claim template. *)
Definition declaredVolumeClaim (v : PersistentVolumeClaim) : VolumeClaimDoc :=
  {| vc_Name := pvc_Name v;
     vc_AccessModes := pvc_AccessModes v;
     vc_StorageClassName :=
       match pvc_StorageClassName v with
       | None => Some "onepanel"
       | Some s => Some s
       end;
     vc_Storage :=
       match pvc_Requests v with
       | Some requests => StorageQuantity (requests !! "storage")
       | None => StorageText (deferredVolumeSize (pvc_Name v))
       end |}.

(** Claim synthesized for a mounted volume. *)
Definition synthesizedVolumeClaim (v : VolumeMount) : VolumeClaimDoc :=
  {| vc_Name := vm_Name v;
     vc_AccessModes := ["ReadWriteOnce"];
     vc_StorageClassName := Some "onepanel";
     vc_Storage := StorageText (deferredVolumeSize (vm_Name v)) |}.

(** First loop of [createStatefulSetManifest], over the declared templates. *)
Definition declaredClaimsStep (st : list VolumeClaimDoc * gmap string bool)
    (v : PersistentVolumeClaim) : list VolumeClaimDoc * gmap string bool :=
  let '(volumeClaims, volumeClaimsMapped) := st in
  if map_get volumeClaimsMapped (pvc_Name v) then st
  else (volumeClaims ++ [declaredVolumeClaim v], <[pvc_Name v := true]> volumeClaimsMapped).

(** Inner loop over one container's mounts. *)
Definition mountClaimsStep (st : list VolumeClaimDoc * gmap string bool)
    (v : VolumeMount) : list VolumeClaimDoc * gmap string bool :=
  let '(volumeClaims, volumeClaimsMapped) := st in
  if map_get volumeClaimsMapped (vm_Name v) then st
  else (volumeClaims ++ [synthesizedVolumeClaim v], <[vm_Name v := true]> volumeClaimsMapped).

Definition sys_dshm_mount : VolumeMount :=
  {| vm_Name := "sys-dshm"; vm_MountPath := "/dev/shm" |}.

(** Environment of a container after the injections of the outer loop. *)
Definition injectEnv (lib : Lib) (config : SystemConfig) (services : list Service)
    (e : list EnvVar) : list EnvVar :=
  let e := env_AddDefaultEnvVars lib e in
  let e := env_PrependEnvVar lib e "ONEPANEL_API_URL" (config_get config "ONEPANEL_API_URL") in
  let e := env_PrependEnvVar lib e "ONEPANEL_FQDN" (config_get config "ONEPANEL_FQDN") in
  let e := env_PrependEnvVar lib e "ONEPANEL_DOMAIN" (config_get config "ONEPANEL_DOMAIN") in
  let e := env_PrependEnvVar lib e "ONEPANEL_PROVIDER" (config_get config "ONEPANEL_PROVIDER") in
  let e := env_PrependEnvVar lib e "ONEPANEL_RESOURCE_NAMESPACE" "{{workflow.namespace}}" in
  let e := env_PrependEnvVar lib e "ONEPANEL_RESOURCE_UID" "{{workflow.parameters.sys-name}}" in
  fold_left
    (fun e service =>
       env_PrependEnvVar lib e
         ("ONEPANEL_SERVICES_" +:+ strings_ToUpper lib (svc_Name service) +:+ "_API_URL")
         (svc_URL service))
    services e.

(** The container stored back into [spec.Containers[i]]: new environment,
    and the shared-memory mount appended to its volume mounts. *)
Definition updatedContainer (lib : Lib) (config : SystemConfig) (services : list Service)
    (c : Container) : Container :=
  {| c_Name := c_Name c;
     c_Env := injectEnv lib config services (c_Env c);
     c_VolumeMounts := c_VolumeMounts c ++ [sys_dshm_mount] |}.

(** The volume claims of the stateful set. *)
Definition statefulSetVolumeClaims (spec : WorkspaceSpec) : list VolumeClaimDoc :=
  let st := fold_left declaredClaimsStep (VolumeClaimTemplates spec) ([], ∅) in
  let st := (fst st, <["sys-namespace-config" := true]> (<["sys-dshm" := true]> (snd st))) in
  fst (fold_left (fun st c => fold_left mountClaimsStep (c_VolumeMounts c) st)
         (Containers spec) st).

Definition statefulSetDocument (lib : Lib) (spec : WorkspaceSpec) (config : SystemConfig)
    (services : list Service) : StatefulSetDoc :=
  {| ssd_Name := sys_uid_ref;
     ssd_Replicas := 1;
     ssd_ServiceName := sys_uid_ref;
     ssd_MatchLabels := [("app", sys_uid_ref)];
     ssd_PodLabels := [("app", sys_uid_ref)];
     ssd_NodeSelector :=
       [("{{workflow.parameters.sys-node-pool-label}}", "{{workflow.parameters.sys-node-pool}}")];
     ssd_Containers := map (updatedContainer lib config services) (Containers spec);
     ssd_Volumes := ["sys-dshm"; "sys-namespace-config"];
     ssd_VolumeClaimTemplates := statefulSetVolumeClaims spec |}.

(** [createStatefulSetManifest]: the manifest and the spec as the function
    leaves it (every container rewritten in place). *)
Definition createStatefulSetManifest (lib : Lib) (spec : WorkspaceSpec)
    (config : SystemConfig) (services : list Service) : result string * WorkspaceSpec :=
  (yaml_Marshal lib (DocStatefulSet (statefulSetDocument lib spec config services)),
   set_Containers spec (map (updatedContainer lib config services) (Containers spec))).

(** [createWorkspaceManifest]. *)
Definition workspaceDocument : WorkspaceDoc :=
  {| wd_ApiVersion := "onepanel.io/v1alpha1"; wd_Kind := "Workspace"; wd_Name := sys_uid_ref |}.

Definition createWorkspaceManifest (lib : Lib) (spec : WorkspaceSpec) : result string :=
  yaml_Marshal lib (DocWorkspace workspaceDocument).

(** ** Task-graph compilation *)

(** Inner loop of [unmarshalWorkflowTemplate] collecting [volumeClaimItems]. *)
Definition volumeClaimItemsStep (st : list string * gmap string bool) (v : VolumeMount)
  : list string * gmap string bool :=
  let '(volumeClaimItems, volumeClaimsMapped) := st in
  if map_get volumeClaimsMapped (vm_Name v) then st
  else (volumeClaimItems ++ [vm_Name v], <[vm_Name v := true]> volumeClaimsMapped).

Definition volumeClaimItems (spec : WorkspaceSpec) : list string :=
  fst (fold_left (fun st c => fold_left volumeClaimItemsStep (c_VolumeMounts c) st)
         (Containers spec) ([], ∅)).

Definition action_ref : string := "{{workflow.parameters.sys-workspace-action}}".
Definition when_create_or_update : string :=
  action_ref +:+ " == create || " +:+ action_ref +:+ " == update".
Definition when_pause_or_delete : string :=
  action_ref +:+ " == pause || " +:+ action_ref +:+ " == delete".
Definition when_pause : string := action_ref +:+ " == pause".
Definition when_delete : string := action_ref +:+ " == delete".

Definition mkTask (name template : string) (deps : list string)
    (args : list (string * string)) (when : string) (items : list string) : DAGTask :=
  {| t_Name := name; t_Template := template; t_Dependencies := deps;
     t_Arguments := args; t_When := when; t_WithItems := items |}.

(** Modelled from the spec: the phase constants [WorkspaceRunning],
    [WorkspacePaused] and [WorkspaceTerminated] are declared elsewhere in
    the package; the status callback carries one of Running, Paused,
    Terminated. *)
Definition WorkspaceRunning : string := "Running".
Definition WorkspacePaused : string := "Paused".
Definition WorkspaceTerminated : string := "Terminated".

(** The tasks of the [workspace] DAG, in the order of the literal. *)
Definition workspaceTasks (items : list string) : list DAGTask :=
  [ mkTask "service" "service-resource" [] [] EmptyString [];
    mkTask "virtual-service" "virtual-service-resource" ["service"] [] EmptyString [];
    mkTask "create-stateful-set" "stateful-set-resource" ["virtual-service"] []
      when_create_or_update [];
    mkTask "get-stateful-set" "get-stateful-set-resource" ["create-stateful-set"]
      [("update-revision", "{{tasks.create-stateful-set.outputs.parameters.update-revision}}")]
      when_create_or_update [];
    mkTask "create-workspace" "workspace-resource" ["get-stateful-set"] []
      when_create_or_update [];
    mkTask "delete-stateful-set" "delete-stateful-set-resource" ["virtual-service"] []
      when_pause_or_delete [];
    mkTask "delete-workspace" "workspace-resource" ["delete-stateful-set"] []
      when_pause_or_delete [];
    mkTask "delete-pvc" "delete-pvc-resource" ["delete-workspace"]
      [("sys-pvc-name", "{{item}}")] when_delete items;
    mkTask "sys-set-phase-running" "sys-update-status" ["create-workspace"]
      [("sys-workspace-phase", WorkspaceRunning)] when_create_or_update [];
    mkTask "sys-set-phase-paused" "sys-update-status" ["delete-workspace"]
      [("sys-workspace-phase", WorkspacePaused)] when_pause [];
    mkTask "sys-set-phase-terminated" "sys-update-status" ["delete-pvc"]
      [("sys-workspace-phase", WorkspaceTerminated)] when_delete [] ].

Definition getStatefulSetManifest : string :=
  "apiVersion: apps/v1" +:+ nl +:+ "kind: StatefulSet" +:+ nl +:+ "metadata:" +:+ nl +:+
  "  name: {{workflow.parameters.sys-uid}}" +:+ nl.

Definition deletePVCManifest : string :=
  "apiVersion: v1" +:+ nl +:+ "kind: PersistentVolumeClaim" +:+ nl +:+ "metadata:" +:+ nl +:+
  "  name: {{inputs.parameters.sys-pvc-name}}-{{workflow.parameters.sys-uid}}-0" +:+ nl.

Definition resource_action_ref : string := "{{workflow.parameters.sys-resource-action}}".

Definition mkResource (name : string) (inputs : list string) (outputs : list (string * string))
    (action manifest cond : string) : Template :=
  {| tpl_Name := name; tpl_Inputs := inputs; tpl_Outputs := outputs;
     tpl_Body := Resource {| rt_Action := action; rt_Manifest := manifest;
                             rt_SuccessCondition := cond |} |}.

(** The [templates] literal. *)
Definition baseTemplates (items : list string)
    (serviceManifest virtualServiceManifest statefulSetManifest workspaceManifest : string)
  : list Template :=
  [ {| tpl_Name := "workspace"; tpl_Inputs := []; tpl_Outputs := [];
       tpl_Body := DAG false (workspaceTasks items) |};
    mkResource "service-resource" [] [] resource_action_ref serviceManifest EmptyString;
    mkResource "virtual-service-resource" [] [] resource_action_ref virtualServiceManifest
      EmptyString;
    mkResource "stateful-set-resource" [] [("update-revision", "{.status.updateRevision}")]
      resource_action_ref statefulSetManifest "status.readyReplicas > 0";
    mkResource "get-stateful-set-resource" ["update-revision"] [] "get" getStatefulSetManifest
      "status.readyReplicas > 0, status.currentRevision == {{inputs.parameters.update-revision}}";
    mkResource "delete-stateful-set-resource" [] [] resource_action_ref statefulSetManifest
      EmptyString;
    mkResource "workspace-resource" [] [] resource_action_ref workspaceManifest EmptyString;
    mkResource "delete-pvc-resource" ["sys-pvc-name"] [] resource_action_ref deletePVCManifest
      EmptyString ].

(** [templates[0].DAG.Tasks = append(templates[0].DAG.Tasks, dag)]. *)
Definition appendTaskToFirst (templates : list Template) (task : DAGTask) : list Template :=
  match templates with
  | {| tpl_Name := n; tpl_Inputs := i; tpl_Outputs := o; tpl_Body := DAG ff tasks |} :: rest =>
      {| tpl_Name := n; tpl_Inputs := i; tpl_Outputs := o;
         tpl_Body := DAG ff (tasks ++ [task]) |} :: rest
  | _ => templates
  end.

(** The structured value [unmarshalWorkflowTemplate] serializes. *)
Definition workflowTemplateSpec (lib : Lib) (spec : WorkspaceSpec)
    (serviceManifest virtualServiceManifest statefulSetManifest workspaceManifest : string)
  : result WorkflowTemplateSpec :=
  let templates :=
    baseTemplates (volumeClaimItems spec)
      serviceManifest virtualServiceManifest statefulSetManifest workspaceManifest in
  let curlPath :=
    "/apis/v1beta1/{{workflow.namespace}}/workspaces/{{workflow.parameters.sys-uid}}/status" in
  match json_Marshal lib (DocStatus "{{inputs.parameters.sys-workspace-phase}}") with
  | inr err => inr err
  | inl statusBytes =>
      match getCURLNodeTemplate lib "sys-update-status" "PUT" curlPath statusBytes
              ["sys-workspace-phase"] with
      | inr err => inr err
      | inl curlNodeTemplate =>
          let templates := templates ++ [curlNodeTemplate] in
          let templates :=
            match PostExecution spec with
            | Some post =>
                let dag :=
                  mkTask (pew_Entrypoint post) (pew_Entrypoint post)
                    ["sys-set-phase-running"; "sys-set-phase-paused"; "sys-set-phase-terminated"]
                    [] EmptyString [] in
                appendTaskToFirst templates dag ++ pew_Templates post
            | None => templates
            end in
          inl {| wts_Arguments := Arguments_ spec;
                 wts_Entrypoint := "workspace";
                 wts_Templates := templates |}
      end
  end.

(** [unmarshalWorkflowTemplate]. *)
Definition unmarshalWorkflowTemplate (lib : Lib) (spec : WorkspaceSpec)
    (serviceManifest virtualServiceManifest statefulSetManifest workspaceManifest : string)
  : result string :=
  match workflowTemplateSpec lib spec serviceManifest virtualServiceManifest
          statefulSetManifest workspaceManifest with
  | inr err => inr err
  | inl d => yaml_Marshal lib (DocWorkflowTemplateSpec d)
  end.

(** The tasks of the entry DAG of a compiled definition. *)
Definition entryTasks (d : WorkflowTemplateSpec) : list DAGTask :=
  match wts_Templates d with
  | {| tpl_Body := DAG _ tasks |} :: _ => tasks
  | _ => []
  end.

Definition findTask (name : string) (tasks : list DAGTask) : option DAGTask :=
  find (fun t => String.eqb (t_Name t) name) tasks.

(** ** Templates and the relational store *)

Record WorkflowTemplate := {
  wf_ID : N;
  wf_UID : string;
  wf_Name : string;
  wf_Manifest : string;
  wf_Version : Z;
  wf_IsSystem : bool;
  wf_Resource : option string;
  wf_ResourceUID : option string;
  wf_Labels : gmap string string
}.

Record WorkspaceTemplate := {
  ID : N;
  WorkspaceTemplateVersionID : N;
  UID : string;
  Name : string;
  Namespace : string;
  Description : string;
  Version : Z;
  IsLatest : bool;
  IsArchived : bool;
  Manifest : string;
  Labels : gmap string string;
  CreatedAt : N;
  WorkflowTemplate_ : option WorkflowTemplate
}.

Definition set_ID (t : WorkspaceTemplate) (v : N) : WorkspaceTemplate :=
  {| ID := v; WorkspaceTemplateVersionID := WorkspaceTemplateVersionID t; UID := UID t;
     Name := Name t; Namespace := Namespace t; Description := Description t;
     Version := Version t; IsLatest := IsLatest t; IsArchived := IsArchived t;
     Manifest := Manifest t; Labels := Labels t; CreatedAt := CreatedAt t;
     WorkflowTemplate_ := WorkflowTemplate_ t |}.

Definition set_UID (t : WorkspaceTemplate) (v : string) : WorkspaceTemplate :=
  {| ID := ID t; WorkspaceTemplateVersionID := WorkspaceTemplateVersionID t; UID := v;
     Name := Name t; Namespace := Namespace t; Description := Description t;
     Version := Version t; IsLatest := IsLatest t; IsArchived := IsArchived t;
     Manifest := Manifest t; Labels := Labels t; CreatedAt := CreatedAt t;
     WorkflowTemplate_ := WorkflowTemplate_ t |}.

Definition set_Name (t : WorkspaceTemplate) (v : string) : WorkspaceTemplate :=
  {| ID := ID t; WorkspaceTemplateVersionID := WorkspaceTemplateVersionID t; UID := UID t;
     Name := v; Namespace := Namespace t; Description := Description t;
     Version := Version t; IsLatest := IsLatest t; IsArchived := IsArchived t;
     Manifest := Manifest t; Labels := Labels t; CreatedAt := CreatedAt t;
     WorkflowTemplate_ := WorkflowTemplate_ t |}.

Definition set_Namespace (t : WorkspaceTemplate) (v : string) : WorkspaceTemplate :=
  {| ID := ID t; WorkspaceTemplateVersionID := WorkspaceTemplateVersionID t; UID := UID t;
     Name := Name t; Namespace := v; Description := Description t;
     Version := Version t; IsLatest := IsLatest t; IsArchived := IsArchived t;
     Manifest := Manifest t; Labels := Labels t; CreatedAt := CreatedAt t;
     WorkflowTemplate_ := WorkflowTemplate_ t |}.

Definition set_Version (t : WorkspaceTemplate) (v : Z) : WorkspaceTemplate :=
  {| ID := ID t; WorkspaceTemplateVersionID := WorkspaceTemplateVersionID t; UID := UID t;
     Name := Name t; Namespace := Namespace t; Description := Description t;
     Version := v; IsLatest := IsLatest t; IsArchived := IsArchived t;
     Manifest := Manifest t; Labels := Labels t; CreatedAt := CreatedAt t;
     WorkflowTemplate_ := WorkflowTemplate_ t |}.

Definition set_IsLatest (t : WorkspaceTemplate) (v : bool) : WorkspaceTemplate :=
  {| ID := ID t; WorkspaceTemplateVersionID := WorkspaceTemplateVersionID t; UID := UID t;
     Name := Name t; Namespace := Namespace t; Description := Description t;
     Version := Version t; IsLatest := v; IsArchived := IsArchived t;
     Manifest := Manifest t; Labels := Labels t; CreatedAt := CreatedAt t;
     WorkflowTemplate_ := WorkflowTemplate_ t |}.

Definition set_CreatedAt (t : WorkspaceTemplate) (v : N) : WorkspaceTemplate :=
  {| ID := ID t; WorkspaceTemplateVersionID := WorkspaceTemplateVersionID t; UID := UID t;
     Name := Name t; Namespace := Namespace t; Description := Description t;
     Version := Version t; IsLatest := IsLatest t; IsArchived := IsArchived t;
     Manifest := Manifest t; Labels := Labels t; CreatedAt := v;
     WorkflowTemplate_ := WorkflowTemplate_ t |}.

Definition set_WorkflowTemplate (t : WorkspaceTemplate) (v : option WorkflowTemplate)
  : WorkspaceTemplate :=
  {| ID := ID t; WorkspaceTemplateVersionID := WorkspaceTemplateVersionID t; UID := UID t;
     Name := Name t; Namespace := Namespace t; Description := Description t;
     Version := Version t; IsLatest := IsLatest t; IsArchived := IsArchived t;
     Manifest := Manifest t; Labels := Labels t; CreatedAt := CreatedAt t;
     WorkflowTemplate_ := v |}.

(** Rows of [workspace_templates]. *)
Record WorkspaceTemplateRow := {
  wt_id : N;
  wt_uid : string;
  wt_name : string;
  wt_namespace : string;
  wt_description : string;
  wt_is_archived : bool;
  wt_workflow_template_id : N;
  wt_labels : gmap string string;
  wt_created_at : N
}.

(** Rows of [workspace_template_versions]. *)
Record WorkspaceTemplateVersionRow := {
  wtv_id : N;
  wtv_version : Z;
  wtv_is_latest : bool;
  wtv_manifest : string;
  wtv_workspace_template_id : N;
  wtv_labels : gmap string string;
  wtv_created_at : N
}.

(** Rows of [workflow_templates] and [workflow_template_versions], the two
    tables of the orchestrator-template collaborator that the version
    queries join with; only the columns read here. *)
Record WorkflowTemplateRow := {
  wft_id : N;
  wft_uid : string;
  wft_is_archived : bool
}.

Record WorkflowTemplateVersionRow := {
  wftv_workflow_template_id : N;
  wftv_version : Z;
  wftv_is_latest : bool;
  wftv_manifest : string
}.

(** The two tables this code writes, with the id sequences behind
    [RETURNING id] and the clock behind [created_at]. *)
Record DB := {
  workspace_templates : list WorkspaceTemplateRow;
  workspace_template_versions : list WorkspaceTemplateVersionRow;
  next_workspace_template_id : N;
  next_workspace_template_version_id : N;
  db_now : N
}.

Definition emptyDB : DB :=
  {| workspace_templates := []; workspace_template_versions := [];
     next_workspace_template_id := 1; next_workspace_template_version_id := 1;
     db_now := 0 |}.

Record Workspace := {
  ws_UID : string
}.

(** Pipeline stages of the compiler, recorded in the order they are entered. *)
Inductive Stage :=
| StGetSystemConfig | StParseWorkspaceSpec | StGenerateArguments
| StServiceManifest | StVirtualServiceManifest | StListServices
| StStatefulSetManifest | StWorkspaceManifest | StWorkflowTemplate.

Definition Staged (A : Type) : Type := list Stage * result A.

Definition stage {A} (s : Stage) (r : result A) : Staged A := ([s], r).

Definition bindS {A B} (m : Staged A) (k : A -> Staged B) : Staged B :=
  match m with
  | (l, inl a) => let '(l', r) := k a in (l ++ l', r)
  | (l, inr e) => (l, inr e)
  end.

Notation "'do' x <- m ; k" := (bindS m (fun x => k))
  (at level 10, x name, m at level 100, k at level 200).

(** ** The client and its collaborators *)

Section Store.

(** State of the cluster and of the tables owned by other components, as
    far as this code is concerned an opaque value. *)
Context {Ext : Type}.

(** What the orchestrator-template collaborator owns: its two tables, which
    the version queries join with, and everything else. *)
Record Orchestrator := {
  workflow_templates : list WorkflowTemplateRow;
  workflow_template_versions : list WorkflowTemplateVersionRow;
  cluster : Ext
}.

Record World := {
  db : DB;
  orch : Orchestrator
}.

(** Methods of [Client] and helpers of the package that are not part of the
    sources at hand ([TypeWorkspaceTemplate] is a constant of the
    package).  The collaborators act on the orchestrator's state only.  [InjectRuntimeParameters] rewrites the workflow template carried
    by a workspace template. *)
Record Client := {
  client_lib : Lib;
  TypeWorkspaceTemplate : string;
  NewUserErrorWrap : error -> string -> error;
  ValidateStruct : WorkspaceTemplate -> option error;
  GenerateUID : string -> result string;
  InjectRuntimeParameters : option WorkflowTemplate -> SystemConfig -> result (option WorkflowTemplate);
  GetSystemConfig : Orchestrator -> result SystemConfig;
  ListServices : string -> Orchestrator -> result (list Service);
  validateWorkflowTemplate : string -> WorkflowTemplate -> Orchestrator -> option error;
  createWorkflowTemplate :
    string -> WorkflowTemplate -> Orchestrator -> result WorkflowTemplate * Orchestrator;
  CreateWorkflowTemplateVersion :
    string -> WorkflowTemplate -> Orchestrator -> result WorkflowTemplate * Orchestrator;
  ArchiveWorkflowTemplate :
    string -> string -> Orchestrator -> (bool * option error) * Orchestrator;
  ListWorkspacesByTemplateID : string -> N -> Orchestrator -> result (list Workspace);
  ArchiveWorkspace : string -> string -> Orchestrator -> option error * Orchestrator
}.

(** [generateWorkspaceTemplateWorkflowTemplate], instrumented with the
    stages it enters.  [workspaceTemplate] is [None] for a nil pointer. *)
Definition generateWorkspaceTemplateWorkflowTemplate (c : Client) (o : Orchestrator)
    (workspaceTemplate : option WorkspaceTemplate) : Staged WorkflowTemplate :=
  match workspaceTemplate with
  | None => ([], inr (UserError InvalidArgument "Workspace template manifest is required"))
  | Some workspaceTemplate =>
      if String.eqb (Manifest workspaceTemplate) EmptyString
      then ([], inr (UserError InvalidArgument "Workspace template manifest is required"))
      else
        do config <- stage StGetSystemConfig (GetSystemConfig c o);
        do workspaceSpec <-
          stage StParseWorkspaceSpec
            (match parseWorkspaceSpec (client_lib c) (Manifest workspaceTemplate) with
             | inr err => inr (UserError InvalidArgument (Error err))
             | inl s => inl s
             end);
        do workspaceSpec <- stage StGenerateArguments (generateArguments workspaceSpec config);
        do serviceManifest <-
          stage StServiceManifest (createServiceManifest (client_lib c) workspaceSpec);
        let '(vs, workspaceSpec) := createVirtualServiceManifest (client_lib c) workspaceSpec in
        do virtualServiceManifest <- stage StVirtualServiceManifest vs;
        do services <- stage StListServices (ListServices c (Namespace workspaceTemplate) o);
        let '(ss, workspaceSpec) :=
          createStatefulSetManifest (client_lib c) workspaceSpec config services in
        do statefulSetManifest <- stage StStatefulSetManifest ss;
        do workspaceManifest <-
          stage StWorkspaceManifest (createWorkspaceManifest (client_lib c) workspaceSpec);
        do workflowTemplateManifest <-
          stage StWorkflowTemplate
            (unmarshalWorkflowTemplate (client_lib c) workspaceSpec serviceManifest
               virtualServiceManifest statefulSetManifest workspaceManifest);
        let workflowTemplateManifest :=
          strings_ReplaceAll workflowTemplateManifest
            "{{workspace.parameters." "{{workflow.parameters." in
        ([], inl {| wf_ID := 0; wf_UID := EmptyString; wf_Name := Name workspaceTemplate;
                    wf_Manifest := workflowTemplateManifest; wf_Version := 0;
                    wf_IsSystem := false; wf_Resource := None; wf_ResourceUID := None;
                    wf_Labels := ∅ |})
  end.

(** The spec as it reaches [unmarshalWorkflowTemplate]: arguments injected,
    routes rewritten, containers rewritten by [createStatefulSetManifest]. *)
Definition specAtGraphCompilation (lib : Lib) (spec : WorkspaceSpec) (config : SystemConfig)
    (services : list Service) : result WorkspaceSpec :=
  match generateArguments spec config with
  | inr err => inr err
  | inl spec =>
      let spec := snd (createVirtualServiceManifest lib spec) in
      inl (snd (createStatefulSetManifest lib spec config services))
  end.

(** ** Statements of the version store

    Every statement takes the failure the driver reports for it, if any
    ([fault]); a transaction works on its own copy of the tables, which
    replaces the committed one at [Commit] and is dropped by the deferred
    [Rollback] otherwise. *)

(** [INSERT INTO workspace_templates ... RETURNING id, created_at]. *)
Definition insertWorkspaceTemplateDB (fault : option error) (tx : DB)
    (namespace : string) (template : WorkspaceTemplate) (workflowTemplateID : N)
  : option error * WorkspaceTemplate * DB :=
  match fault with
  | Some err => (Some err, template, tx)
  | None =>
      let id := next_workspace_template_id tx in
      let row := {| wt_id := id; wt_uid := UID template; wt_name := Name template;
                    wt_namespace := namespace; wt_description := Description template;
                    wt_is_archived := false; wt_workflow_template_id := workflowTemplateID;
                    wt_labels := Labels template; wt_created_at := db_now tx |} in
      (None, set_CreatedAt (set_ID template id) (db_now tx),
       {| workspace_templates := workspace_templates tx ++ [row];
          workspace_template_versions := workspace_template_versions tx;
          next_workspace_template_id := (id + 1)%N;
          next_workspace_template_version_id := next_workspace_template_version_id tx;
          db_now := db_now tx |})
  end.

(** [createWorkspaceTemplateVersionDB]: the id of the inserted version row
    is scanned into [template.ID]. *)
Definition createWorkspaceTemplateVersionDB (fault : option error) (tx : DB)
    (template : WorkspaceTemplate) : option error * WorkspaceTemplate * DB :=
  match fault with
  | Some err => (Some err, template, tx)
  | None =>
      let id := next_workspace_template_version_id tx in
      let row := {| wtv_id := id; wtv_version := Version template;
                    wtv_is_latest := IsLatest template; wtv_manifest := Manifest template;
                    wtv_workspace_template_id := ID template; wtv_labels := Labels template;
                    wtv_created_at := db_now tx |} in
      (None, set_ID template id,
       {| workspace_templates := workspace_templates tx;
          workspace_template_versions := workspace_template_versions tx ++ [row];
          next_workspace_template_id := next_workspace_template_id tx;
          next_workspace_template_version_id := (id + 1)%N;
          db_now := db_now tx |})
  end.

Definition outdate (r : WorkspaceTemplateVersionRow) : WorkspaceTemplateVersionRow :=
  {| wtv_id := wtv_id r; wtv_version := wtv_version r; wtv_is_latest := false;
     wtv_manifest := wtv_manifest r; wtv_workspace_template_id := wtv_workspace_template_id r;
     wtv_labels := wtv_labels r; wtv_created_at := wtv_created_at r |}.

(** [markWorkspaceTemplateVersionsOutdatedDB]. *)
Definition markWorkspaceTemplateVersionsOutdatedDB (fault : option error) (tx : DB)
    (workspaceTemplateID : N) : option error * DB :=
  match fault with
  | Some err => (Some err, tx)
  | None =>
      (None,
       {| workspace_templates := workspace_templates tx;
          workspace_template_versions :=
            map (fun r =>
                   if (wtv_workspace_template_id r =? workspaceTemplateID)%N && wtv_is_latest r
                   then outdate r else r)
                (workspace_template_versions tx);
          next_workspace_template_id := next_workspace_template_id tx;
          next_workspace_template_version_id := next_workspace_template_version_id tx;
          db_now := db_now tx |})
  end.

(** [createLatestWorkspaceTemplateVersionDB]. *)
Definition createLatestWorkspaceTemplateVersionDB (faultMark faultInsert : option error)
    (tx : DB) (template : option WorkspaceTemplate)
  : option error * option WorkspaceTemplate * DB :=
  match template with
  | None => (Some (Errorf "workspaceTemplate is nil"), None, tx)
  | Some template =>
      if (ID template <? 1)%N
      then (Some (Errorf "workspaceTemplate.ID is not set"), Some template, tx)
      else
        match markWorkspaceTemplateVersionsOutdatedDB faultMark tx (ID template) with
        | (Some err, tx) => (Some err, Some template, tx)
        | (None, tx) =>
            let template := set_IsLatest template true in
            let '(err, template, tx) := createWorkspaceTemplateVersionDB faultInsert tx template in
            (err, Some template, tx)
        end
  end.

(** [UPDATE workspace_templates SET labels, description WHERE uid, namespace]. *)
Definition updateWorkspaceTemplateDB (fault : option error) (tx : DB)
    (template : WorkspaceTemplate) : option error * DB :=
  match fault with
  | Some err => (Some err, tx)
  | None =>
      (None,
       {| workspace_templates :=
            map (fun r =>
                   if String.eqb (wt_uid r) (UID template)
                      && String.eqb (wt_namespace r) (Namespace template)
                   then {| wt_id := wt_id r; wt_uid := wt_uid r; wt_name := wt_name r;
                           wt_namespace := wt_namespace r;
                           wt_description := Description template;
                           wt_is_archived := wt_is_archived r;
                           wt_workflow_template_id := wt_workflow_template_id r;
                           wt_labels := Labels template; wt_created_at := wt_created_at r |}
                   else r)
                (workspace_templates tx);
          workspace_template_versions := workspace_template_versions tx;
          next_workspace_template_id := next_workspace_template_id tx;
          next_workspace_template_version_id := next_workspace_template_version_id tx;
          db_now := db_now tx |})
  end.

Definition archiveRow (r : WorkspaceTemplateRow) : WorkspaceTemplateRow :=
  {| wt_id := wt_id r; wt_uid := wt_uid r; wt_name := wt_name r;
     wt_namespace := wt_namespace r; wt_description := wt_description r;
     wt_is_archived := true; wt_workflow_template_id := wt_workflow_template_id r;
     wt_labels := wt_labels r; wt_created_at := wt_created_at r |}.

(** The [WHERE] clause of [archiveWorkspaceTemplateDB]. *)
Definition archivable (namespace uid : string) (r : WorkspaceTemplateRow) : bool :=
  String.eqb (wt_uid r) uid && String.eqb (wt_namespace r) namespace
  && negb (wt_is_archived r).

(** [archiveWorkspaceTemplateDB]: [faultExec] is the failure of [Exec],
    [faultRows] that of [RowsAffected]; the statement runs on the
    connection itself, outside any transaction. *)
Definition archiveWorkspaceTemplateDB (faultExec faultRows : option error) (d : DB)
    (namespace uid : string) : (bool * option error) * DB :=
  match faultExec with
  | Some err => ((false, Some err), d)
  | None =>
      let rowsAffected := length (List.filter (archivable namespace uid) (workspace_templates d)) in
      let d' :=
        {| workspace_templates :=
             map (fun r => if archivable namespace uid r then archiveRow r else r)
                 (workspace_templates d);
           workspace_template_versions := workspace_template_versions d;
           next_workspace_template_id := next_workspace_template_id d;
           next_workspace_template_version_id := next_workspace_template_version_id d;
           db_now := db_now d |} in
      match faultRows with
      | Some err => ((false, Some err), d')
      | None =>
          if Nat.eqb rowsAffected 0 then ((false, None), d') else ((true, None), d')
      end
  end.

(** ** Queries *)

(** [DB.Get] / [DB.Getx] with [LIMIT 1]: the first row of the result set,
    [sql.ErrNoRows] when it is empty. *)
Definition dbGet {A} (fault : option error) (rows : list A) : result A :=
  match fault with
  | Some err => inr err
  | None => match rows with
            | [] => inr ErrNoRows
            | r :: _ => inl r
            end
  end.

(** [&WorkspaceTemplate{}]. *)
Definition zeroWorkspaceTemplate : WorkspaceTemplate :=
  {| ID := 0; WorkspaceTemplateVersionID := 0; UID := EmptyString; Name := EmptyString;
     Namespace := EmptyString; Description := EmptyString; Version := 0; IsLatest := false;
     IsArchived := false; Manifest := EmptyString; Labels := ∅; CreatedAt := 0;
     WorkflowTemplate_ := None |}.

(** Modelled from the spec: the column list [getWorkspaceTemplateColumns] is
    not part of the sources at hand; the persisted template row (uid, name,
    namespace, description, labels, is_archived) is scanned into the fields
    of the same names, with its id and creation time. *)
Definition scanTemplate (r : WorkspaceTemplateRow) : WorkspaceTemplate :=
  {| ID := wt_id r; WorkspaceTemplateVersionID := 0; UID := wt_uid r; Name := wt_name r;
     Namespace := wt_namespace r; Description := wt_description r; Version := 0;
     IsLatest := false; IsArchived := wt_is_archived r; Manifest := EmptyString;
     Labels := wt_labels r; CreatedAt := wt_created_at r; WorkflowTemplate_ := None |}.

(** [workspaceTemplatesSelectBuilder] with the [WHERE] of
    [getWorkspaceTemplateByName]. *)
Definition byNameRows (d : DB) (namespace name : string) : list WorkspaceTemplateRow :=
  List.filter
    (fun r => String.eqb (wt_namespace r) namespace
              && String.eqb (wt_name r) name
              && negb (wt_is_archived r))
    (workspace_templates d).

(** [getWorkspaceTemplateByName]. *)
Definition getWorkspaceTemplateByName (fault : option error) (d : DB)
    (namespace name : string) : option WorkspaceTemplate * option error :=
  match dbGet fault (byNameRows d namespace name) with
  | inr ErrNoRows => (None, None)
  | inr err => (Some zeroWorkspaceTemplate, Some err)
  | inl r => (Some (scanTemplate r), None)
  end.

(** One row of the join of [workspaceTemplateVersionsSelectBuilder], scanned:
    the template columns, then the version and workflow-template columns the
    builder lists. *)
Definition scanVersion (wt : WorkspaceTemplateRow) (wtv : WorkspaceTemplateVersionRow)
    (wft : WorkflowTemplateRow) (wftv : WorkflowTemplateVersionRow) : WorkspaceTemplate :=
  {| ID := wt_id wt; WorkspaceTemplateVersionID := wtv_id wtv; UID := wt_uid wt;
     Name := wt_name wt; Namespace := wt_namespace wt; Description := wt_description wt;
     Version := wtv_version wtv; IsLatest := false; IsArchived := wt_is_archived wt;
     Manifest := wtv_manifest wtv; Labels := wtv_labels wtv; CreatedAt := wtv_created_at wtv;
     WorkflowTemplate_ :=
       Some {| wf_ID := wft_id wft; wf_UID := wft_uid wft; wf_Name := EmptyString;
               wf_Manifest := wftv_manifest wftv; wf_Version := wftv_version wftv;
               wf_IsSystem := false; wf_Resource := None; wf_ResourceUID := None;
               wf_Labels := ∅ |} |}.

(** The [WHERE] clause of [GetWorkspaceTemplate] on a joined row. *)
Definition versionMatches (namespace uid : string) (version : Z)
    (wt : WorkspaceTemplateRow) (wtv : WorkspaceTemplateVersionRow)
    (wft : WorkflowTemplateRow) (wftv : WorkflowTemplateVersionRow) : bool :=
  String.eqb (wt_uid wt) uid && String.eqb (wt_namespace wt) namespace
  && negb (wt_is_archived wt)
  && (if (version =? 0)%Z
      then wtv_is_latest wtv && wftv_is_latest wftv
      else (wtv_version wtv =? version)%Z && (wftv_version wftv =? version)%Z).

(** The result set of [GetWorkspaceTemplate] before [LIMIT 1]. *)
Definition versionRows (w : World) (namespace uid : string) (version : Z)
  : list WorkspaceTemplate :=
  flat_map (fun wt =>
    flat_map (fun wtv =>
      if (wtv_workspace_template_id wtv =? wt_id wt)%N then
        flat_map (fun wft =>
          if (wft_id wft =? wt_workflow_template_id wt)%N then
            flat_map (fun wftv =>
              if (wftv_workflow_template_id wftv =? wft_id wft)%N
                 && versionMatches namespace uid version wt wtv wft wftv
              then [scanVersion wt wtv wft wftv] else [])
              (workflow_template_versions (orch w))
          else [])
          (workflow_templates (orch w))
      else [])
      (workspace_template_versions (db w)))
    (workspace_templates (db w)).

(** [GetWorkspaceTemplate]. *)
Definition GetWorkspaceTemplate (c : Client) (fault : option error) (w : World)
    (namespace uid : string) (version : Z) : option WorkspaceTemplate * option error :=
  match dbGet fault (versionRows w namespace uid version) with
  | inr ErrNoRows => (None, None)
  | inr err => (Some zeroWorkspaceTemplate, Some err)
  | inl workspaceTemplate =>
      match GetSystemConfig c (orch w) with
      | inr err => (None, Some err)
      | inl sysConfig =>
          match InjectRuntimeParameters c (WorkflowTemplate_ workspaceTemplate) sysConfig with
          | inr err => (None, Some err)
          | inl wf => (Some (set_WorkflowTemplate workspaceTemplate wf), None)
          end
      end
  end.

(** [errors.As(err, &statusError)] for a [*util.UserError] target. *)
Fixpoint asUserError (e : error) : option (Code * string) :=
  match e with
  | UserError code msg => Some (code, msg)
  | WrapErrorf inner _ => asUserError inner
  | _ => None
  end.

(** The rewriting of [InvalidArgument] errors shared by the create and the
    update path. *)
Definition surfaceInvalidArgument (err : error) : error :=
  match asUserError err with
  | Some (InvalidArgument, msg) =>
      UserError InvalidArgument (strings_ReplaceAll msg "{{workflow." "{{workspace.")
  | _ => err
  end.

(** ** Create path *)

(** Driver failures of the statements of the create path, in program order. *)
Record CreateFaults := {
  cf_getByName : option error;
  cf_begin : option error;
  cf_insertTemplate : option error;
  cf_insertVersion : option error;
  cf_commit : option error
}.

Definition noCreateFaults : CreateFaults :=
  {| cf_getByName := None; cf_begin := None; cf_insertTemplate := None;
     cf_insertVersion := None; cf_commit := None |}.

Definition with_orch (w : World) (o : Orchestrator) : World := {| db := db w; orch := o |}.
Definition with_db (w : World) (d : DB) : World := {| db := d; orch := orch w |}.

(** The first assignments of [createWorkspaceTemplate] to the workflow
    template: [IsSystem], [Resource] and [ResourceUID]. *)
Definition systemWorkflowTemplate (c : Client) (uid : string) (wf : WorkflowTemplate)
  : WorkflowTemplate :=
  {| wf_ID := wf_ID wf; wf_UID := wf_UID wf; wf_Name := wf_Name wf;
     wf_Manifest := wf_Manifest wf; wf_Version := wf_Version wf;
     wf_IsSystem := true;
     wf_Resource := Some (TypeWorkspaceTemplate c);
     wf_ResourceUID := Some uid;
     wf_Labels := wf_Labels wf |}.

(** [createWorkspaceTemplate]. *)
Definition createWorkspaceTemplate (c : Client) (f : CreateFaults) (w : World)
    (namespace : string) (workspaceTemplate : WorkspaceTemplate)
  : result WorkspaceTemplate * World :=
  match GenerateUID c (Name workspaceTemplate) with
  | inr err => (inr err, w)
  | inl uid =>
      let workspaceTemplate := set_UID workspaceTemplate uid in
      match WorkflowTemplate_ workspaceTemplate with
      | None => (inr (Panic "nil pointer dereference"), w)
      | Some wf =>
          let wf := systemWorkflowTemplate c (UID workspaceTemplate) wf in
          match validateWorkflowTemplate c namespace wf (orch w) with
          | Some err =>
              let message := strings_ReplaceAll (Error err) "{{workflow." "{{workspace." in
              (inr (UserError InvalidArgument message), w)
          | None =>
              match createWorkflowTemplate c namespace wf (orch w) with
              | (inr err, o) => (inr (NewUserErrorWrap c err "Workflow template"), with_orch w o)
              | (inl wf, o) =>
                  let w := with_orch w o in
                  let workspaceTemplate := set_WorkflowTemplate workspaceTemplate (Some wf) in
                  let workspaceTemplate := set_Version workspaceTemplate (wf_Version wf) in
                  let workspaceTemplate := set_IsLatest workspaceTemplate true in
                  match cf_begin f with
                  | Some err => (inr err, w)
                  | None =>
                      let tx := db w in
                      match insertWorkspaceTemplateDB (cf_insertTemplate f) tx namespace
                              workspaceTemplate (wf_ID wf) with
                      | (Some err, _, _) =>
                          let '((_, errCleanUp), o) :=
                            ArchiveWorkflowTemplate c namespace (wf_UID wf) (orch w) in
                          let errorMsg := "Error with insert into workspace_templates. " in
                          let errorMsg :=
                            match errCleanUp with
                            | Some e =>
                                errorMsg +:+ "Error with clean-up: ArchiveWorkflowTemplate. "
                                  +:+ Error e
                            | None => errorMsg
                            end in
                          (inr (NewUserErrorWrap c err errorMsg), with_orch w o)
                      | (None, workspaceTemplate, tx) =>
                          match createWorkspaceTemplateVersionDB (cf_insertVersion f) tx
                                  workspaceTemplate with
                          | (Some err, _, _) =>
                              let errorMsg :=
                                "Error with insert into workspace_templates_versions. " in
                              let '((_, errCleanUp), o) :=
                                ArchiveWorkflowTemplate c namespace (wf_UID wf) (orch w) in
                              let '(err, errorMsg) :=
                                match errCleanUp with
                                | Some e =>
                                    (Errorf_w_semicolon err e,
                                     errorMsg +:+ "Error with clean-up: ArchiveWorkflowTemplate. ")
                                | None => (err, errorMsg)
                                end in
                              (inr (NewUserErrorWrap c err errorMsg), with_orch w o)
                          | (None, workspaceTemplate, tx) =>
                              match cf_commit f with
                              | Some err =>
                                  let '((_, errArchive), o) :=
                                    ArchiveWorkflowTemplate c namespace (wf_UID wf) (orch w) in
                                  let err :=
                                    match errArchive with
                                    | Some e => Errorf_w_semicolon err e
                                    | None => err
                                    end in
                                  (inr err, with_orch w o)
                              | None => (inl workspaceTemplate, with_db w tx)
                              end
                          end
                      end
                  end
              end
          end
      end
  end.

(** [CreateWorkspaceTemplate]. *)
Definition CreateWorkspaceTemplate (c : Client) (f : CreateFaults) (w : World)
    (namespace : string) (workspaceTemplate : WorkspaceTemplate)
  : result WorkspaceTemplate * World :=
  match ValidateStruct c workspaceTemplate with
  | Some err => (inr (UserError InvalidArgument (Error err)), w)
  | None =>
      let workspaceTemplate := set_Namespace workspaceTemplate namespace in
      match getWorkspaceTemplateByName (cf_getByName f) (db w) namespace
              (Name workspaceTemplate) with
      | (_, Some err) => (inr err, w)
      | (Some existingWorkspaceTemplate, None) =>
          let message :=
            "Workspace template with the name '" +:+ Name workspaceTemplate
              +:+ "' already exists" in
          let message :=
            if IsArchived existingWorkspaceTemplate
            then "An archived workspace template with the name '" +:+ Name workspaceTemplate
                   +:+ "' already exists"
            else message in
          (inr (UserError AlreadyExists message), w)
      | (None, None) =>
          match snd (generateWorkspaceTemplateWorkflowTemplate c (orch w)
                       (Some workspaceTemplate)) with
          | inr err => (inr err, w)
          | inl wf =>
              let workspaceTemplate := set_WorkflowTemplate workspaceTemplate (Some wf) in
              match createWorkspaceTemplate c f w namespace workspaceTemplate with
              | (inr err, w) => (inr (surfaceInvalidArgument err), w)
              | (inl workspaceTemplate, w) => (inl workspaceTemplate, w)
              end
          end
      end
  end.

(** ** Update path *)

Record UpdateFaults := {
  uf_get : option error;
  uf_begin : option error;
  uf_markOutdated : option error;
  uf_insertVersion : option error;
  uf_updateTemplate : option error;
  uf_commit : option error
}.

Definition noUpdateFaults : UpdateFaults :=
  {| uf_get := None; uf_begin := None; uf_markOutdated := None; uf_insertVersion := None;
     uf_updateTemplate := None; uf_commit := None |}.

(** The transaction of [UpdateWorkspaceTemplate]: [Some] of the committed
    tables and the template as the statements leave it, or the error that
    makes the deferred [Rollback] drop the transaction.  The template is
    the one object the caller holds, whatever the helper returns. *)
Definition updateTransaction (f : UpdateFaults) (d : DB) (workspaceTemplate : WorkspaceTemplate)
  : result (WorkspaceTemplate * DB) :=
  match uf_begin f with
  | Some err => inr err
  | None =>
      match createLatestWorkspaceTemplateVersionDB (uf_markOutdated f) (uf_insertVersion f) d
              (Some workspaceTemplate) with
      | (Some err, _, _) => inr err
      | (None, template, tx) =>
          let workspaceTemplate := default workspaceTemplate template in
          match updateWorkspaceTemplateDB (uf_updateTemplate f) tx workspaceTemplate with
          | (Some err, _) => inr err
          | (None, tx) =>
              match uf_commit f with
              | Some err => inr err
              | None => inl (workspaceTemplate, tx)
              end
          end
      end
  end.

(** [UpdateWorkspaceTemplate]. *)
Definition UpdateWorkspaceTemplate (c : Client) (f : UpdateFaults) (w : World)
    (namespace : string) (workspaceTemplate : WorkspaceTemplate)
  : result WorkspaceTemplate * World :=
  match GetWorkspaceTemplate c (uf_get f) w namespace (UID workspaceTemplate)
          (Version workspaceTemplate) with
  | (_, Some err) => (inr err, w)
  | (None, None) => (inr (UserError NotFound "Workspace template not found."), w)
  | (Some existingWorkspaceTemplate, None) =>
      let workspaceTemplate := set_ID workspaceTemplate (ID existingWorkspaceTemplate) in
      let workspaceTemplate := set_Name workspaceTemplate (UID existingWorkspaceTemplate) in
      let workspaceTemplate :=
        set_Namespace workspaceTemplate (Namespace existingWorkspaceTemplate) in
      match snd (generateWorkspaceTemplateWorkflowTemplate c (orch w)
                   (Some workspaceTemplate)) with
      | inr err => (inr err, w)
      | inl updatedWorkflowTemplate =>
          match WorkflowTemplate_ existingWorkspaceTemplate with
          | None => (inr (Panic "nil pointer dereference"), w)
          | Some existingWorkflowTemplate =>
              let updatedWorkflowTemplate :=
                {| wf_ID := wf_ID existingWorkflowTemplate;
                   wf_UID := wf_UID existingWorkflowTemplate;
                   wf_Name := wf_Name updatedWorkflowTemplate;
                   wf_Manifest := wf_Manifest updatedWorkflowTemplate;
                   wf_Version := wf_Version updatedWorkflowTemplate;
                   wf_IsSystem := wf_IsSystem updatedWorkflowTemplate;
                   wf_Resource := wf_Resource updatedWorkflowTemplate;
                   wf_ResourceUID := wf_ResourceUID updatedWorkflowTemplate;
                   wf_Labels := Labels workspaceTemplate |} in
              match CreateWorkflowTemplateVersion c namespace updatedWorkflowTemplate (orch w) with
              | (inr err, o) => (inr (surfaceInvalidArgument err), with_orch w o)
              | (inl workflowTemplateVersion, o) =>
                  let w := with_orch w o in
                  let workspaceTemplate :=
                    set_Version workspaceTemplate (wf_Version workflowTemplateVersion) in
                  let workspaceTemplate := set_IsLatest workspaceTemplate true in
                  match updateTransaction f (db w) workspaceTemplate with
                  | inr err => (inr err, w)
                  | inl (workspaceTemplate, tx) => (inl workspaceTemplate, with_db w tx)
                  end
              end
          end
      end
  end.

(** ** Archive path *)

Record ArchiveFaults := {
  af_get : option error;
  af_exec : option error;
  af_rowsAffected : option error
}.

Definition noArchiveFaults : ArchiveFaults :=
  {| af_get := None; af_exec := None; af_rowsAffected := None |}.

(** The loop of [ArchiveWorkspaceTemplate] over the workspaces of the
    template, stopping at the first failure. *)
Fixpoint archiveWorkspaces (c : Client) (namespace : string) (wsList : list Workspace)
    (o : Orchestrator) : option error * Orchestrator :=
  match wsList with
  | [] => (None, o)
  | ws :: rest =>
      match ArchiveWorkspace c namespace (ws_UID ws) o with
      | (Some err, o) => (Some err, o)
      | (None, o) => archiveWorkspaces c namespace rest o
      end
  end.

Definition unableToArchive : error :=
  UserError Unknown "Unable to archive workspace template.".

(** [ArchiveWorkspaceTemplate]. *)
Definition ArchiveWorkspaceTemplate (c : Client) (f : ArchiveFaults) (w : World)
    (namespace uid : string) : (bool * option error) * World :=
  match GetWorkspaceTemplate c (af_get f) w namespace uid 0 with
  | (_, Some err) => ((false, Some unableToArchive), w)
  | (None, None) => ((false, Some (Errorf "not found")), w)
  | (Some wsTemp, None) =>
      match ListWorkspacesByTemplateID c namespace (WorkspaceTemplateVersionID wsTemp) (orch w) with
      | inr err => ((false, Some unableToArchive), w)
      | inl wsList =>
          match archiveWorkspaces c namespace wsList (orch w) with
          | (Some err, o) => ((false, Some unableToArchive), with_orch w o)
          | (None, o) =>
              let w := with_orch w o in
              match archiveWorkspaceTemplateDB (af_exec f) (af_rowsAffected f) (db w)
                      namespace (UID wsTemp) with
              | ((_, Some err), d) => ((false, Some unableToArchive), with_db w d)
              | ((_, None), d) =>
                  let w := with_db w d in
                  match ArchiveWorkflowTemplate c namespace (UID wsTemp) (orch w) with
                  | ((_, Some err), o) => ((false, Some unableToArchive), with_orch w o)
                  | ((_, None), o) => ((true, None), with_orch w o)
                  end
              end
          end
      end
  end.

End Store.

Arguments Orchestrator : clear implicits.
Arguments World : clear implicits.
Arguments Client : clear implicits.

(** ** Invariants of the version store *)

(** Number of version rows of template [tid] flagged latest. *)
Definition latestCount (d : DB) (tid : N) : nat :=
  length (List.filter
            (fun r => (wtv_workspace_template_id r =? tid)%N && wtv_is_latest r)
            (workspace_template_versions d)).

Definition single_latest (d : DB) : Prop :=
  forall tid, latestCount d tid <= 1.

(** Referential integrity as the id sequence sees it: every template id in
    use was handed out by the sequence. *)
Definition ids_issued (d : DB) : Prop :=
  (forall r, In r (workspace_templates d) -> (wt_id r < next_workspace_template_id d)%N) /\
  (forall r, In r (workspace_template_versions d) ->
             (wtv_workspace_template_id r < next_workspace_template_id d)%N).

(** Committed operations of one client on the store; other components only
    ever change the orchestrator's side. *)
Inductive committed_step {Ext} (c : Client Ext) : World Ext -> World Ext -> Prop :=
| step_create f w namespace t :
    committed_step c w (snd (CreateWorkspaceTemplate c f w namespace t))
| step_update f w namespace t :
    committed_step c w (snd (UpdateWorkspaceTemplate c f w namespace t))
| step_archive f w namespace uid :
    committed_step c w (snd (ArchiveWorkspaceTemplate c f w namespace uid))
| step_elsewhere w o :
    committed_step c w (with_orch w o).

Inductive reachable {Ext} (c : Client Ext) : World Ext -> Prop :=
| reachable_init o now :
    reachable c {| db := {| workspace_templates := []; workspace_template_versions := [];
                            next_workspace_template_id := 1;
                            next_workspace_template_version_id := 1;
                            db_now := now |};
                   orch := o |}
| reachable_step w w' :
    reachable c w -> committed_step c w w' -> reachable c w'.

(** The row inserted for [template] by [createWorkspaceTemplateVersionDB]. *)
Definition versionRowOf (d : DB) (template : WorkspaceTemplate) : WorkspaceTemplateVersionRow :=
  {| wtv_id := next_workspace_template_version_id d; wtv_version := Version template;
     wtv_is_latest := IsLatest template; wtv_manifest := Manifest template;
     wtv_workspace_template_id := ID template; wtv_labels := Labels template;
     wtv_created_at := db_now d |}.

(** The store after the two inserts of the create path. *)
Definition createdDB (d : DB) (namespace : string) (t : WorkspaceTemplate) (wfid : N) : DB :=
  let '(_, t1, d1) := insertWorkspaceTemplateDB None d namespace t wfid in
  snd (createWorkspaceTemplateVersionDB None d1 t1).

(** Modelled from the spec: [util.NewUserErrorWrap], the helper that builds
    the error surfaced after a failed insert, is not part of the sources and
    is a parameter of the client.  The specification has the surfaced error
    annotate and never suppress the original failure: the helper's result
    keeps the error it was given on its unwrap chain, and its text holds the
    message it was given and the text of that error. *)
Definition annotatesWithoutSuppressing {Ext} (c : Client Ext) : Prop :=
  forall (err : error) (msg : string),
    error_Is (NewUserErrorWrap c err msg) err /\
    occurs_in msg (Error (NewUserErrorWrap c err msg)) /\
    occurs_in (Error err) (Error (NewUserErrorWrap c err msg)).

(** The error the create path hands on when a persistence step failed with
    [original] and the clean-up gave [cleanup]: the failure itself, chained
    by [fmt.Errorf] with the clean-up error if there is one. *)
Definition chainedWithCleanUp (original : error) (cleanup : option error) : error :=
  match cleanup with
  | Some ce => Errorf_w_semicolon original ce
  | None => original
  end.

(** ** Reference statements, in the words of the specification *)

(** The parameter order announced for [generateArguments]: runtime
    parameters (host, node-pool label, node pool), then the placeholders,
    then the volume sizes, all ahead of the declared parameters. *)
Definition announcedParameterOrder (runtime placeholders volumes declared : list Param)
  : list Param :=
  runtime ++ placeholders ++ volumes ++ declared.

Definition declaredParameters (spec : WorkspaceSpec) : list Param :=
  match Arguments_ spec with Some ps => ps | None => [] end.

Definition follows_announced_order (spec : WorkspaceSpec) (config : SystemConfig) : Prop :=
  forall runtime spec',
    generateRuntimeParameters config = inl runtime ->
    generateArguments spec config = inl spec' ->
    Arguments_ spec' =
      Some (announcedParameterOrder runtime placeholderParameters
              (systemVolumeParameters spec) (declaredParameters spec)).

(** Reserved volume names of [createStatefulSetManifest]. *)
Definition reservedVolume (name : string) : bool :=
  String.eqb name "sys-dshm" || String.eqb name "sys-namespace-config".

(** Archiving an already archived template is a no-op without error. *)
Definition archive_is_idempotent_at {Ext} (c : Client Ext) (w : World Ext)
    (namespace uid : string) : Prop :=
  (exists r, In r (workspace_templates (db w)) /\ wt_uid r = uid /\
             wt_namespace r = namespace /\ wt_is_archived r = true) ->
  fst (ArchiveWorkspaceTemplate c noArchiveFaults w namespace uid) = (false, None).

(** Mounts kept by a first-occurrence scan: a mount is kept when its name
    has neither been seen before nor is excluded. *)
Fixpoint firstMounts (excluded seen : gmap string bool) (vs : list VolumeMount)
  : list VolumeMount :=
  match vs with
  | [] => []
  | v :: vs =>
      if map_get seen (vm_Name v) || map_get excluded (vm_Name v)
      then firstMounts excluded seen vs
      else v :: firstMounts excluded (<[vm_Name v := true]> seen) vs
  end.

(** Every mount of every container, in program order. *)
Definition allMounts (cs : list Container) : list VolumeMount :=
  flat_map c_VolumeMounts cs.

(** The compiled definition as a structured value: the pipeline of
    [generateWorkspaceTemplateWorkflowTemplate] from the parsed spec on, the
    four manifests being whatever their serialization gave. *)
Definition compiledDefinition (lib : Lib) (spec : WorkspaceSpec) (config : SystemConfig)
    (services : list Service)
    (serviceManifest virtualServiceManifest statefulSetManifest workspaceManifest : string)
  : result WorkflowTemplateSpec :=
  match specAtGraphCompilation lib spec config services with
  | inr err => inr err
  | inl spec =>
      workflowTemplateSpec lib spec serviceManifest virtualServiceManifest
        statefulSetManifest workspaceManifest
  end.

(** The volume claims of the stateful set as the pipeline assembles it,
    after parameter injection. *)
Definition compiledVolumeClaims (spec : WorkspaceSpec) (config : SystemConfig)
  : result (list VolumeClaimDoc) :=
  match generateArguments spec config with
  | inr err => inr err
  | inl spec => inl (statefulSetVolumeClaims spec)
  end.

(** ** A concrete client and concrete inputs *)

Module Demo.

Definition config : SystemConfig :=
  {| Domain := Some "example.com";
     NodePoolLabel := Some "beta.kubernetes.io/instance-type";
     NodePoolOptions := inl [ {| po_Name := "CPU"; po_Value := "Standard_D4s_v3" |} ];
     config_entries := ∅ |}.

Definition configWithoutNodePools : SystemConfig :=
  {| Domain := Some "example.com";
     NodePoolLabel := Some "beta.kubernetes.io/instance-type";
     NodePoolOptions := inl [];
     config_entries := ∅ |}.

Definition mount (name path : string) : VolumeMount :=
  {| vm_Name := name; vm_MountPath := path |}.

(** One container mounting a volume [data]; one declared parameter. *)
Definition spec : WorkspaceSpec :=
  {| Arguments_ := Some [ mkHidden "user-param" (Some "1") "input.text" ];
     Containers := [ {| c_Name := "main"; c_Env := [];
                        c_VolumeMounts := [ mount "data" "/data" ] |} ];
     Ports := []; Routes := []; VolumeClaimTemplates := []; PostExecution := None |}.

(** Two containers sharing [data]; the second also mounts the reserved
    [sys-namespace-config] volume. *)
Definition specWithReservedMount : WorkspaceSpec :=
  {| Arguments_ := None;
     Containers := [ {| c_Name := "main"; c_Env := [];
                        c_VolumeMounts := [ mount "data" "/data" ] |};
                     {| c_Name := "sidecar"; c_Env := [];
                        c_VolumeMounts := [ mount "data" "/mnt/data";
                                            mount "sys-namespace-config" "/etc/onepanel" ] |} ];
     Ports := []; Routes := []; VolumeClaimTemplates := []; PostExecution := None |}.

Definition lib : Lib :=
  {| yaml_Marshal := fun _ => inl "document";
     json_Marshal := fun _ => inl "{}";
     yaml_UnmarshalStrict := fun _ => inl spec;
     env_AddDefaultEnvVars := fun e => e;
     env_PrependEnvVar := fun e name value => {| env_Name := name; env_Value := value |} :: e;
     strings_ToUpper := fun s => s;
     getCURLNodeTemplate := fun name _ _ body inputs =>
       inl {| tpl_Name := name; tpl_Inputs := inputs; tpl_Outputs := [];
              tpl_Body := Other body |} |}.

Definition orchestrator0 : Orchestrator unit :=
  {| workflow_templates := []; workflow_template_versions := []; cluster := tt |}.

Definition set_wf_identity (wf : WorkflowTemplate) (id : N) (uid : string) (version : Z)
  : WorkflowTemplate :=
  {| wf_ID := id; wf_UID := uid; wf_Name := wf_Name wf; wf_Manifest := wf_Manifest wf;
     wf_Version := version; wf_IsSystem := wf_IsSystem wf; wf_Resource := wf_Resource wf;
     wf_ResourceUID := wf_ResourceUID wf; wf_Labels := wf_Labels wf |}.

(** A small orchestrator-template collaborator: registration appends a
    template row and its version 1; a new version outdates the others. *)
Definition register (namespace : string) (wf : WorkflowTemplate) (o : Orchestrator unit)
  : result WorkflowTemplate * Orchestrator unit :=
  let id := (N.of_nat (length (workflow_templates o)) + 1)%N in
  (inl (set_wf_identity wf id (wf_Name wf) 1),
   {| workflow_templates :=
        workflow_templates o ++ [ {| wft_id := id; wft_uid := wf_Name wf;
                                     wft_is_archived := false |} ];
      workflow_template_versions :=
        workflow_template_versions o ++
          [ {| wftv_workflow_template_id := id; wftv_version := 1; wftv_is_latest := true;
               wftv_manifest := wf_Manifest wf |} ];
      cluster := tt |}).

Definition addVersion (namespace : string) (wf : WorkflowTemplate) (o : Orchestrator unit)
  : result WorkflowTemplate * Orchestrator unit :=
  let older :=
    List.filter (fun r => (wftv_workflow_template_id r =? wf_ID wf)%N)
      (workflow_template_versions o) in
  let version := (Z.of_nat (length older) + 1)%Z in
  (inl (set_wf_identity wf (wf_ID wf) (wf_UID wf) version),
   {| workflow_templates := workflow_templates o;
      workflow_template_versions :=
        map (fun r => if (wftv_workflow_template_id r =? wf_ID wf)%N
                      then {| wftv_workflow_template_id := wftv_workflow_template_id r;
                              wftv_version := wftv_version r; wftv_is_latest := false;
                              wftv_manifest := wftv_manifest r |}
                      else r)
            (workflow_template_versions o) ++
          [ {| wftv_workflow_template_id := wf_ID wf; wftv_version := version;
               wftv_is_latest := true; wftv_manifest := wf_Manifest wf |} ];
      cluster := tt |}).

Definition archiveDefinition (namespace uid : string) (o : Orchestrator unit)
  : (bool * option error) * Orchestrator unit :=
  ((true, None),
   {| workflow_templates :=
        map (fun r => if String.eqb (wft_uid r) uid
                      then {| wft_id := wft_id r; wft_uid := wft_uid r; wft_is_archived := true |}
                      else r)
            (workflow_templates o);
      workflow_template_versions := workflow_template_versions o;
      cluster := tt |}).

Definition client : Client unit :=
  {| client_lib := lib;
     TypeWorkspaceTemplate := "workspace_template";
     NewUserErrorWrap := fun err entity => WrapErrorf err (entity +:+ Error err);
     ValidateStruct := fun _ => None;
     GenerateUID := fun name => inl name;
     InjectRuntimeParameters := fun wf _ => inl wf;
     GetSystemConfig := fun _ => inl config;
     ListServices := fun _ _ => inl [];
     validateWorkflowTemplate := fun _ _ _ => None;
     createWorkflowTemplate := register;
     CreateWorkflowTemplateVersion := addVersion;
     ArchiveWorkflowTemplate := archiveDefinition;
     ListWorkspacesByTemplateID := fun _ _ _ => inl [];
     ArchiveWorkspace := fun _ _ o => (None, o) |}.

(** The same client with an orchestrator whose clean-up call fails. *)
Definition clientFailingCleanUp : Client unit :=
  {| client_lib := lib;
     TypeWorkspaceTemplate := "workspace_template";
     NewUserErrorWrap := fun err entity => WrapErrorf err (entity +:+ Error err);
     ValidateStruct := fun _ => None;
     GenerateUID := fun name => inl name;
     InjectRuntimeParameters := fun wf _ => inl wf;
     GetSystemConfig := fun _ => inl config;
     ListServices := fun _ _ => inl [];
     validateWorkflowTemplate := fun _ _ _ => None;
     createWorkflowTemplate := register;
     CreateWorkflowTemplateVersion := addVersion;
     ArchiveWorkflowTemplate := fun _ _ o => ((false, Some (Errorf "orchestrator unavailable")), o);
     ListWorkspacesByTemplateID := fun _ _ _ => inl [];
     ArchiveWorkspace := fun _ _ o => (None, o) |}.

(** The same client with a system configuration without node pools. *)
Definition clientWithoutNodePools : Client unit :=
  {| client_lib := lib;
     TypeWorkspaceTemplate := "workspace_template";
     NewUserErrorWrap := fun err entity => WrapErrorf err (entity +:+ Error err);
     ValidateStruct := fun _ => None;
     GenerateUID := fun name => inl name;
     InjectRuntimeParameters := fun wf _ => inl wf;
     GetSystemConfig := fun _ => inl configWithoutNodePools;
     ListServices := fun _ _ => inl [];
     validateWorkflowTemplate := fun _ _ _ => None;
     createWorkflowTemplate := register;
     CreateWorkflowTemplateVersion := addVersion;
     ArchiveWorkflowTemplate := archiveDefinition;
     ListWorkspacesByTemplateID := fun _ _ _ => inl [];
     ArchiveWorkspace := fun _ _ o => (None, o) |}.

Definition world0 : World unit := {| db := emptyDB; orch := orchestrator0 |}.

Definition newTemplate (name : string) : WorkspaceTemplate :=
  {| ID := 0; WorkspaceTemplateVersionID := 0; UID := EmptyString; Name := name;
     Namespace := EmptyString; Description := EmptyString; Version := 0; IsLatest := false;
     IsArchived := false; Manifest := "containers: [...]"; Labels := ∅; CreatedAt := 0;
     WorkflowTemplate_ := None |}.

(** Templates [base] and [ml-1] created in namespace [ns]. *)
Definition world1 : World unit :=
  snd (CreateWorkspaceTemplate client noCreateFaults world0 "ns" (newTemplate "base")).

Definition world2 : World unit :=
  snd (CreateWorkspaceTemplate client noCreateFaults world1 "ns" (newTemplate "ml-1")).

(** [ml-1] updated once. *)
Definition updateRequest : WorkspaceTemplate := set_UID (newTemplate "ml-1") "ml-1".

Definition world3 : World unit :=
  snd (UpdateWorkspaceTemplate client noUpdateFaults world2 "ns" updateRequest).

(** [ml-1] archived. *)
Definition world4 : World unit :=
  snd (ArchiveWorkspaceTemplate client noArchiveFaults world3 "ns" "ml-1").

(** A template as [CreateWorkspaceTemplate] hands it to
    [createWorkspaceTemplate], with its compiled workflow template. *)
Definition compiledTemplate (name : string) : WorkspaceTemplate :=
  set_WorkflowTemplate (set_Namespace (newTemplate name) "ns")
    (Some {| wf_ID := 0; wf_UID := EmptyString; wf_Name := name; wf_Manifest := "document";
             wf_Version := 0; wf_IsSystem := false; wf_Resource := None;
             wf_ResourceUID := None; wf_Labels := ∅ |}).

(** The driver rejects the insert of the version row. *)
Definition versionInsertFails : CreateFaults :=
  {| cf_getByName := None; cf_begin := None; cf_insertTemplate := None;
     cf_insertVersion := Some (Errorf "connection reset"); cf_commit := None |}.

(** Outcome of creating a third template, and of updating [ml-1] again,
    in [world3]. *)
Definition thirdCreated : WorkspaceTemplate * World unit :=
  match CreateWorkspaceTemplate client noCreateFaults world3 "ns" (newTemplate "third") with
  | (inl t, w) => (t, w)
  | (inr _, w) => (zeroWorkspaceTemplate, w)
  end.

Definition updatedAgain : WorkspaceTemplate * World unit :=
  match UpdateWorkspaceTemplate client noUpdateFaults world3 "ns" updateRequest with
  | (inl t, w) => (t, w)
  | (inr _, w) => (zeroWorkspaceTemplate, w)
  end.

End Demo.

(** ** Effects of the committed operations on the store *)

(** The tables once the statement of [archiveWorkspaceTemplateDB] has run. *)
Definition archivedDB (d : DB) (namespace uid : string) : DB :=
  {| workspace_templates :=
       map (fun r => if archivable namespace uid r then archiveRow r else r)
           (workspace_templates d);
     workspace_template_versions := workspace_template_versions d;
     next_workspace_template_id := next_workspace_template_id d;
     next_workspace_template_version_id := next_workspace_template_version_id d;
     db_now := db_now d |}.

(** The row written by the [UPDATE workspace_templates] of the update path. *)
Definition relabel (t : WorkspaceTemplate) (r : WorkspaceTemplateRow) : WorkspaceTemplateRow :=
  if String.eqb (wt_uid r) (UID t) && String.eqb (wt_namespace r) (Namespace t)
  then {| wt_id := wt_id r; wt_uid := wt_uid r; wt_name := wt_name r;
          wt_namespace := wt_namespace r; wt_description := Description t;
          wt_is_archived := wt_is_archived r;
          wt_workflow_template_id := wt_workflow_template_id r;
          wt_labels := Labels t; wt_created_at := wt_created_at r |}
  else r.

(** The tables a committed update transaction for [t] leaves. *)
Definition updatedDB (d : DB) (t : WorkspaceTemplate) : DB :=
  {| workspace_templates := map (relabel t) (workspace_templates d);
     workspace_template_versions :=
       map (fun r => if (wtv_workspace_template_id r =? ID t)%N && wtv_is_latest r
                     then outdate r else r)
           (workspace_template_versions d)
         ++ [versionRowOf d (set_IsLatest t true)];
     next_workspace_template_id := next_workspace_template_id d;
     next_workspace_template_version_id := (next_workspace_template_version_id d + 1)%N;
     db_now := db_now d |}.

(** What one operation of the client can have done to the two tables:
    nothing, the two inserts of a create, a committed update of an existing
    template, or the archive statement. *)
Inductive db_effect : DB -> DB -> Prop :=
| effect_none d : db_effect d d
| effect_create d namespace t wfid :
    IsLatest t = true -> db_effect d (createdDB d namespace t wfid)
| effect_update d t wt :
    In wt (workspace_templates d) -> ID t = wt_id wt -> db_effect d (updatedDB d t)
| effect_archive d namespace uid :
    db_effect d (archivedDB d namespace uid).

(** The columns of a template row that identify it. *)
Definition templateIdentity (r : WorkspaceTemplateRow) : N * string * string * string * N * N :=
  (wt_id r, wt_uid r, wt_name r, wt_namespace r, wt_workflow_template_id r, wt_created_at r).

(** Ids of both tables are unique and were handed out by the sequences. *)
Definition ids_unique (d : DB) : Prop :=
  NoDup (map wt_id (workspace_templates d)) /\
  NoDup (map wtv_id (workspace_template_versions d)) /\
  (forall r, In r (workspace_templates d) -> (wt_id r < next_workspace_template_id d)%N) /\
  (forall r, In r (workspace_template_versions d) ->
             (wtv_id r < next_workspace_template_version_id d)%N).

(** Every version row belongs to a template row, and every template row
    has exactly one version flagged latest. *)
Definition versions_consistent (d : DB) : Prop :=
  (forall r, In r (workspace_template_versions d) ->
             exists wt, In wt (workspace_templates d) /\
                        wt_id wt = wtv_workspace_template_id r) /\
  (forall wt, In wt (workspace_templates d) -> latestCount d (wt_id wt) = 1).

(** No two active templates of a namespace share a name. *)
Definition active_names_unique (d : DB) : Prop :=
  forall namespace name, length (byNameRows d namespace name) <= 1.

(** [CountWorkspaceTemplates]: the count stays zero when the query fails. *)
Definition CountWorkspaceTemplates (fault : option error) (d : DB) (namespace : string)
  : Z * option error :=
  match fault with
  | Some err => (0%Z, Some err)
  | None =>
      (Z.of_nat (length (List.filter
                           (fun r => String.eqb (wt_namespace r) namespace
                                     && negb (wt_is_archived r))
                           (workspace_templates d))),
       None)
  end.

(** A version row as it is found again after an operation: every column but
    the latest flag is the same, and the flag has not been set. *)
Definition version_kept (r r' : WorkspaceTemplateVersionRow) : Prop :=
  outdate r' = outdate r /\ (wtv_is_latest r' = true -> wtv_is_latest r = true).

(** A template row as it is found again after an operation. *)
Definition template_kept (r r' : WorkspaceTemplateRow) : Prop :=
  templateIdentity r' = templateIdentity r /\
  (wt_is_archived r = true -> wt_is_archived r' = true).

(** ** Listing the versions of a template *)

(** The [WHERE] clause of [ListWorkspaceTemplateVersions] on a joined row. *)
Definition versionListed (namespace uid : string)
    (wt : WorkspaceTemplateRow) (wft : WorkflowTemplateRow) : bool :=
  String.eqb (wt_uid wt) uid && String.eqb (wt_namespace wt) namespace
  && negb (wt_is_archived wt) && negb (wft_is_archived wft).

(** The joined rows of [ListWorkspaceTemplateVersions] before [DISTINCT ON]
    and [ORDER BY]: the join of [workspaceTemplateVersionsSelectBuilder]. *)
Definition versionListRows {Ext} (w : World Ext) (namespace uid : string)
  : list WorkspaceTemplate :=
  flat_map (fun wt =>
    flat_map (fun wtv =>
      if (wtv_workspace_template_id wtv =? wt_id wt)%N then
        flat_map (fun wft =>
          if (wft_id wft =? wt_workflow_template_id wt)%N then
            flat_map (fun wftv =>
              if (wftv_workflow_template_id wftv =? wft_id wft)%N
                 && versionListed namespace uid wt wft
              then [scanVersion wt wtv wft wftv] else [])
              (workflow_template_versions (orch w))
          else [])
          (workflow_templates (orch w))
      else [])
      (workspace_template_versions (db w)))
    (workspace_templates (db w)).

(** [ORDER BY wtv.version DESC], as a stable insertion sort. *)
Fixpoint insertByVersion (t : WorkspaceTemplate) (l : list WorkspaceTemplate)
  : list WorkspaceTemplate :=
  match l with
  | [] => [t]
  | u :: rest =>
      if (Version u <=? Version t)%Z then t :: l else u :: insertByVersion t rest
  end.

Definition orderByVersionDesc (l : list WorkspaceTemplate) : list WorkspaceTemplate :=
  fold_right insertByVersion [] l.

(** [DISTINCT ON (wtv.version)] over the ordered rows: the first row of
    each run of equal versions; [prev] is the version of the run being
    skipped. *)
Fixpoint distinctOnVersion (prev : option Z) (l : list WorkspaceTemplate)
  : list WorkspaceTemplate :=
  match l with
  | [] => []
  | t :: rest =>
      match prev with
      | Some v =>
          if (Version t =? v)%Z then distinctOnVersion prev rest
          else t :: distinctOnVersion (Some (Version t)) rest
      | None => t :: distinctOnVersion (Some (Version t)) rest
      end
  end.

(** [ListWorkspaceTemplateVersions]; which of several joined rows of one
    version the store keeps is not specified by the query, here the first
    in join order. *)
Definition ListWorkspaceTemplateVersions {Ext} (fault : option error) (w : World Ext)
    (namespace uid : string) : list WorkspaceTemplate * option error :=
  match fault with
  | Some err => ([], Some err)
  | None =>
      (distinctOnVersion None (orderByVersionDesc (versionListRows w namespace uid)), None)
  end.

(** A list of versions in strictly descending order. *)
Fixpoint strictlyDescending (l : list Z) : Prop :=
  match l with
  | [] => True
  | a :: rest => Forall (fun b => (b < a)%Z) rest /\ strictlyDescending rest
  end.

(** A list of versions in descending order, repetitions allowed. *)
Fixpoint descending (l : list Z) : Prop :=
  match l with
  | [] => True
  | a :: rest => Forall (fun b => (b <= a)%Z) rest /\ descending rest
  end.

(** ** A client whose instance lifecycle fails *)

Module DemoInstances.

Definition instances : list Workspace :=
  [ {| ws_UID := "ws-a" |}; {| ws_UID := "ws-b" |}; {| ws_UID := "ws-c" |} ].

(** As [Demo.client], with three live workspaces per template, the second
    of which cannot be archived. *)
Definition clientFailingInstance : Client unit :=
  {| client_lib := Demo.lib;
     TypeWorkspaceTemplate := "workspace_template";
     NewUserErrorWrap := fun err entity => WrapErrorf err (entity +:+ Error err);
     ValidateStruct := fun _ => None;
     GenerateUID := fun name => inl name;
     InjectRuntimeParameters := fun wf _ => inl wf;
     GetSystemConfig := fun _ => inl Demo.config;
     ListServices := fun _ _ => inl [];
     validateWorkflowTemplate := fun _ _ _ => None;
     createWorkflowTemplate := Demo.register;
     CreateWorkflowTemplateVersion := Demo.addVersion;
     ArchiveWorkflowTemplate := Demo.archiveDefinition;
     ListWorkspacesByTemplateID := fun _ _ _ => inl instances;
     ArchiveWorkspace := fun _ uid o =>
       if String.eqb uid "ws-b" then (Some (Errorf "workspace is busy"), o) else (None, o) |}.

(** The latest version of [ml-1] as [GetWorkspaceTemplate] returns it in
    [Demo.world3]. *)
Definition ml1Latest : WorkspaceTemplate :=
  default zeroWorkspaceTemplate
    (fst (GetWorkspaceTemplate Demo.client None Demo.world3 "ns" "ml-1" 0)).

End DemoInstances.

(** ** Reference notions for the compiler *)

(** Declared volume-claim templates kept by the first loop of
    [createStatefulSetManifest]: the first template of each name. *)
Fixpoint firstDeclared (seen : gmap string bool) (vcts : list PersistentVolumeClaim)
  : list PersistentVolumeClaim :=
  match vcts with
  | [] => []
  | v :: rest =>
      if map_get seen (pvc_Name v) then firstDeclared seen rest
      else v :: firstDeclared (<[pvc_Name v := true]> seen) rest
  end.

(** Every dependency of a task names a task that stands earlier in the
    list ([seen] holds the names met so far). *)
Fixpoint dependenciesDefinedEarlier (seen : list string) (tasks : list DAGTask) : bool :=
  match tasks with
  | [] => true
  | t :: rest =>
      forallb (fun d => existsb (String.eqb d) seen) (t_Dependencies t)
      && dependenciesDefinedEarlier (t_Name t :: seen) rest
  end.

(** The task spliced in for a post-execution workflow. *)
Definition postExecutionTask (post : PostExecutionWorkflow) : DAGTask :=
  mkTask (pew_Entrypoint post) (pew_Entrypoint post)
    ["sys-set-phase-running"; "sys-set-phase-paused"; "sys-set-phase-terminated"]
    [] EmptyString [].

(** The stages of [generateWorkspaceTemplateWorkflowTemplate] in program
    order. *)
Definition pipelineStages : list Stage :=
  [ StGetSystemConfig; StParseWorkspaceSpec; StGenerateArguments; StServiceManifest;
    StVirtualServiceManifest; StListServices; StStatefulSetManifest; StWorkspaceManifest;
    StWorkflowTemplate ].

(** The name of the size parameter of a volume. *)
Definition volumeSizeName (volume : string) : string :=
  "sys-" +:+ volume +:+ "-volume-size".

(** ** Reference notions for the routes *)

(** No nil on the way to a host: the route, each entry of its [Route] and
    each entry's [Destination] are there. *)
Definition completeDestination (r : option HTTPRouteDestination) : bool :=
  match r with
  | Some r => match d_Destination r with Some _ => true | None => false end
  | None => false
  end.

Definition completeRoute (h : option HTTPRoute) : bool :=
  match h with
  | Some h => forallb completeDestination (r_Route h)
  | None => false
  end.

Definition completeRoutes (rs : list (option HTTPRoute)) : bool := forallb completeRoute rs.

(** [r'] is [r] with the host of its destination redirected and nothing
    else changed; likewise for routes. *)
Definition redirectedDestination (r r' : option HTTPRouteDestination) : Prop :=
  exists a d,
    r = Some a /\ d_Destination a = Some d /\
    r' = Some {| d_Destination := Some {| dst_Host := "{{workflow.parameters.sys-uid}}";
                                          dst_Subset := dst_Subset d;
                                          dst_Port := dst_Port d |};
                 d_Weight := d_Weight a |}.

Definition redirectedRoute (h h' : option HTTPRoute) : Prop :=
  exists a b,
    h = Some a /\ h' = Some b /\ r_Match b = r_Match a /\ r_Other b = r_Other a /\
    Forall2 redirectedDestination (r_Route a) (r_Route b).

(** * The namespace server

    [ListNamespaces] and [CreateNamespace] of [server/namespace_server.go].
    Request and response fields are those the handlers read and write;
    [int32] fields are integers with the wrap-around written out. *)

Module NamespaceServer.

Local Open Scope Z_scope.

(** Conversion to [int32] and [int32] arithmetic: two's complement. *)
Definition int32 (z : Z) : Z := (z + 2 ^ 31) mod 2 ^ 32 - 2 ^ 31.

Definition is_int32 (z : Z) : Prop := - 2 ^ 31 <= z < 2 ^ 31.

(** [strings.HasPrefix] and [strings.Contains]. *)
Fixpoint strings_HasPrefix (s prefix : string) : bool :=
  match prefix, s with
  | EmptyString, _ => true
  | String a prefix', String b s' => Ascii.eqb a b && strings_HasPrefix s' prefix'
  | String _ _, EmptyString => false
  end.

Fixpoint strings_Contains (s substr : string) : bool :=
  strings_HasPrefix s substr
  || match s with
     | EmptyString => false
     | String _ s' => strings_Contains s' substr
     end.

(** [math.Ceil(float64(a) / float64(b))] for [0 <= a] and [0 < b].  The
    quotient is rounded to a [float64]; for [a < 2^53] and [b < 2^31] the
    rounded quotient lies between the same two integers as the exact one
    and is an integer only if the exact one is, so its ceiling is the exact
    ceiling, which is what is written here. *)
Definition math_Ceil_div (a b : Z) : Z := (a + b - 1) / b.

(** [v1.Namespace] and [api.Namespace], as far as the handlers look. *)
Record Namespace := { ns_Name : string }.

Record ApiNamespace := { api_Name : string }.

Record ListNamespacesRequest := {
  req_PageSize : Z;
  req_Page : Z;
  req_Query : string
}.

Record ListNamespacesResponse := {
  resp_Count : Z;
  resp_Namespaces : list ApiNamespace;
  resp_Page : Z;
  resp_Pages : Z;
  resp_TotalCount : Z
}.

(** What a handler hands back: a response pointer and an error, either of
    which may be nil, unless it panics. *)
Inductive reply (A : Type) :=
| Reply (response : option A) (err : option error)
| RuntimePanic (msg : string).

Arguments Reply {A} response err.
Arguments RuntimePanic {A} msg.

(** The collaborators of the handlers, which are not part of these
    sources: [auth.IsAuthorized] and the two client methods, acting on the
    state of the cluster. *)
Record KubeClient (Cluster : Type) := {
  IsAuthorized : string -> string -> string -> string -> string -> Cluster
                 -> bool * option error;
  client_ListNamespaces : Cluster -> result (list Namespace);
  client_CreateNamespace : string -> Cluster -> result Namespace * Cluster
}.

Arguments IsAuthorized {Cluster} _ _ _ _ _ _ _.
Arguments client_ListNamespaces {Cluster} _ _.
Arguments client_CreateNamespace {Cluster} _ _ _.

(** [err != nil]. *)
Definition notNil (err : option error) : bool :=
  match err with Some _ => true | None => false end.

Definition apiNamespace (ns : Namespace) : ApiNamespace := {| api_Name := ns_Name ns |}.

(** The filter of the listing loop. *)
Definition matchesQuery (query : string) (ns : Namespace) : bool :=
  String.eqb query EmptyString
  || (negb (String.eqb query EmptyString) && strings_Contains (ns_Name ns) query).

(** [s[start:end]] on a slice of length [length s]: the bounds are checked
    against the capacity, which is at least the length; [ListNamespaces]
    never lets [end] exceed the length, so the check against the length
    decides the same there. *)
Definition slice {A} (s : list A) (start end_ : Z) : option (list A) :=
  if (0 <=? start) && (start <=? end_) && (end_ <=? Z.of_nat (length s))
  then Some (firstn (Z.to_nat (end_ - start)) (skipn (Z.to_nat start) s))
  else None.

(** [ListNamespaces]. *)
Definition ListNamespaces {Cluster} (client : KubeClient Cluster) (k : Cluster)
    (req : ListNamespacesRequest) : reply ListNamespacesResponse :=
  let '(allowed, err) := IsAuthorized client "" "list" "" "namespaces" "" k in
  if notNil err || negb allowed then Reply None err
  else
    let PageSize := if req_PageSize req <=? 0 then 15 else req_PageSize req in
    match client_ListNamespaces client k with
    | inr err => Reply None (Some err)
    | inl namespaces =>
        let apiNamespaces :=
          map apiNamespace (List.filter (matchesQuery (req_Query req)) namespaces) in
        let len := Z.of_nat (length apiNamespaces) in
        let pages := int32 (math_Ceil_div len PageSize) in
        let Page := if req_Page req >? pages then pages else req_Page req in
        let Page := if Page <=? 0 then 1 else Page in
        let start := int32 (int32 (Page - 1) * PageSize) in
        let end_ := int32 (start + PageSize) in
        let end_ := if end_ >=? int32 len then int32 len else end_ in
        match slice apiNamespaces start end_ with
        | None => RuntimePanic "slice bounds out of range"
        | Some page =>
            Reply (Some {| resp_Count := int32 (end_ - start);
                           resp_Namespaces := page;
                           resp_Page := Page;
                           resp_Pages := pages;
                           resp_TotalCount := int32 len |}) None
        end
    end.

(** [CreateNamespace]; [namespace] is the [Namespace] field of the request,
    a pointer that is dereferenced once the caller is authorised. *)
Definition CreateNamespace {Cluster} (client : KubeClient Cluster) (k : Cluster)
    (namespace : option ApiNamespace) : reply ApiNamespace * Cluster :=
  let '(allowed, err) := IsAuthorized client "" "create" "" "namespaces" "" k in
  if notNil err || negb allowed then (Reply None err, k)
  else
    match namespace with
    | None => (RuntimePanic "nil pointer dereference", k)
    | Some requested =>
        match client_CreateNamespace client (api_Name requested) k with
        | (inr err, k') => (Reply None (Some err), k')
        | (inl namespace, k') => (Reply (Some {| api_Name := ns_Name namespace |}) None, k')
        end
    end.

(** The page size [ListNamespaces] works with. *)
Definition effectivePageSize (req : ListNamespacesRequest) : Z :=
  if req_PageSize req <=? 0 then 15 else req_PageSize req.

(** The request for another page of the same listing. *)
Definition withPage (req : ListNamespacesRequest) (page : Z) : ListNamespacesRequest :=
  {| req_PageSize := req_PageSize req; req_Page := page; req_Query := req_Query req |}.

(** The namespaces a reply carries. *)
Definition listedNamespaces (r : reply ListNamespacesResponse) : list ApiNamespace :=
  match r with
  | Reply (Some resp) _ => resp_Namespaces resp
  | _ => []
  end.

(** A cluster that answers the same to everyone. *)
Definition staticClient (allowed : bool) (err : option error)
    (namespaces : result (list Namespace)) : KubeClient unit :=
  {| IsAuthorized := fun _ _ _ _ _ _ => (allowed, err);
     client_ListNamespaces := fun _ => namespaces;
     client_CreateNamespace := fun name k => (inl {| ns_Name := name |}, k) |}.

Definition demoNamespaces : list Namespace :=
  map (fun n => {| ns_Name := n |})
    ["default"; "team-a"; "team-b"; "kube-system"; "team-c"; "onepanel"; "team-d"].

End NamespaceServer.

(** * Properties *)

(** ** Sanity of the model on the concrete client *)

Example demo_world3_versions :
  map (fun r => (wtv_id r, wtv_workspace_template_id r, wtv_version r, wtv_is_latest r))
      (workspace_template_versions (db Demo.world3))
  = [ (1, 1, 1%Z, true); (2, 2, 1%Z, false); (3, 2, 2%Z, true) ]%N.
Proof. vm_compute. reflexivity. Qed.

Example demo_world4_archived :
  map (fun r => (wt_uid r, wt_is_archived r)) (workspace_templates (db Demo.world4))
  = [ ("base", false); ("ml-1", true) ].
Proof. vm_compute. reflexivity. Qed.

Example replaceAll_scope :
  strings_ReplaceAll "a {{workspace.parameters.x}} b" "{{workspace.parameters."
    "{{workflow.parameters." = "a {{workflow.parameters.x}} b".
Proof. vm_compute. reflexivity. Qed.

(** ** First-occurrence scans *)

Lemma map_get_insert_eq (m : gmap string bool) k : map_get (<[k := true]> m) k = true.
Proof. unfold map_get. by rewrite lookup_insert_eq. Qed.

Lemma map_get_insert_ne (m : gmap string bool) k k' :
  k <> k' -> map_get (<[k := true]> m) k' = map_get m k'.
Proof. intros Hne. unfold map_get. by rewrite lookup_insert_ne. Qed.

Lemma map_get_empty k : map_get ∅ k = false.
Proof. unfold map_get. by rewrite lookup_empty. Qed.

(** The nested loops over containers and mounts are one loop over all mounts. *)
Lemma nested_loop_flat {S} (step : S -> VolumeMount -> S) cs st :
  fold_left (fun st c => fold_left step (c_VolumeMounts c) st) cs st
  = fold_left step (allMounts cs) st.
Proof.
  revert st. induction cs as [|c cs IH]; intros st; simpl; [reflexivity|].
  unfold allMounts in *. simpl. rewrite fold_left_app. apply IH.
Qed.

Lemma firstMounts_sound ex seen vs v :
  In v (firstMounts ex seen vs) ->
  In v vs /\ map_get seen (vm_Name v) = false /\ map_get ex (vm_Name v) = false.
Proof.
  revert seen. induction vs as [|u vs IH]; intros seen; simpl; [tauto|].
  destruct (map_get seen (vm_Name u)) eqn:Hs; simpl.
  - intros H. apply IH in H. tauto.
  - destruct (map_get ex (vm_Name u)) eqn:He; simpl.
    + intros H. apply IH in H. tauto.
    + intros [<- | H]; [tauto|].
      apply IH in H as (Hin & Hseen & Hex).
      split; [tauto|]. split; [|exact Hex].
      destruct (decide (vm_Name u = vm_Name v)) as [Heq|Hne].
      * rewrite Heq, map_get_insert_eq in Hseen. discriminate.
      * by rewrite map_get_insert_ne in Hseen.
Qed.

Lemma firstMounts_complete ex seen vs v :
  In v vs -> map_get seen (vm_Name v) = false -> map_get ex (vm_Name v) = false ->
  exists v', In v' (firstMounts ex seen vs) /\ vm_Name v' = vm_Name v.
Proof.
  revert seen. induction vs as [|u vs IH]; intros seen; simpl; [tauto|].
  intros [-> | Hin] Hseen Hex.
  - rewrite Hseen, Hex. simpl. exists v. auto.
  - destruct (map_get seen (vm_Name u) || map_get ex (vm_Name u)) eqn:Hskip.
    + by apply IH.
    + destruct (decide (vm_Name u = vm_Name v)) as [Heq|Hne].
      * exists u. simpl. auto.
      * destruct (IH (<[vm_Name u := true]> seen) Hin) as (v' & Hv' & Hn); auto.
        { by rewrite map_get_insert_ne. }
        exists v'. simpl. auto.
Qed.

Lemma firstMounts_NoDup ex seen vs : NoDup (map vm_Name (firstMounts ex seen vs)).
Proof.
  revert seen. induction vs as [|u vs IH]; intros seen; simpl; [constructor|].
  destruct (map_get seen (vm_Name u) || map_get ex (vm_Name u)); [apply IH|].
  simpl. constructor; [|apply IH].
  rewrite list_elem_of_In, in_map_iff. intros (v & Hn & Hin).
  apply firstMounts_sound in Hin as (_ & Hseen & _).
  rewrite <- Hn, map_get_insert_eq in Hseen. discriminate.
Qed.

(** The three loops of the compiler in terms of [firstMounts]. *)
Lemma volumeParameters_scan isSet vs ps seen :
  fst (fold_left (volumeParametersStep isSet) vs (ps, seen))
  = ps ++ map volumeSizeParameter (firstMounts isSet seen vs).
Proof.
  revert ps seen. induction vs as [|v vs IH]; intros ps seen; simpl.
  - by rewrite app_nil_r.
  - destruct (map_get seen (vm_Name v) || map_get isSet (vm_Name v)); [apply IH|].
    rewrite IH. simpl. by rewrite <- app_assoc.
Qed.

Lemma mountClaims_scan vs claims seen :
  fst (fold_left mountClaimsStep vs (claims, seen))
  = claims ++ map synthesizedVolumeClaim (firstMounts ∅ seen vs).
Proof.
  revert claims seen. induction vs as [|v vs IH]; intros claims seen; simpl.
  - by rewrite app_nil_r.
  - rewrite map_get_empty, orb_false_r.
    destruct (map_get seen (vm_Name v)); [apply IH|].
    rewrite IH. simpl. by rewrite <- app_assoc.
Qed.

Lemma volumeClaimItems_scan vs items seen :
  fst (fold_left volumeClaimItemsStep vs (items, seen))
  = items ++ map vm_Name (firstMounts ∅ seen vs).
Proof.
  revert items seen. induction vs as [|v vs IH]; intros items seen; simpl.
  - by rewrite app_nil_r.
  - rewrite map_get_empty, orb_false_r.
    destruct (map_get seen (vm_Name v)); [apply IH|].
    rewrite IH. simpl. by rewrite <- app_assoc.
Qed.

Lemma systemVolumeParameters_scan spec :
  systemVolumeParameters spec
  = map volumeSizeParameter
      (firstMounts (storageQuantityIsSet (VolumeClaimTemplates spec)) ∅
         (allMounts (Containers spec))).
Proof.
  unfold systemVolumeParameters, volumeParametersLoop.
  rewrite nested_loop_flat, volumeParameters_scan. reflexivity.
Qed.

Lemma volumeClaimItems_eq spec :
  volumeClaimItems spec = map vm_Name (firstMounts ∅ ∅ (allMounts (Containers spec))).
Proof.
  unfold volumeClaimItems. rewrite nested_loop_flat, volumeClaimItems_scan. reflexivity.
Qed.

(** ** Parameter injection *)

Lemma storageQuantityIsSet_fold vcts m n :
  map_get (fold_left
             (fun m v => match pvc_Requests v with
                         | Some _ => <[pvc_Name v := true]> m
                         | None => m
                         end) vcts m) n = true
  <-> map_get m n = true \/
      exists v, In v vcts /\ pvc_Name v = n /\ pvc_Requests v <> None.
Proof.
  revert m. induction vcts as [|v vcts IH]; intros m; simpl.
  - split; [auto|]. intros [H | (v & [] & _)]. exact H.
  - rewrite IH. split.
    + intros [H | (u & Hu & Hn & Hr)].
      * destruct (pvc_Requests v) eqn:Hv; [|auto].
        destruct (decide (pvc_Name v = n)) as [Heq|Hne].
        -- right. exists v. rewrite Hv. auto.
        -- rewrite map_get_insert_ne in H by done. auto.
      * right. exists u. auto.
    + intros [H | (u & [-> | Hu] & Hn & Hr)].
      * left. destruct (pvc_Requests v); [|done].
        destruct (decide (pvc_Name v = n)) as [->|Hne];
          [apply map_get_insert_eq | by rewrite map_get_insert_ne].
      * left. destruct (pvc_Requests u); [|done]. rewrite Hn. apply map_get_insert_eq.
      * right. exists u. auto.
Qed.

(** A volume name is excluded from size synthesis exactly when a declared
    volume-claim template of that name carries a requests map. *)
Lemma storageQuantityIsSet_spec vcts n :
  map_get (storageQuantityIsSet vcts) n = true
  <-> exists v, In v vcts /\ pvc_Name v = n /\ pvc_Requests v <> None.
Proof.
  unfold storageQuantityIsSet. rewrite storageQuantityIsSet_fold, map_get_empty.
  split; [intros [H | H]; [discriminate | exact H] | auto].
Qed.

(** What [generateArguments] synthesizes, for every spec: one parameter per
    distinct mounted volume name that no declared template gives a requests
    map, built from the first mount of that name.  Reserved names get no special
    treatment here. *)
Lemma systemVolumeParameters_characterised spec :
  exists vs,
    systemVolumeParameters spec = map volumeSizeParameter vs /\
    NoDup (map vm_Name vs) /\
    forall n, In n (map vm_Name vs) <->
              In n (map vm_Name (allMounts (Containers spec))) /\
              ~ exists v, In v (VolumeClaimTemplates spec) /\ pvc_Name v = n /\
                          pvc_Requests v <> None.
Proof.
  set (isSet := storageQuantityIsSet (VolumeClaimTemplates spec)).
  exists (firstMounts isSet ∅ (allMounts (Containers spec))).
  split; [apply systemVolumeParameters_scan|]. split; [apply firstMounts_NoDup|].
  intros n. rewrite <- storageQuantityIsSet_spec. fold isSet. rewrite !in_map_iff. split.
  - intros (v & <- & Hin). apply firstMounts_sound in Hin as (Hin & _ & Hex).
    split; [eauto|]. rewrite Hex. discriminate.
  - intros ((v & <- & Hin) & Hex).
    destruct (firstMounts_complete isSet ∅ _ v Hin) as (v' & Hv' & Hn).
    + apply map_get_empty.
    + destruct (map_get isSet (vm_Name v)); [by destruct Hex|reflexivity].
    + eauto.
Qed.

(** C4.  Volume-size parameter synthesis, evaluated on a spec whose second
    container mounts the shared [data] volume and the reserved
    [sys-namespace-config] volume: [generateArguments] synthesizes a size
    parameter for the reserved name too, although the stateful set never
    claims that volume; only [data] is deduplicated and claimed. *)
Theorem volume_size_parameter_for_reserved_mount :
  map p_Name (systemVolumeParameters Demo.specWithReservedMount)
    = ["sys-data-volume-size"; "sys-sys-namespace-config-volume-size"] /\
  map p_Hint (systemVolumeParameters Demo.specWithReservedMount)
    = [Some "Disk size in MB for volume mounted at `/data`";
       Some "Disk size in MB for volume mounted at `/etc/onepanel`"] /\
  map (fun p => (p_Type p, p_Value p)) (systemVolumeParameters Demo.specWithReservedMount)
    = [("input.number", Some "20480"); ("input.number", Some "20480")] /\
  map vc_Name (statefulSetVolumeClaims Demo.specWithReservedMount) = ["data"] /\
  reservedVolume "sys-namespace-config" = true.
Proof. vm_compute. repeat split; reflexivity. Qed.

(** The order [generateArguments] produces, for every spec and config. *)
Lemma generateArguments_eq spec config runtime :
  generateRuntimeParameters config = inl runtime ->
  generateArguments spec config
  = inl (set_Arguments spec
           (placeholderParameters ++ runtime ++ declaredParameters spec
              ++ systemVolumeParameters spec)).
Proof.
  intros H. unfold generateArguments, declaredParameters. rewrite H.
  by rewrite <- !app_assoc.
Qed.

Lemma generateRuntimeParameters_names config runtime :
  generateRuntimeParameters config = inl runtime ->
  map p_Name runtime = ["sys-host"; "sys-node-pool-label"; "sys-node-pool"] /\
  map p_Type runtime = ["input.hidden"; "input.hidden"; "select.select"].
Proof.
  unfold generateRuntimeParameters.
  destruct (NodePoolOptions config) as [[|o os]|e]; try discriminate.
  intros [= <-]. split; reflexivity.
Qed.

(** C6 (amended).  For every spec and system config with at least one
    node-pool option, [generateArguments] produces: the four placeholders
    (workspace name of type input.text, then the hidden resource-action,
    workspace-action and unique-id), then host, node-pool label key and
    node-pool select, then the user-declared parameters, then the
    synthesized volume-size parameters. *)
Theorem generateArguments_parameter_order spec config runtime :
  generateRuntimeParameters config = inl runtime ->
  generateArguments spec config
    = inl (set_Arguments spec
             (placeholderParameters ++ runtime ++ declaredParameters spec
                ++ systemVolumeParameters spec)) /\
  map (fun p => (p_Name p, p_Type p)) (placeholderParameters ++ runtime)
    = [ ("sys-name", "input.text"); ("sys-resource-action", "input.hidden");
        ("sys-workspace-action", "input.hidden"); ("sys-uid", "input.hidden");
        ("sys-host", "input.hidden"); ("sys-node-pool-label", "input.hidden");
        ("sys-node-pool", "select.select") ].
Proof.
  intros H. split; [by apply generateArguments_eq|].
  unfold generateRuntimeParameters in H.
  destruct (NodePoolOptions config) as [[|o os]|e]; try discriminate.
  injection H as <-. reflexivity.
Qed.

Lemma generateArguments_parameter_order_witness :
  exists runtime,
    generateRuntimeParameters Demo.config = inl runtime /\
    option_map (map p_Name)
      (match generateArguments Demo.spec Demo.config with
       | inl s => Arguments_ s
       | inr _ => None
       end)
    = Some [ "sys-name"; "sys-resource-action"; "sys-workspace-action"; "sys-uid";
             "sys-host"; "sys-node-pool-label"; "sys-node-pool";
             "user-param"; "sys-data-volume-size" ].
Proof.
  eexists. split; [reflexivity|].
  rewrite (proj1 (generateArguments_parameter_order Demo.spec Demo.config _ eq_refl)).
  vm_compute. reflexivity.
Defined.

(** C6 (as stated) fails: on the concrete spec and config the produced
    sequence starts with the placeholders and ends with the volume sizes,
    not host, label, pool, placeholders, volume sizes, declared. *)
Lemma announced_parameter_order_fails :
  ~ follows_announced_order Demo.spec Demo.config.
Proof.
  intros H. specialize (H _ _ eq_refl eq_refl). vm_compute in H. discriminate.
Qed.

(** C8.  For every spec, when the system config exposes zero node-pool
    options, compilation fails with the error [no node pool options in
    config], raised by parameter injection: the pipeline has entered the
    config, parse and argument stages only, none of the four document
    assemblers. *)
Theorem empty_node_pools_fail_before_assembly {Ext} (c : Client Ext) (o : Orchestrator Ext)
    (t : WorkspaceTemplate) (config : SystemConfig) (spec : WorkspaceSpec) :
  Manifest t <> EmptyString ->
  GetSystemConfig c o = inl config ->
  parseWorkspaceSpec (client_lib c) (Manifest t) = inl spec ->
  NodePoolOptions config = inl [] ->
  generateArguments spec config = inr (Errorf "no node pool options in config") /\
  generateWorkspaceTemplateWorkflowTemplate c o (Some t)
  = ([StGetSystemConfig; StParseWorkspaceSpec; StGenerateArguments],
     inr (Errorf "no node pool options in config")).
Proof.
  intros Hm Hc Hp Hn.
  assert (Hg : generateArguments spec config = inr (Errorf "no node pool options in config")).
  { unfold generateArguments, generateRuntimeParameters. by rewrite Hn. }
  split; [exact Hg|].
  unfold generateWorkspaceTemplateWorkflowTemplate.
  destruct (String.eqb_spec (Manifest t) EmptyString) as [He|_]; [by destruct Hm|].
  rewrite Hc, Hp. simpl. rewrite Hg. reflexivity.
Qed.

Lemma empty_node_pools_fail_before_assembly_witness :
  generateWorkspaceTemplateWorkflowTemplate Demo.clientWithoutNodePools Demo.orchestrator0
    (Some (Demo.newTemplate "ml-1"))
  = ([StGetSystemConfig; StParseWorkspaceSpec; StGenerateArguments],
     inr (Errorf "no node pool options in config")).
Proof.
  apply (empty_node_pools_fail_before_assembly Demo.clientWithoutNodePools
           Demo.orchestrator0 (Demo.newTemplate "ml-1") Demo.configWithoutNodePools Demo.spec).
  - discriminate.
  - reflexivity.
  - reflexivity.
  - reflexivity.
Defined.

(** ** Task graph *)

(** The fan-out task and its neighbours in every compiled definition: the
    fan-out ranges over [volumeClaimItems], depends on [delete-workspace],
    and the terminated phase-set task depends on it. *)
Lemma delete_pvc_task lib spec sm vsm ssm wm d :
  workflowTemplateSpec lib spec sm vsm ssm wm = inl d ->
  findTask "delete-pvc" (entryTasks d)
    = Some (mkTask "delete-pvc" "delete-pvc-resource" ["delete-workspace"]
              [("sys-pvc-name", "{{item}}")] when_delete (volumeClaimItems spec)) /\
  findTask "sys-set-phase-terminated" (entryTasks d)
    = Some (mkTask "sys-set-phase-terminated" "sys-update-status" ["delete-pvc"]
              [("sys-workspace-phase", WorkspaceTerminated)] when_delete []).
Proof.
  unfold workflowTemplateSpec.
  destruct (json_Marshal lib _) as [statusBytes|e]; [|discriminate].
  destruct (getCURLNodeTemplate lib _ _ _ _ _) as [curl|e]; [|discriminate].
  intros [= <-]. unfold entryTasks. simpl.
  destruct (PostExecution spec) as [post|]; simpl; split; reflexivity.
Qed.

Lemma volumeClaimItems_NoDup spec : NoDup (volumeClaimItems spec).
Proof. rewrite volumeClaimItems_eq. apply firstMounts_NoDup. Qed.

Lemma volumeClaimItems_In spec n :
  In n (volumeClaimItems spec) <-> In n (map vm_Name (allMounts (Containers spec))).
Proof.
  rewrite volumeClaimItems_eq, !in_map_iff. split.
  - intros (v & <- & Hin). apply firstMounts_sound in Hin. exists v. tauto.
  - intros (v & <- & Hin).
    destruct (firstMounts_complete ∅ ∅ _ v Hin) as (v' & Hv' & Hn);
      try apply map_get_empty.
    eauto.
Qed.

(** By the time the graph is compiled every container mounts [sys-dshm]
    (appended by [createStatefulSetManifest]), so the fan-out of every spec
    with at least one container has an item for it. *)
Lemma createVirtualServiceManifest_Containers lib spec :
  Containers (snd (createVirtualServiceManifest lib spec)) = Containers spec.
Proof.
  unfold createVirtualServiceManifest. by destruct (rewriteRoutes (Routes spec)).
Qed.

Lemma shared_memory_item lib spec config services spec' :
  Containers spec <> [] ->
  specAtGraphCompilation lib spec config services = inl spec' ->
  In "sys-dshm" (volumeClaimItems spec').
Proof.
  intros Hne. unfold specAtGraphCompilation.
  destruct (generateArguments spec config) as [s|e] eqn:Hg; [|discriminate].
  intros [= <-]. apply volumeClaimItems_In.
  unfold createStatefulSetManifest. cbn [snd set_Containers Containers].
  rewrite createVirtualServiceManifest_Containers.
  unfold generateArguments in Hg.
  destruct (generateRuntimeParameters config); [|discriminate].
  injection Hg as <-. simpl.
  destruct (Containers spec) as [|c cs]; [by destruct Hne|].
  unfold allMounts. simpl. rewrite map_app, in_app_iff. left.
  rewrite map_app, in_app_iff. right. simpl. auto.
Qed.

Lemma declaredClaims_seen vcts claims seen n :
  map_get (snd (fold_left declaredClaimsStep vcts (claims, seen))) n = true
  <-> map_get seen n = true \/ In n (map pvc_Name vcts).
Proof.
  revert claims seen. induction vcts as [|v vcts IH]; intros claims seen; simpl.
  - tauto.
  - destruct (map_get seen (pvc_Name v)) eqn:Hs; rewrite IH.
    + split; [tauto|]. intros [H | [<- | H]]; auto.
    + destruct (decide (pvc_Name v = n)) as [<-|Hne].
      * rewrite map_get_insert_eq. tauto.
      * rewrite map_get_insert_ne by done. tauto.
Qed.

Lemma declaredClaims_names vcts claims seen n :
  In n (map vc_Name (fst (fold_left declaredClaimsStep vcts (claims, seen))))
  -> In n (map vc_Name claims) \/ In n (map pvc_Name vcts).
Proof.
  revert claims seen. induction vcts as [|v vcts IH]; intros claims seen; simpl; [auto|].
  destruct (map_get seen (pvc_Name v)); intros H; apply IH in H.
  - tauto.
  - rewrite map_app, in_app_iff in H. simpl in H. tauto.
Qed.

(** No claim is ever synthesized for a reserved volume: the stateful set
    claims one only if the user declared a template of that name. *)
Lemma reserved_volume_not_claimed spec n :
  reservedVolume n = true ->
  In n (map vc_Name (statefulSetVolumeClaims spec)) ->
  In n (map pvc_Name (VolumeClaimTemplates spec)).
Proof.
  intros Hr. unfold statefulSetVolumeClaims.
  destruct (fold_left declaredClaimsStep (VolumeClaimTemplates spec) ([], ∅))
    as [claims seen] eqn:Hd.
  simpl. rewrite nested_loop_flat, mountClaims_scan, map_app, in_app_iff.
  intros [H | H].
  - change claims with (fst (claims, seen)) in H. rewrite <- Hd in H.
    apply declaredClaims_names in H as [[] | H]. exact H.
  - rewrite map_map, in_map_iff in H. destruct H as (v & Hn & Hin). simpl in Hn.
    apply firstMounts_sound in Hin as (_ & Hseen & _). rewrite Hn in Hseen.
    unfold reservedVolume in Hr. apply orb_prop in Hr as [Hr | Hr];
      apply String.eqb_eq in Hr; subst n.
    + rewrite map_get_insert_ne, map_get_insert_eq in Hseen by discriminate. discriminate.
    + rewrite map_get_insert_eq in Hseen. discriminate.
Qed.

(** C5.  Delete-claim fan-out, evaluated on a spec with one container
    mounting one volume [data]: the compiled graph's [delete-pvc] task
    depends on [delete-workspace] and [sys-set-phase-terminated] depends on
    it, but it fans out over [data] and [sys-dshm] while the stateful set
    claims [data] only. *)
Theorem delete_pvc_fan_out_has_unclaimed_item :
  exists d,
    compiledDefinition Demo.lib Demo.spec Demo.config [] "document" "document" "document"
      "document" = inl d /\
    option_map (fun t => (t_Dependencies t, t_When t, t_WithItems t))
      (findTask "delete-pvc" (entryTasks d))
      = Some (["delete-workspace"], when_delete, ["data"; "sys-dshm"]) /\
    option_map t_Dependencies (findTask "sys-set-phase-terminated" (entryTasks d))
      = Some ["delete-pvc"] /\
    option_map (map vc_Name)
      (match compiledVolumeClaims Demo.spec Demo.config with
       | inl l => Some l
       | inr _ => None
       end) = Some ["data"].
Proof. eexists. vm_compute. repeat split; reflexivity. Qed.

(** ** Reads *)

(** Every row of the result set of [GetWorkspaceTemplate] comes from a
    joined quadruple satisfying the [WHERE] clause. *)
Lemma versionRows_In {Ext} (w : World Ext) namespace uid version t :
  In t (versionRows w namespace uid version) ->
  exists wt wtv wft wftv,
    In wt (workspace_templates (db w)) /\
    In wtv (workspace_template_versions (db w)) /\
    In wft (workflow_templates (orch w)) /\
    In wftv (workflow_template_versions (orch w)) /\
    wtv_workspace_template_id wtv = wt_id wt /\
    versionMatches namespace uid version wt wtv wft wftv = true /\
    t = scanVersion wt wtv wft wftv.
Proof.
  unfold versionRows. rewrite in_flat_map. intros (wt & Hwt & H).
  rewrite in_flat_map in H. destruct H as (wtv & Hwtv & H).
  destruct (N.eqb_spec (wtv_workspace_template_id wtv) (wt_id wt)) as [Hid|_]; [|destruct H].
  rewrite in_flat_map in H. destruct H as (wft & Hwft & H).
  destruct (wft_id wft =? wt_workflow_template_id wt)%N; [|destruct H].
  rewrite in_flat_map in H. destruct H as (wftv & Hwftv & H).
  destruct (wftv_workflow_template_id wftv =? wft_id wft)%N; simpl in H; [|destruct H].
  destruct (versionMatches namespace uid version wt wtv wft wftv) eqn:Hm; [|destruct H].
  destruct H as [<-|[]]. exists wt, wtv, wft, wftv. auto 10.
Qed.

Lemma versionMatches_true namespace uid version wt wtv wft wftv :
  versionMatches namespace uid version wt wtv wft wftv = true ->
  wt_uid wt = uid /\ wt_namespace wt = namespace /\ wt_is_archived wt = false /\
  (if (version =? 0)%Z then wtv_is_latest wtv = true else wtv_version wtv = version).
Proof.
  unfold versionMatches. rewrite !andb_true_iff, negb_true_iff, !String.eqb_eq.
  intros (((Hu & Hn) & Ha) & Hv). repeat split; auto.
  destruct (version =? 0)%Z.
  - apply andb_true_iff in Hv. tauto.
  - apply andb_true_iff in Hv as [Hv _]. by apply Z.eqb_eq.
Qed.

(** No joined row exists for a template all of whose rows are archived. *)
Lemma versionRows_archived {Ext} (w : World Ext) namespace uid version :
  (forall wt, In wt (workspace_templates (db w)) ->
              wt_uid wt = uid -> wt_namespace wt = namespace -> wt_is_archived wt = true) ->
  versionRows w namespace uid version = [].
Proof.
  intros Harch. destruct (versionRows w namespace uid version) as [|t l] eqn:Hrows; [done|].
  assert (Hin : In t (versionRows w namespace uid version)) by (rewrite Hrows; left; done).
  apply versionRows_In in Hin as (wt & wtv & wft & wftv & Hwt & _ & _ & _ & _ & Hm & _).
  apply versionMatches_true in Hm as (Hu & Hn & Ha & _).
  rewrite (Harch wt Hwt Hu Hn) in Ha. discriminate.
Qed.

(** A template returned without error is a scanned row of the result set,
    up to its workflow template. *)
Lemma GetWorkspaceTemplate_found {Ext} (c : Client Ext) fault w namespace uid version t :
  GetWorkspaceTemplate c fault w namespace uid version = (Some t, None) ->
  exists t0 wf, In t0 (versionRows w namespace uid version) /\
                t = set_WorkflowTemplate t0 wf.
Proof.
  unfold GetWorkspaceTemplate, dbGet.
  destruct fault as [e|].
  - destruct e; discriminate.
  - destruct (versionRows w namespace uid version) as [|t0 l]; [discriminate|].
    destruct (GetSystemConfig c (orch w)); [|discriminate].
    destruct (InjectRuntimeParameters c _ _) as [wf|]; [|discriminate].
    intros [= <-]. exists t0, wf. simpl. auto.
Qed.

Lemma GetWorkspaceTemplate_not_archived {Ext} (c : Client Ext) fault w namespace uid version
    t err :
  GetWorkspaceTemplate c fault w namespace uid version = (Some t, err) ->
  IsArchived t = false.
Proof.
  unfold GetWorkspaceTemplate, dbGet.
  destruct fault as [e|].
  - destruct e; intros [= <- <-]; reflexivity.
  - destruct (versionRows w namespace uid version) as [|t0 l] eqn:Hrows; [discriminate|].
    assert (Hin : In t0 (versionRows w namespace uid version)) by (rewrite Hrows; left; done).
    apply versionRows_In in Hin as (wt & wtv & wft & wftv & _ & _ & _ & _ & _ & Hm & ->).
    apply versionMatches_true in Hm as (_ & _ & Ha & _).
    destruct (GetSystemConfig c (orch w)); [|discriminate].
    destruct (InjectRuntimeParameters c _ _) as [wf|]; [|discriminate].
    intros [= <- <-]. exact Ha.
Qed.

Lemma GetWorkspaceTemplate_no_rows {Ext} (c : Client Ext) fault w namespace uid version :
  fault = None -> versionRows w namespace uid version = [] ->
  GetWorkspaceTemplate c fault w namespace uid version = (None, None).
Proof. intros -> Hrows. unfold GetWorkspaceTemplate, dbGet. by rewrite Hrows. Qed.

(** C10.  For every namespace, uid and version: when the query runs and no
    row matches, [GetWorkspaceTemplate] returns a nil template with a nil
    error; this is in particular the case, for any requested version, when
    the template is archived; and a template it does return comes from a
    row whose [is_archived] is false, of the requested uid, namespace and
    version. *)
Theorem GetWorkspaceTemplate_nil_when_absent_or_archived {Ext} (c : Client Ext)
    (fault : option error) (w : World Ext) (namespace uid : string) (version : Z) :
  (fault = None -> versionRows w namespace uid version = [] ->
   GetWorkspaceTemplate c fault w namespace uid version = (None, None)) /\
  (fault = None ->
   (forall wt, In wt (workspace_templates (db w)) ->
               wt_uid wt = uid -> wt_namespace wt = namespace -> wt_is_archived wt = true) ->
   GetWorkspaceTemplate c fault w namespace uid version = (None, None)) /\
  (forall t err,
     GetWorkspaceTemplate c fault w namespace uid version = (Some t, err) ->
     IsArchived t = false /\
     (err = None ->
      exists wt wtv,
        In wt (workspace_templates (db w)) /\ In wtv (workspace_template_versions (db w)) /\
        wt_is_archived wt = false /\ wt_uid wt = uid /\ wt_namespace wt = namespace /\
        wtv_workspace_template_id wtv = wt_id wt /\
        (if (version =? 0)%Z then wtv_is_latest wtv = true else wtv_version wtv = version) /\
        ID t = wt_id wt /\ WorkspaceTemplateVersionID t = wtv_id wtv)).
Proof.
  split; [apply GetWorkspaceTemplate_no_rows|]. split.
  - intros Hf Harch. apply GetWorkspaceTemplate_no_rows; [exact Hf|].
    by apply versionRows_archived.
  - intros t err Hget. split; [by eapply GetWorkspaceTemplate_not_archived|].
    intros ->. apply GetWorkspaceTemplate_found in Hget as (t0 & wf & Hin & ->).
    apply versionRows_In in Hin as (wt & wtv & wft & wftv & Hwt & Hwtv & _ & _ & Hid & Hm & ->).
    apply versionMatches_true in Hm as (Hu & Hn & Ha & Hv).
    exists wt, wtv. simpl. auto 10.
Qed.

(** Boolean form of: every row of [uid] in [namespace] is archived. *)
Lemma archived_of_forallb rows namespace uid :
  forallb (fun r => negb (String.eqb (wt_uid r) uid && String.eqb (wt_namespace r) namespace)
                    || wt_is_archived r) rows = true ->
  forall wt, In wt rows -> wt_uid wt = uid -> wt_namespace wt = namespace ->
             wt_is_archived wt = true.
Proof.
  intros H wt Hin Hu Hn. rewrite forallb_forall in H. specialize (H wt Hin).
  rewrite Hu, Hn, !String.eqb_refl in H. exact H.
Qed.

Lemma GetWorkspaceTemplate_nil_when_absent_or_archived_witness :
  GetWorkspaceTemplate Demo.client None Demo.world4 "ns" "ml-1" 1 = (None, None) /\
  GetWorkspaceTemplate Demo.client None Demo.world4 "ns" "ml-1" 0 = (None, None) /\
  GetWorkspaceTemplate Demo.client None Demo.world3 "ns" "no-such-template" 0 = (None, None) /\
  exists t, GetWorkspaceTemplate Demo.client None Demo.world3 "ns" "ml-1" 1 = (Some t, None) /\
            IsArchived t = false.
Proof.
  assert (Harch : forall wt, In wt (workspace_templates (db Demo.world4)) ->
                             wt_uid wt = "ml-1" -> wt_namespace wt = "ns" ->
                             wt_is_archived wt = true).
  { apply archived_of_forallb. vm_compute. reflexivity. }
  split; [|split; [|split]].
  - apply (proj1 (proj2 (GetWorkspaceTemplate_nil_when_absent_or_archived Demo.client None
                           Demo.world4 "ns" "ml-1" 1))); [reflexivity | exact Harch].
  - apply (proj1 (proj2 (GetWorkspaceTemplate_nil_when_absent_or_archived Demo.client None
                           Demo.world4 "ns" "ml-1" 0))); [reflexivity | exact Harch].
  - apply (proj1 (GetWorkspaceTemplate_nil_when_absent_or_archived Demo.client None
                    Demo.world3 "ns" "no-such-template" 0));
      [reflexivity | vm_compute; reflexivity].
  - eexists. split; [vm_compute; reflexivity|].
    eapply (proj2 (proj2 (GetWorkspaceTemplate_nil_when_absent_or_archived Demo.client None
                            Demo.world3 "ns" "ml-1" 1))).
    vm_compute. reflexivity.
Defined.

(** ** Archive *)

Lemma archived_rows namespace uid rows r :
  In r (map (fun r => if archivable namespace uid r then archiveRow r else r) rows) ->
  wt_uid r = uid -> wt_namespace r = namespace -> wt_is_archived r = true.
Proof.
  rewrite in_map_iff. intros (r0 & <- & _).
  destruct (archivable namespace uid r0) eqn:Ha; [reflexivity|].
  simpl. intros Hu Hn. unfold archivable in Ha.
  rewrite <- Hu, <- Hn, !String.eqb_refl in Ha. simpl in Ha.
  by destruct (wt_is_archived r0).
Qed.

Lemma archivable_after namespace uid rows :
  List.filter (archivable namespace uid)
    (map (fun r => if archivable namespace uid r then archiveRow r else r) rows) = [].
Proof.
  induction rows as [|r rows IH]; simpl; [reflexivity|].
  destruct (archivable namespace uid r) eqn:Ha.
  - unfold archivable at 1. simpl. rewrite andb_false_r. exact IH.
  - rewrite Ha. exact IH.
Qed.

Lemma archive_rows_twice namespace uid rows :
  map (fun r => if archivable namespace uid r then archiveRow r else r)
    (map (fun r => if archivable namespace uid r then archiveRow r else r) rows)
  = map (fun r => if archivable namespace uid r then archiveRow r else r) rows.
Proof.
  rewrite map_map. apply map_ext. intros r.
  destruct (archivable namespace uid r) eqn:Ha; [|by rewrite Ha].
  unfold archivable at 1. simpl. by rewrite andb_false_r.
Qed.

Lemma filter_nonempty_iff {A} (p : A -> bool) l :
  Nat.eqb (length (List.filter p l)) 0 = false <-> exists x, In x l /\ p x = true.
Proof.
  induction l as [|a l IH]; simpl.
  - split; [discriminate | intros (x & [] & _)].
  - destruct (p a) eqn:Hp; simpl.
    + split; [eauto | reflexivity].
    + rewrite IH. split.
      * intros (x & Hin & Hx). eauto.
      * intros (x & [-> | Hin] & Hx); [congruence | eauto].
Qed.

(** The statement behind the archive is idempotent: it reports [true]
    exactly when some active row matched, and running it again reports
    [false] without error and changes nothing. *)
Lemma archiveWorkspaceTemplateDB_idempotent d namespace uid :
  let r := archiveWorkspaceTemplateDB None None d namespace uid in
  snd (fst r) = None /\
  (fst (fst r) = true <->
   exists wt, In wt (workspace_templates d) /\ archivable namespace uid wt = true) /\
  archiveWorkspaceTemplateDB None None (snd r) namespace uid = ((false, None), snd r).
Proof.
  unfold archiveWorkspaceTemplateDB. simpl.
  rewrite <- filter_nonempty_iff.
  destruct (Nat.eqb (length (List.filter (archivable namespace uid) (workspace_templates d))) 0);
    simpl; rewrite archivable_after, archive_rows_twice; simpl; repeat split; congruence.
Qed.

(** C2 (amended).  For every namespace and uid: on a template all of whose
    rows are archived (or that does not exist) [ArchiveWorkspaceTemplate]
    returns [false] with the error [not found] and leaves the store
    untouched; it never returns [false] without an error; when it returns
    [true] the template row was active before and is archived afterwards.
    Only the statement behind it, [archiveWorkspaceTemplateDB], reports a
    repeated archival as a no-op without error. *)
Theorem ArchiveWorkspaceTemplate_outcomes {Ext} (c : Client Ext) (f : ArchiveFaults)
    (w : World Ext) (namespace uid : string) :
  (af_get f = None ->
   (forall wt, In wt (workspace_templates (db w)) ->
               wt_uid wt = uid -> wt_namespace wt = namespace -> wt_is_archived wt = true) ->
   ArchiveWorkspaceTemplate c f w namespace uid = ((false, Some (Errorf "not found")), w)) /\
  (forall archived err w',
     ArchiveWorkspaceTemplate c f w namespace uid = ((archived, err), w') ->
     (archived = true /\ err = None) \/ (archived = false /\ err <> None)) /\
  (forall w',
     ArchiveWorkspaceTemplate c f w namespace uid = ((true, None), w') ->
     (exists wt, In wt (workspace_templates (db w)) /\ wt_uid wt = uid /\
                 wt_namespace wt = namespace /\ wt_is_archived wt = false) /\
     (forall wt, In wt (workspace_templates (db w')) ->
                 wt_uid wt = uid -> wt_namespace wt = namespace -> wt_is_archived wt = true)) /\
  (forall d,
     archiveWorkspaceTemplateDB None None
       (snd (archiveWorkspaceTemplateDB None None d namespace uid)) namespace uid
     = ((false, None), snd (archiveWorkspaceTemplateDB None None d namespace uid))).
Proof.
  split; [|split; [|split]].
  - intros Hf Harch. unfold ArchiveWorkspaceTemplate.
    rewrite (GetWorkspaceTemplate_no_rows c (af_get f) w namespace uid 0 Hf
               (versionRows_archived w namespace uid 0 Harch)).
    reflexivity.
  - intros archived err w'. unfold ArchiveWorkspaceTemplate.
    destruct (GetWorkspaceTemplate c (af_get f) w namespace uid 0) as [[wsTemp|] [e|]];
      try (intros [= <- <- <-]; right; split; [reflexivity | discriminate]).
    destruct (ListWorkspacesByTemplateID c namespace _ (orch w)) as [wsList|e];
      [|intros [= <- <- <-]; right; split; [reflexivity | discriminate]].
    destruct (archiveWorkspaces c namespace wsList (orch w)) as [[e|] o];
      [intros [= <- <- <-]; right; split; [reflexivity | discriminate]|].
    destruct (archiveWorkspaceTemplateDB _ _ _ _ _) as [[b [e|]] d];
      [intros [= <- <- <-]; right; split; [reflexivity | discriminate]|].
    destruct (ArchiveWorkflowTemplate c namespace _ _) as [[b' [e|]] o'];
      intros [= <- <- <-]; [right; split; [reflexivity | discriminate] | left; auto].
  - intros w'. unfold ArchiveWorkspaceTemplate.
    destruct (GetWorkspaceTemplate c (af_get f) w namespace uid 0) as [[wsTemp|] [e|]] eqn:Hget;
      try discriminate.
    apply GetWorkspaceTemplate_found in Hget as (t0 & wf & Hin & ->).
    apply versionRows_In in Hin as (wt & wtv & wft & wftv & Hwt & _ & _ & _ & _ & Hm & ->).
    apply versionMatches_true in Hm as (Hu & Hn & Ha & _). simpl.
    destruct (ListWorkspacesByTemplateID c namespace _ (orch w)) as [wsList|e]; [|discriminate].
    destruct (archiveWorkspaces c namespace wsList (orch w)) as [[e|] o]; [discriminate|].
    unfold archiveWorkspaceTemplateDB. simpl.
    destruct (af_exec f); [discriminate|].
    destruct (af_rowsAffected f); [discriminate|].
    destruct (Nat.eqb _ 0); simpl;
      (destruct (ArchiveWorkflowTemplate c namespace _ _) as [[b' [e|]] o']; [discriminate|]);
      intros [= <-]; simpl; rewrite Hu; (split; [eauto 6 | apply archived_rows]).
  - intros d. apply (archiveWorkspaceTemplateDB_idempotent d namespace uid).
Qed.

Example demo_archive_run :
  ArchiveWorkspaceTemplate Demo.client noArchiveFaults Demo.world3 "ns" "ml-1"
  = ((true, None), Demo.world4).
Proof. vm_compute. reflexivity. Qed.

Lemma ArchiveWorkspaceTemplate_outcomes_witness :
  ArchiveWorkspaceTemplate Demo.client noArchiveFaults Demo.world4 "ns" "ml-1"
    = ((false, Some (Errorf "not found")), Demo.world4) /\
  (forall wt, In wt (workspace_templates (db Demo.world4)) ->
              wt_uid wt = "ml-1" -> wt_namespace wt = "ns" -> wt_is_archived wt = true).
Proof.
  pose proof (ArchiveWorkspaceTemplate_outcomes Demo.client noArchiveFaults Demo.world3
                "ns" "ml-1") as (_ & _ & Htrue & _).
  destruct (Htrue Demo.world4 demo_archive_run) as (_ & Harch).
  split; [|exact Harch].
  apply (proj1 (ArchiveWorkspaceTemplate_outcomes Demo.client noArchiveFaults Demo.world4
                  "ns" "ml-1")); [reflexivity | exact Harch].
Defined.

Example demo_archive_again :
  fst (ArchiveWorkspaceTemplate Demo.client noArchiveFaults Demo.world4 "ns" "ml-1")
  = (false, Some (Errorf "not found")).
Proof. vm_compute. reflexivity. Qed.

(** C2 (as stated) fails: archiving the already archived template [ml-1]
    is reported as an error, not as a no-op. *)
Lemma archive_of_archived_template_errors :
  ~ archive_is_idempotent_at Demo.client Demo.world4 "ns" "ml-1".
Proof.
  intros H.
  assert (Hex : exists r, In r (workspace_templates (db Demo.world4)) /\ wt_uid r = "ml-1" /\
                          wt_namespace r = "ns" /\ wt_is_archived r = true).
  { eexists. split; [vm_compute; right; left; reflexivity|]. repeat split. }
  specialize (H Hex). rewrite demo_archive_again in H. discriminate H.
Qed.

(** ** Create path: duplicate names *)

Lemma getWorkspaceTemplateByName_active fault d namespace name t :
  getWorkspaceTemplateByName fault d namespace name = (Some t, None) ->
  IsArchived t = false /\ Name t = name /\ Namespace t = namespace.
Proof.
  unfold getWorkspaceTemplateByName, dbGet.
  destruct fault as [e|]; [destruct e; discriminate|].
  destruct (byNameRows d namespace name) as [|r rows] eqn:Hrows; [discriminate|].
  intros [= <-].
  assert (Hin : In r (byNameRows d namespace name)) by (rewrite Hrows; left; done).
  unfold byNameRows in Hin. apply filter_In in Hin as [_ Hp].
  rewrite !andb_true_iff, negb_true_iff, !String.eqb_eq in Hp. simpl. tauto.
Qed.

(** The first half of C3 holds for every client and store: an active
    template of the same name in the namespace makes creation fail with
    [AlreadyExists] and the message for an existing template. *)
Lemma CreateWorkspaceTemplate_duplicate {Ext} (c : Client Ext) f (w : World Ext) namespace t :
  ValidateStruct c t = None ->
  cf_getByName f = None ->
  (exists r, In r (workspace_templates (db w)) /\ wt_namespace r = namespace /\
             wt_name r = Name t /\ wt_is_archived r = false) ->
  CreateWorkspaceTemplate c f w namespace t
  = (inr (UserError AlreadyExists
            ("Workspace template with the name '" +:+ Name t +:+ "' already exists")), w).
Proof.
  intros Hv Hf (r & Hin & Hn & Hname & Ha).
  unfold CreateWorkspaceTemplate. rewrite Hv, Hf. simpl.
  destruct (getWorkspaceTemplateByName None (db w) namespace (Name t))
    as [[existing|] [e|]] eqn:Hget.
  - unfold getWorkspaceTemplateByName, dbGet in Hget.
    destruct (byNameRows _ _ _); discriminate.
  - apply getWorkspaceTemplateByName_active in Hget as (Harch & _). by rewrite Harch.
  - unfold getWorkspaceTemplateByName, dbGet in Hget.
    destruct (byNameRows _ _ _); discriminate.
  - unfold getWorkspaceTemplateByName, dbGet in Hget.
    destruct (byNameRows (db w) namespace (Name t)) as [|r0 rows] eqn:Hrows; [|discriminate].
    assert (Hr : In r (byNameRows (db w) namespace (Name t))).
    { unfold byNameRows. apply filter_In. split; [exact Hin|].
      rewrite Hn, Hname, Ha, !String.eqb_refl. reflexivity. }
    rewrite Hrows in Hr. destruct Hr.
Qed.

(** C3.  Duplicate-name rejection, evaluated where only an archived
    template named [ml-1] exists in the namespace: the lookup behind the
    check filters archived rows out, so the check finds nothing and the
    message for an archived template is never produced; with an active
    [ml-1] the creation fails with [AlreadyExists] and the message for an
    existing template. *)
Theorem archived_duplicate_name_is_not_reported :
  (exists r, In r (workspace_templates (db Demo.world4)) /\ wt_namespace r = "ns" /\
             wt_name r = "ml-1" /\ wt_is_archived r = true) /\
  getWorkspaceTemplateByName None (db Demo.world4) "ns" "ml-1" = (None, None) /\
  fst (CreateWorkspaceTemplate Demo.client noCreateFaults Demo.world4 "ns"
         (Demo.newTemplate "ml-1"))
    <> inr (UserError AlreadyExists
              "An archived workspace template with the name 'ml-1' already exists") /\
  is_ok (fst (CreateWorkspaceTemplate Demo.client noCreateFaults Demo.world4 "ns"
                (Demo.newTemplate "ml-1"))) = true /\
  fst (CreateWorkspaceTemplate Demo.client noCreateFaults Demo.world3 "ns"
         (Demo.newTemplate "ml-1"))
    = inr (UserError AlreadyExists "Workspace template with the name 'ml-1' already exists").
Proof.
  split; [|split; [|split; [|split]]].
  - eexists. split; [vm_compute; right; left; reflexivity|]. repeat split.
  - vm_compute. reflexivity.
  - vm_compute. discriminate.
  - vm_compute. reflexivity.
  - vm_compute. reflexivity.
Qed.

(** ** Create path: compensation *)

Lemma error_Is_refl e : error_Is e e.
Proof. destruct e; simpl; left; reflexivity. Qed.

Lemma append_empty_r s : s +:+ EmptyString = s.
Proof.
  induction s as [|a s IH]; [reflexivity|].
  change (String a (s +:+ EmptyString) = String a s). by rewrite IH.
Qed.

Lemma append_assoc' a b d : (a +:+ b) +:+ d = a +:+ (b +:+ d).
Proof.
  induction a as [|x a IH]; [reflexivity|].
  change (String x ((a +:+ b) +:+ d) = String x (a +:+ (b +:+ d))). by rewrite IH.
Qed.

Lemma occurs_in_tail pre needle : occurs_in needle (pre +:+ needle).
Proof. exists pre, EmptyString. by rewrite append_empty_r. Qed.

Lemma occurs_in_tail2 a b needle : occurs_in needle (a +:+ b +:+ needle).
Proof. exists (a +:+ b), EmptyString. by rewrite append_empty_r, append_assoc'. Qed.

Lemma error_Is_trans a b d : error_Is a b -> error_Is b d -> error_Is a d.
Proof.
  induction a as [| | |inner IH msg|]; intros Hab Hbd;
    (destruct Hab as [-> | H]; [exact Hbd | try (by destruct H)]).
  right. by apply IH.
Qed.

Lemma occurs_in_trans a b d : occurs_in a b -> occurs_in b d -> occurs_in a d.
Proof.
  intros (p1 & q1 & ->) (p2 & q2 & ->). exists (p2 +:+ p1), (q1 +:+ q2).
  by rewrite !append_assoc'.
Qed.

Lemma occurs_in_head needle post : occurs_in needle (needle +:+ post).
Proof. by exists EmptyString, post. Qed.

Lemma chainedWithCleanUp_Is original cleanup :
  error_Is (chainedWithCleanUp original cleanup) original.
Proof. destruct cleanup; simpl; [right|]; apply error_Is_refl. Qed.

Lemma chainedWithCleanUp_text original ce :
  Error (chainedWithCleanUp original (Some ce)) = Error original +:+ "; " +:+ Error ce.
Proof. reflexivity. Qed.


(** A failing [Begin] is outside the three steps above: the function returns
    the driver's error at once and the registered definition stays. *)
Lemma begin_failure_is_not_compensated {Ext} (c : Client Ext) (f : CreateFaults)
    (w : World Ext) (namespace : string) (t : WorkspaceTemplate) (uid : string)
    (wf0 wf : WorkflowTemplate) (o1 : Orchestrator Ext) (original : error) :
  GenerateUID c (Name t) = inl uid ->
  WorkflowTemplate_ t = Some wf0 ->
  validateWorkflowTemplate c namespace (systemWorkflowTemplate c uid wf0) (orch w) = None ->
  createWorkflowTemplate c namespace (systemWorkflowTemplate c uid wf0) (orch w)
    = (inl wf, o1) ->
  cf_begin f = Some original ->
  createWorkspaceTemplate c f w namespace t = (inr original, {| db := db w; orch := o1 |}).
Proof.
  intros Huid Hwf Hval Hreg Hbegin. unfold createWorkspaceTemplate.
  rewrite Huid. simpl. rewrite Hwf, Hval, Hreg, Hbegin. reflexivity.
Qed.

Lemma demo_wrapper_annotates : annotatesWithoutSuppressing Demo.clientFailingCleanUp.
Proof.
  intros err msg. simpl. split; [right; apply error_Is_refl|].
  split; [apply occurs_in_head | apply occurs_in_tail].
Qed.


(** ** Shapes of the committed store *)

Lemma createWorkspaceTemplate_cases {Ext} (c : Client Ext) f (w : World Ext) namespace t r w' :
  createWorkspaceTemplate c f w namespace t = (r, w') ->
  (is_ok r = false /\ db w' = db w) \/
  (exists t1 wfid,
     IsLatest t1 = true /\
     db w' = createdDB (db w) namespace t1 wfid /\
     r = inl (set_ID (set_CreatedAt (set_ID t1 (next_workspace_template_id (db w)))
                        (db_now (db w)))
                (next_workspace_template_version_id (db w)))).
Proof.
  unfold createWorkspaceTemplate.
  destruct (GenerateUID c (Name t)) as [uid|e]; [|intros [= <- <-]; left; auto].
  destruct (WorkflowTemplate_ (set_UID t uid)) as [wf0|]; [|intros [= <- <-]; left; auto].
  destruct (validateWorkflowTemplate c namespace _ (orch w)); [intros [= <- <-]; left; auto|].
  destruct (createWorkflowTemplate c namespace _ (orch w)) as [[wf|e] o];
    [|intros [= <- <-]; left; auto].
  destruct (cf_begin f); [intros [= <- <-]; left; auto|].
  unfold insertWorkspaceTemplateDB, createWorkspaceTemplateVersionDB, createdDB,
    insertWorkspaceTemplateDB, createWorkspaceTemplateVersionDB.
  destruct (cf_insertTemplate f).
  { simpl. destruct (ArchiveWorkflowTemplate c namespace _ _) as [[b ce] o2].
    intros [= <- <-]. left. auto. }
  destruct (cf_insertVersion f).
  { simpl. destruct (ArchiveWorkflowTemplate c namespace _ _) as [[b [ce|]] o2];
      intros [= <- <-]; left; auto. }
  destruct (cf_commit f).
  { simpl. destruct (ArchiveWorkflowTemplate c namespace _ _) as [[b ce] o2].
    intros [= <- <-]. left. auto. }
  simpl. intros [= <- <-]. right.
  exists (set_IsLatest
            (set_Version (set_WorkflowTemplate (set_UID t uid) (Some wf)) (wf_Version wf))
            true), (wf_ID wf).
  split; [reflexivity|]. split; reflexivity.
Qed.

Lemma CreateWorkspaceTemplate_cases {Ext} (c : Client Ext) f (w : World Ext) namespace t r w' :
  CreateWorkspaceTemplate c f w namespace t = (r, w') ->
  (is_ok r = false /\ db w' = db w) \/
  (exists t1 wfid,
     IsLatest t1 = true /\
     db w' = createdDB (db w) namespace t1 wfid /\
     r = inl (set_ID (set_CreatedAt (set_ID t1 (next_workspace_template_id (db w)))
                        (db_now (db w)))
                (next_workspace_template_version_id (db w)))).
Proof.
  unfold CreateWorkspaceTemplate.
  destruct (ValidateStruct c t); [intros [= <- <-]; left; auto|].
  destruct (getWorkspaceTemplateByName _ _ _ _) as [[existing|] [e|]];
    try (intros [= <- <-]; left; auto; fail).
  destruct (snd (generateWorkspaceTemplateWorkflowTemplate c (orch w) _)) as [wf|e];
    [|intros [= <- <-]; left; auto].
  destruct (createWorkspaceTemplate c f w namespace _) as [[t'|e] w1] eqn:Hc;
    intros [= <- <-]; apply createWorkspaceTemplate_cases in Hc as [[Hr Hd] | H].
  - discriminate.
  - right. exact H.
  - left. auto.
  - destruct H as (t1 & wfid & _ & _ & [=]).
Qed.

(** What a committed update transaction did to the store. *)
Lemma updateTransaction_ok f d t t' d' :
  updateTransaction f d t = inl (t', d') ->
  (1 <= ID t)%N /\
  t' = set_ID (set_IsLatest t true) (next_workspace_template_version_id d) /\
  workspace_template_versions d'
  = map (fun r => if (wtv_workspace_template_id r =? ID t)%N && wtv_is_latest r
                  then outdate r else r)
        (workspace_template_versions d)
    ++ [versionRowOf d (set_IsLatest t true)] /\
  next_workspace_template_id d' = next_workspace_template_id d /\
  map wt_id (workspace_templates d') = map wt_id (workspace_templates d).
Proof.
  unfold updateTransaction, createLatestWorkspaceTemplateVersionDB,
    markWorkspaceTemplateVersionsOutdatedDB, createWorkspaceTemplateVersionDB,
    updateWorkspaceTemplateDB.
  destruct (uf_begin f); [discriminate|].
  destruct (N.ltb_spec (ID t) 1) as [Hlt|Hge]; [discriminate|].
  destruct (uf_markOutdated f); [discriminate|].
  destruct (uf_insertVersion f); [discriminate|]. simpl.
  destruct (uf_updateTemplate f); [discriminate|].
  destruct (uf_commit f); [discriminate|].
  intros [= <- <-]. simpl. repeat split; [exact Hge|].
  rewrite map_map. apply map_ext. intros r. by destruct (_ && _).
Qed.

Lemma UpdateWorkspaceTemplate_cases {Ext} (c : Client Ext) f (w : World Ext) namespace t r w' :
  UpdateWorkspaceTemplate c f w namespace t = (r, w') ->
  (is_ok r = false /\ db w' = db w) \/
  (exists t0 t' wt,
     In wt (workspace_templates (db w)) /\ wt_uid wt = UID t /\ wt_is_archived wt = false /\
     ID t0 = wt_id wt /\
     updateTransaction f (db w) t0 = inl (t', db w') /\ r = inl t').
Proof.
  unfold UpdateWorkspaceTemplate.
  destruct (GetWorkspaceTemplate c (uf_get f) w namespace (UID t) (Version t))
    as [[existing|] [e|]] eqn:Hget; try (intros [= <- <-]; left; auto; fail).
  apply GetWorkspaceTemplate_found in Hget as (x & wf' & Hin & ->).
  apply versionRows_In in Hin as (wt & wtv & wft & wftv & Hwt & _ & _ & _ & _ & Hm & ->).
  apply versionMatches_true in Hm as (Hu & _ & Ha & _).
  destruct (snd (generateWorkspaceTemplateWorkflowTemplate c (orch w) _)) as [uwf|e];
    [|intros [= <- <-]; left; auto].
  simpl. destruct wf' as [ewf|]; [|intros [= <- <-]; left; auto].
  destruct (CreateWorkflowTemplateVersion c namespace _ (orch w)) as [[wfv|e] o];
    [|intros [= <- <-]; left; auto].
  simpl. destruct (updateTransaction f (db w) _) as [[t' tx]|e] eqn:Htx;
    intros [= <- <-]; [right | left; auto].
  eexists _, t', wt. split; [exact Hwt|]. split; [exact Hu|]. split; [exact Ha|].
  split; [|split; [exact Htx | reflexivity]]. reflexivity.
Qed.

Lemma ArchiveWorkspaceTemplate_db {Ext} (c : Client Ext) f (w : World Ext) namespace uid :
  let w' := snd (ArchiveWorkspaceTemplate c f w namespace uid) in
  workspace_template_versions (db w') = workspace_template_versions (db w) /\
  next_workspace_template_id (db w') = next_workspace_template_id (db w) /\
  map wt_id (workspace_templates (db w')) = map wt_id (workspace_templates (db w)).
Proof.
  assert (Hids : forall ns u rows,
             map wt_id (map (fun r => if archivable ns u r then archiveRow r else r) rows)
             = map wt_id rows).
  { intros ns u rows. rewrite map_map. apply map_ext. intros r. by destruct (archivable _ _ _). }
  unfold ArchiveWorkspaceTemplate.
  destruct (GetWorkspaceTemplate c (af_get f) w namespace uid 0) as [[wsTemp|] [e|]];
    simpl; auto.
  destruct (ListWorkspacesByTemplateID c namespace _ (orch w)); simpl; auto.
  destruct (archiveWorkspaces c namespace _ (orch w)) as [[e|] o]; simpl; auto.
  unfold archiveWorkspaceTemplateDB.
  destruct (af_exec f); simpl; auto.
  destruct (af_rowsAffected f); simpl; auto.
  destruct (Nat.eqb _ 0); simpl;
    destruct (ArchiveWorkflowTemplate c namespace _ _) as [[b [e|]] o']; simpl; auto.
Qed.

(** ** The single-latest invariant *)

Lemma filter_none {A} (p : A -> bool) l :
  (forall x, In x l -> p x = false) -> List.filter p l = [].
Proof.
  induction l as [|a l IH]; simpl; intros H; [reflexivity|].
  rewrite (H a) by auto. apply IH. auto.
Qed.

Lemma filter_map_length {A} (p : A -> bool) (g : A -> A) l :
  (forall x, p (g x) = p x) ->
  length (List.filter p (map g l)) = length (List.filter p l).
Proof.
  intros H. induction l as [|a l IH]; simpl; [reflexivity|].
  rewrite H. destruct (p a); simpl; auto.
Qed.

Lemma latestCount_snoc d d' row tid :
  workspace_template_versions d' = workspace_template_versions d ++ [row] ->
  latestCount d' tid
  = latestCount d tid
    + (if (wtv_workspace_template_id row =? tid)%N && wtv_is_latest row then 1 else 0).
Proof.
  intros H. unfold latestCount. rewrite H, List.filter_app, List.length_app. simpl.
  by destruct (_ && _).
Qed.

Lemma created_preserves d namespace t wfid :
  ids_issued d -> single_latest d ->
  single_latest (createdDB d namespace t wfid) /\ ids_issued (createdDB d namespace t wfid).
Proof.
  intros [Hwt Hwtv] Hone. split.
  - intros tid.
    rewrite (latestCount_snoc d _ (versionRowOf d (set_ID t (next_workspace_template_id d))))
      by reflexivity.
    simpl. destruct (N.eqb_spec (next_workspace_template_id d) tid) as [<-|Hne]; simpl.
    + unfold latestCount. rewrite filter_none; [destruct (IsLatest t); simpl; lia|].
      intros r Hr. apply Hwtv in Hr.
      destruct (N.eqb_spec (wtv_workspace_template_id r) (next_workspace_template_id d));
        [lia | reflexivity].
    + specialize (Hone tid). lia.
  - split; simpl.
    + intros r Hr. apply in_app_iff in Hr as [Hr | [<- | []]]; [apply Hwt in Hr|simpl]; lia.
    + intros r Hr. apply in_app_iff in Hr as [Hr | [<- | []]]; [apply Hwtv in Hr|simpl]; lia.
Qed.

Lemma ids_issued_frame d d' :
  workspace_template_versions d' = workspace_template_versions d ->
  next_workspace_template_id d' = next_workspace_template_id d ->
  map wt_id (workspace_templates d') = map wt_id (workspace_templates d) ->
  ids_issued d -> ids_issued d'.
Proof.
  intros Hv Hn Hids [Hwt Hwtv]. split.
  - intros r Hr. apply (in_map wt_id) in Hr. rewrite Hids, in_map_iff in Hr.
    destruct Hr as (r0 & Heq & Hr0). rewrite Hn, <- Heq. by apply Hwt.
  - intros r Hr. rewrite Hv in Hr. rewrite Hn. by apply Hwtv.
Qed.

Lemma updated_preserves f d t t' d' :
  updateTransaction f d t = inl (t', d') ->
  (ID t < next_workspace_template_id d)%N ->
  ids_issued d -> single_latest d ->
  single_latest d' /\ ids_issued d' /\ latestCount d' (ID t) = 1.
Proof.
  intros Htx Hlt [Hwt Hwtv] Hone.
  apply updateTransaction_ok in Htx as (_ & _ & Hv & Hn & Hids).
  set (mark := fun r => if (wtv_workspace_template_id r =? ID t)%N && wtv_is_latest r
                        then outdate r else r) in Hv.
  assert (Hcount : forall tid,
             latestCount d' tid
             = (if (ID t =? tid)%N then 1 else latestCount d tid)).
  { intros tid. unfold latestCount. rewrite Hv, List.filter_app, List.length_app. simpl.
    destruct (N.eqb_spec (ID t) tid) as [<-|Hne]; simpl.
    - rewrite filter_none; [reflexivity|].
      intros r Hr. apply in_map_iff in Hr as (r0 & <- & _). unfold mark.
      destruct (N.eqb_spec (wtv_workspace_template_id r0) (ID t)) as [He|Hne]; simpl.
      + destruct (wtv_is_latest r0) eqn:Hl; simpl; [by rewrite andb_false_r|].
        by rewrite Hl, andb_false_r.
      + by destruct (N.eqb_spec (wtv_workspace_template_id r0) (ID t)).
    - rewrite filter_map_length; [lia|].
      intros r. unfold mark.
      destruct (N.eqb_spec (wtv_workspace_template_id r) (ID t)) as [He|Hne']; simpl;
        [|reflexivity].
      destruct (wtv_is_latest r) eqn:Hl; simpl; [|by rewrite Hl].
      rewrite He. destruct (N.eqb_spec (ID t) tid); [contradiction | reflexivity]. }
  split; [|split].
  - intros tid. rewrite Hcount. destruct (ID t =? tid)%N; [lia | apply Hone].
  - split.
    + intros r Hr. apply (in_map wt_id) in Hr. rewrite Hids, in_map_iff in Hr.
      destruct Hr as (r0 & Heq & Hr0). rewrite Hn, <- Heq. by apply Hwt.
    + intros r Hr. rewrite Hv, in_app_iff in Hr. rewrite Hn.
      destruct Hr as [Hr | [<- | []]]; [|exact Hlt].
      apply in_map_iff in Hr as (r0 & <- & Hr0). apply Hwtv in Hr0.
      unfold mark. by destruct (_ && _).
  - rewrite Hcount. by rewrite N.eqb_refl.
Qed.

Lemma committed_step_preserves {Ext} (c : Client Ext) (w w' : World Ext) :
  committed_step c w w' ->
  single_latest (db w) /\ ids_issued (db w) ->
  single_latest (db w') /\ ids_issued (db w').
Proof.
  intros Hstep [Hone Hids]. destruct Hstep as [f w ns t | f w ns t | f w ns uid | w o].
  - destruct (CreateWorkspaceTemplate c f w ns t) as [r w1] eqn:Hc. simpl.
    apply CreateWorkspaceTemplate_cases in Hc as [[_ ->] | (t1 & wfid & _ & -> & _)];
      [auto | by apply created_preserves].
  - destruct (UpdateWorkspaceTemplate c f w ns t) as [r w1] eqn:Hu. simpl.
    apply UpdateWorkspaceTemplate_cases in Hu
      as [[_ ->] | (t0 & t' & wt & Hwt & _ & _ & Hid & Htx & _)]; [auto|].
    destruct (updated_preserves _ _ _ _ _ Htx) as (H1 & H2 & _); auto.
    rewrite Hid. by apply Hids.
  - pose proof (ArchiveWorkspaceTemplate_db c f w ns uid) as (Hv & Hn & Hi).
    split; [|by eapply ids_issued_frame].
    intros tid. unfold latestCount. rewrite Hv. apply Hone.
  - auto.
Qed.

Lemma reachable_invariants {Ext} (c : Client Ext) (w : World Ext) :
  reachable c w -> single_latest (db w) /\ ids_issued (db w).
Proof.
  induction 1 as [o now | w w' _ IH Hstep].
  - split; [intros tid; unfold latestCount; simpl; lia|].
    split; intros r [].
  - by eapply committed_step_preserves.
Qed.

(** C1.  In every state of the store reached from the empty store by
    committed (or rolled back) create, update and archive operations, each
    template has at most one version row flagged latest.  The update
    transaction, when it commits, has cleared the flag on every prior
    version of the template and then appended the new version row flagged
    latest, which leaves the template with exactly one latest row. *)
Theorem single_latest_invariant {Ext} (c : Client Ext) (w : World Ext) :
  reachable c w ->
  single_latest (db w) /\
  (forall f namespace t t' w',
     UpdateWorkspaceTemplate c f w namespace t = (inl t', w') ->
     exists wt row,
       In wt (workspace_templates (db w)) /\ wt_uid wt = UID t /\
       workspace_template_versions (db w')
       = map (fun r => if (wtv_workspace_template_id r =? wt_id wt)%N && wtv_is_latest r
                       then outdate r else r)
             (workspace_template_versions (db w))
         ++ [row] /\
       wtv_workspace_template_id row = wt_id wt /\ wtv_is_latest row = true /\
       latestCount (db w') (wt_id wt) = 1).
Proof.
  intros Hreach. destruct (reachable_invariants c w Hreach) as [Hone Hids].
  split; [exact Hone|].
  intros f namespace t t' w' Hu.
  apply UpdateWorkspaceTemplate_cases in Hu
    as [[Hr _] | (t0 & t1 & wt & Hwt & Huid & _ & Hid & Htx & _)]; [discriminate|].
  exists wt, (versionRowOf (db w) (set_IsLatest t0 true)).
  destruct (updated_preserves _ _ _ _ _ Htx) as (_ & _ & Hcount); auto.
  { rewrite Hid. by apply Hids. }
  apply updateTransaction_ok in Htx as (_ & _ & Hv & _).
  rewrite <- Hid. auto 10.
Qed.

Lemma single_latest_invariant_witness :
  single_latest (db Demo.world3) /\
  map (fun r => (wtv_workspace_template_id r, wtv_version r, wtv_is_latest r))
      (workspace_template_versions (db Demo.world3))
  = [ (1, 1%Z, true); (2, 1%Z, false); (2, 2%Z, true) ]%N.
Proof.
  split; [|vm_compute; reflexivity].
  apply (single_latest_invariant Demo.client Demo.world3).
  apply reachable_step with (w := Demo.world2); [|apply step_update].
  apply reachable_step with (w := Demo.world1); [|apply step_create].
  apply reachable_step with (w := Demo.world0); [|apply step_create].
  apply (reachable_init Demo.client Demo.orchestrator0 0%N).
Defined.

(** ** Identity of the returned template *)

(** C9.  After a successful [CreateWorkspaceTemplate] or
    [UpdateWorkspaceTemplate] the [ID] of the returned template is the id of
    the version row just inserted (the next value of the version-row
    sequence), not the id of the template row that row refers to. *)
Theorem returned_ID_is_version_row_id {Ext} (c : Client Ext) (w : World Ext)
    (namespace : string) (t : WorkspaceTemplate) :
  (forall f t' w',
     CreateWorkspaceTemplate c f w namespace t = (inl t', w') ->
     exists wtrow row,
       workspace_templates (db w') = workspace_templates (db w) ++ [wtrow] /\
       workspace_template_versions (db w') = workspace_template_versions (db w) ++ [row] /\
       wt_id wtrow = next_workspace_template_id (db w) /\
       wtv_workspace_template_id row = wt_id wtrow /\
       wtv_id row = next_workspace_template_version_id (db w) /\
       ID t' = wtv_id row) /\
  (forall f t' w',
     UpdateWorkspaceTemplate c f w namespace t = (inl t', w') ->
     exists wt row,
       In wt (workspace_templates (db w)) /\ wt_uid wt = UID t /\
       last (workspace_template_versions (db w')) = Some row /\
       In row (workspace_template_versions (db w')) /\
       wtv_workspace_template_id row = wt_id wt /\
       wtv_id row = next_workspace_template_version_id (db w) /\
       ID t' = wtv_id row).
Proof.
  split.
  - intros f t' w' Hc.
    apply CreateWorkspaceTemplate_cases in Hc as [[Hr _] | (t1 & wfid & _ & Hd & Hr)];
      [discriminate|].
    injection Hr as ->. rewrite Hd. unfold createdDB. simpl.
    eexists _, _. split; [reflexivity|]. split; [reflexivity|]. simpl. auto.
  - intros f t' w' Hu.
    apply UpdateWorkspaceTemplate_cases in Hu
      as [[Hr _] | (t0 & t1 & wt & Hwt & Huid & _ & Hid & Htx & Hr)]; [discriminate|].
    injection Hr as <-.
    apply updateTransaction_ok in Htx as (_ & -> & Hv & _).
    exists wt, (versionRowOf (db w) (set_IsLatest t0 true)).
    rewrite Hv, last_snoc, in_app_iff. simpl. auto 10.
Qed.

Example demo_create_third :
  CreateWorkspaceTemplate Demo.client noCreateFaults Demo.world3 "ns" (Demo.newTemplate "third")
  = (inl (fst Demo.thirdCreated), snd Demo.thirdCreated).
Proof. vm_compute. reflexivity. Qed.

Example demo_update_again :
  UpdateWorkspaceTemplate Demo.client noUpdateFaults Demo.world3 "ns" Demo.updateRequest
  = (inl (fst Demo.updatedAgain), snd Demo.updatedAgain).
Proof. vm_compute. reflexivity. Qed.

Example demo_world3_next_template : next_workspace_template_id (db Demo.world3) = 3%N.
Proof. vm_compute. reflexivity. Qed.

Example demo_world3_next_version : next_workspace_template_version_id (db Demo.world3) = 4%N.
Proof. vm_compute. reflexivity. Qed.

Example demo_world3_ml1_id :
  forallb (fun r => negb (String.eqb (wt_uid r) "ml-1") || (wt_id r =? 2)%N)
    (workspace_templates (db Demo.world3)) = true.
Proof. vm_compute. reflexivity. Qed.

Lemma returned_ID_is_version_row_id_witness :
  (exists t' w',
     CreateWorkspaceTemplate Demo.client noCreateFaults Demo.world3 "ns"
       (Demo.newTemplate "third") = (inl t', w') /\
     ID t' = 4%N /\
     exists wtrow, last (workspace_templates (db w')) = Some wtrow /\ wt_id wtrow = 3%N) /\
  (exists t' w',
     UpdateWorkspaceTemplate Demo.client noUpdateFaults Demo.world3 "ns" Demo.updateRequest
       = (inl t', w') /\
     ID t' = 4%N /\
     exists wt, In wt (workspace_templates (db Demo.world3)) /\ wt_uid wt = "ml-1" /\
                wt_id wt = 2%N).
Proof.
  pose proof demo_world3_next_template as Hnext_wt.
  pose proof demo_world3_next_version as Hnext_wtv.
  split.
  - exists (fst Demo.thirdCreated), (snd Demo.thirdCreated).
    split; [exact demo_create_third|].
    destruct (proj1 (returned_ID_is_version_row_id Demo.client Demo.world3 "ns"
                       (Demo.newTemplate "third"))
                noCreateFaults _ _ demo_create_third)
      as (wtrow & row & Hwt & _ & Hwtid & _ & Hrowid & Hid).
    split; [rewrite Hid, Hrowid; exact Hnext_wtv|].
    exists wtrow. rewrite Hwt, last_snoc, Hwtid. split; [reflexivity | exact Hnext_wt].
  - exists (fst Demo.updatedAgain), (snd Demo.updatedAgain).
    split; [exact demo_update_again|].
    destruct (proj2 (returned_ID_is_version_row_id Demo.client Demo.world3 "ns"
                       Demo.updateRequest)
                noUpdateFaults _ _ demo_update_again)
      as (wt & row & Hwt & Huid & _ & _ & _ & Hrowid & Hid).
    split; [rewrite Hid, Hrowid; exact Hnext_wtv|].
    exists wt. split; [exact Hwt|]. split; [exact Huid|].
    pose proof demo_world3_ml1_id as Hall. rewrite forallb_forall in Hall.
    specialize (Hall wt Hwt). rewrite Huid in Hall. simpl in Hall.
    apply N.eqb_eq. exact Hall.
Defined.

(** * Further properties of the version store *)

(** ** What the operations do to the tables *)

Lemma updateTransaction_updatedDB f d t t' d' :
  updateTransaction f d t = inl (t', d') -> d' = updatedDB d t.
Proof.
  unfold updateTransaction, createLatestWorkspaceTemplateVersionDB,
    markWorkspaceTemplateVersionsOutdatedDB, createWorkspaceTemplateVersionDB,
    updateWorkspaceTemplateDB.
  destruct (uf_begin f); [discriminate|].
  destruct (ID t <? 1)%N; [discriminate|].
  destruct (uf_markOutdated f); [discriminate|].
  destruct (uf_insertVersion f); [discriminate|]. simpl.
  destruct (uf_updateTemplate f); [discriminate|].
  destruct (uf_commit f); [discriminate|].
  intros [= <- <-]. reflexivity.
Qed.

Lemma ArchiveWorkspaceTemplate_effect {Ext} (c : Client Ext) f (w : World Ext) namespace uid :
  let w' := snd (ArchiveWorkspaceTemplate c f w namespace uid) in
  db w' = db w \/ db w' = archivedDB (db w) namespace uid.
Proof.
  unfold ArchiveWorkspaceTemplate.
  destruct (GetWorkspaceTemplate c (af_get f) w namespace uid 0) as [[wsTemp|] [e|]] eqn:Hget;
    simpl; auto.
  apply GetWorkspaceTemplate_found in Hget as (t0 & wf & Hin & ->).
  apply versionRows_In in Hin as (wt & wtv & wft & wftv & _ & _ & _ & _ & _ & Hm & ->).
  apply versionMatches_true in Hm as (Hu & _). simpl. rewrite Hu.
  destruct (ListWorkspacesByTemplateID c namespace _ (orch w)); simpl; auto.
  destruct (archiveWorkspaces c namespace _ (orch w)) as [[e|] o]; simpl; auto.
  unfold archiveWorkspaceTemplateDB.
  destruct (af_exec f); simpl; auto.
  destruct (af_rowsAffected f); simpl; auto.
  destruct (Nat.eqb _ 0); simpl;
    destruct (ArchiveWorkflowTemplate c namespace _ _) as [[b [e|]] o']; simpl; auto.
Qed.

Lemma committed_step_effect {Ext} (c : Client Ext) (w w' : World Ext) :
  committed_step c w w' -> db_effect (db w) (db w').
Proof.
  intros Hstep. destruct Hstep as [f w ns t | f w ns t | f w ns uid | w o].
  - destruct (CreateWorkspaceTemplate c f w ns t) as [r w1] eqn:Hc. simpl.
    apply CreateWorkspaceTemplate_cases in Hc as [[_ ->] | (t1 & wfid & Hl & -> & _)].
    + constructor.
    + by constructor.
  - destruct (UpdateWorkspaceTemplate c f w ns t) as [r w1] eqn:Hu. simpl.
    apply UpdateWorkspaceTemplate_cases in Hu
      as [[_ ->] | (t0 & t' & wt & Hwt & _ & _ & Hid & Htx & _)]; [constructor|].
    apply updateTransaction_updatedDB in Htx. rewrite Htx. by econstructor.
  - destruct (ArchiveWorkspaceTemplate_effect c f w ns uid) as [-> | ->]; constructor.
  - constructor.
Qed.

(** ** Identifiers *)

Lemma NoDup_snoc_fresh (l : list N) (x : N) :
  NoDup l -> (forall y, In y l -> (y < x)%N) -> NoDup (l ++ [x]).
Proof.
  intros Hl Hlt. apply NoDup_app. split; [exact Hl|]. split.
  - intros y Hy Hx. apply list_elem_of_In in Hy. apply Hlt in Hy.
    apply list_elem_of_In in Hx. destruct Hx as [<-|[]]. lia.
  - apply NoDup_singleton.
Qed.

Lemma map_wt_id_relabel t rows : map wt_id (map (relabel t) rows) = map wt_id rows.
Proof.
  rewrite map_map. apply map_ext. intros r. unfold relabel. by destruct (_ && _).
Qed.

Lemma map_wt_id_archive namespace uid rows :
  map wt_id (map (fun r => if archivable namespace uid r then archiveRow r else r) rows)
  = map wt_id rows.
Proof. rewrite map_map. apply map_ext. intros r. by destruct (archivable _ _ _). Qed.

Lemma map_wtv_id_mark tid rows :
  map wtv_id (map (fun r => if (wtv_workspace_template_id r =? tid)%N && wtv_is_latest r
                            then outdate r else r) rows)
  = map wtv_id rows.
Proof. rewrite map_map. apply map_ext. intros r. by destruct (_ && _). Qed.

Lemma bounded_via_map {A} (f : A -> N) (l l' : list A) (b : N) :
  map f l' = map f l -> (forall r, In r l -> (f r < b)%N) -> forall r, In r l' -> (f r < b)%N.
Proof.
  intros Hmap Hb r Hr. apply (in_map f) in Hr. rewrite Hmap, in_map_iff in Hr.
  destruct Hr as (r0 & <- & Hr0). by apply Hb.
Qed.

Lemma bounded_in_map {A} (f : A -> N) (l : list A) (b : N) :
  (forall r, In r l -> (f r < b)%N) -> forall y, In y (map f l) -> (y < b)%N.
Proof. intros Hb y Hy. apply in_map_iff in Hy as (r & <- & Hr). by apply Hb. Qed.

Lemma db_effect_ids_unique d d' : db_effect d d' -> ids_unique d -> ids_unique d'.
Proof.
  intros Heff (Hwt & Hwtv & Bwt & Bwtv).
  destruct Heff as [d | d ns t wfid Hl | d t wt Hin Hid | d ns uid]; unfold ids_unique.
  - auto.
  - unfold createdDB. simpl. rewrite !map_app. simpl. repeat split.
    + apply NoDup_snoc_fresh; [exact Hwt | by apply bounded_in_map].
    + apply NoDup_snoc_fresh; [exact Hwtv | by apply bounded_in_map].
    + intros r Hr. apply in_app_iff in Hr as [Hr | [<- | []]]; [apply Bwt in Hr|simpl]; lia.
    + intros r Hr. apply in_app_iff in Hr as [Hr | [<- | []]]; [apply Bwtv in Hr|simpl]; lia.
  - simpl. rewrite map_wt_id_relabel, map_app, map_wtv_id_mark. simpl. repeat split.
    + exact Hwt.
    + apply NoDup_snoc_fresh; [exact Hwtv | by apply bounded_in_map].
    + by apply (bounded_via_map wt_id (workspace_templates d)); [apply map_wt_id_relabel|].
    + intros r Hr. apply in_app_iff in Hr as [Hr | [<- | []]]; [|simpl; lia].
      apply (in_map wtv_id) in Hr. rewrite map_wtv_id_mark in Hr.
      apply (bounded_in_map wtv_id _ _ Bwtv) in Hr. lia.
  - simpl. rewrite map_wt_id_archive. repeat split; auto.
    by apply (bounded_via_map wt_id (workspace_templates d)); [apply map_wt_id_archive|].
Qed.

Lemma reachable_ids_unique {Ext} (c : Client Ext) (w : World Ext) :
  reachable c w -> ids_unique (db w).
Proof.
  induction 1 as [o now | w w' _ IH Hstep].
  - repeat split; simpl; try constructor; intros r [].
  - eapply db_effect_ids_unique; [by eapply committed_step_effect | exact IH].
Qed.

Lemma demo_world3_reachable : reachable Demo.client Demo.world3.
Proof.
  apply reachable_step with (w := Demo.world2); [|apply step_update].
  apply reachable_step with (w := Demo.world1); [|apply step_create].
  apply reachable_step with (w := Demo.world0); [|apply step_create].
  apply (reachable_init Demo.client Demo.orchestrator0 0%N).
Qed.

Lemma demo_world4_reachable : reachable Demo.client Demo.world4.
Proof.
  apply reachable_step with (w := Demo.world3); [apply demo_world3_reachable|].
  apply step_archive.
Qed.

(** ** Versions and their templates *)

Lemma latestCount_updatedDB d t tid :
  latestCount (updatedDB d t) tid = if (ID t =? tid)%N then 1 else latestCount d tid.
Proof.
  unfold latestCount. simpl. rewrite List.filter_app, List.length_app. simpl.
  destruct (N.eqb_spec (ID t) tid) as [<-|Hne]; simpl.
  - rewrite filter_none; [reflexivity|].
    intros r Hr. apply in_map_iff in Hr as (r0 & <- & _).
    destruct (N.eqb_spec (wtv_workspace_template_id r0) (ID t)) as [He|Hne]; simpl.
    + destruct (wtv_is_latest r0) eqn:Hl; simpl; [by rewrite andb_false_r|].
      by rewrite Hl, andb_false_r.
    + by destruct (N.eqb_spec (wtv_workspace_template_id r0) (ID t)).
  - rewrite filter_map_length; [lia|].
    intros r.
    destruct (N.eqb_spec (wtv_workspace_template_id r) (ID t)) as [He|Hne']; simpl;
      [|reflexivity].
    destruct (wtv_is_latest r) eqn:Hl; simpl; [|by rewrite Hl].
    rewrite He. destruct (N.eqb_spec (ID t) tid); [contradiction | reflexivity].
Qed.

Lemma latestCount_fresh d tid :
  (forall r, In r (workspace_template_versions d) -> wtv_workspace_template_id r <> tid) ->
  latestCount d tid = 0.
Proof.
  intros H. unfold latestCount. rewrite filter_none; [reflexivity|].
  intros r Hr. apply H in Hr.
  by destruct (N.eqb_spec (wtv_workspace_template_id r) tid).
Qed.

Lemma db_effect_versions_consistent d d' :
  db_effect d d' -> ids_unique d -> versions_consistent d -> versions_consistent d'.
Proof.
  intros Heff (_ & _ & Bwt & _) (Hfk & Hone).
  destruct Heff as [d | d ns t wfid Hl | d t wt Hin Hid | d ns uid]; [by split| | |].
  - split.
    + unfold createdDB. simpl. intros r Hr.
      apply in_app_iff in Hr as [Hr | [<- | []]].
      * destruct (Hfk r Hr) as (wt & Hwt & Heq). exists wt. rewrite in_app_iff. auto.
      * eexists. rewrite in_app_iff. split; [right; left; reflexivity|]. reflexivity.
    + intros wt Hwt.
      rewrite (latestCount_snoc d _ (versionRowOf d (set_ID t (next_workspace_template_id d))))
        by reflexivity.
      unfold createdDB in Hwt. simpl in Hwt. simpl.
      apply in_app_iff in Hwt as [Hwt | [<- | []]]; simpl.
      * rewrite (Hone wt Hwt). apply Bwt in Hwt.
        destruct (N.eqb_spec (next_workspace_template_id d) (wt_id wt)); [lia | reflexivity].
      * rewrite N.eqb_refl, Hl. simpl. rewrite latestCount_fresh; [reflexivity|].
        intros r Hr. destruct (Hfk r Hr) as (wt & Hwt & <-). apply Bwt in Hwt. lia.
  - split.
    + simpl. intros r Hr. apply in_app_iff in Hr as [Hr | [<- | []]].
      * apply in_map_iff in Hr as (r0 & <- & Hr0).
        destruct (Hfk r0 Hr0) as (wt0 & Hwt0 & Heq).
        exists (relabel t wt0). split; [by apply in_map|].
        unfold relabel. by destruct (_ && _); destruct (_ && _).
      * exists (relabel t wt). split; [by apply in_map|].
        simpl. unfold relabel. by destruct (_ && _).
    + simpl. intros wt' Hwt'. apply in_map_iff in Hwt' as (wt0 & <- & Hwt0).
      rewrite latestCount_updatedDB.
      assert (Hsame : wt_id (relabel t wt0) = wt_id wt0)
        by (unfold relabel; by destruct (_ && _)).
      rewrite Hsame. destruct (ID t =? wt_id wt0)%N; [reflexivity | by apply Hone].
  - split.
    + simpl. intros r Hr. destruct (Hfk r Hr) as (wt & Hwt & Heq).
      exists (if archivable ns uid wt then archiveRow wt else wt).
      split; [by apply (in_map (fun r => if archivable ns uid r then archiveRow r else r))|].
      by destruct (archivable ns uid wt).
    + simpl. intros wt' Hwt'. apply in_map_iff in Hwt' as (wt0 & <- & Hwt0).
      replace (wt_id (if archivable ns uid wt0 then archiveRow wt0 else wt0))
        with (wt_id wt0) by (by destruct (archivable ns uid wt0)).
      by apply Hone.
Qed.

Lemma reachable_versions_consistent {Ext} (c : Client Ext) (w : World Ext) :
  reachable c w -> versions_consistent (db w).
Proof.
  induction 1 as [o now | w w' Hw IH Hstep].
  - split; simpl; intros r [].
  - eapply db_effect_versions_consistent;
      [by eapply committed_step_effect | by eapply reachable_ids_unique | exact IH].
Qed.

(** X2.  In every reachable state of the store each version row belongs to
    an existing template row, and each template row has exactly one version
    row flagged latest (never none). *)
Theorem reachable_exactly_one_latest {Ext} (c : Client Ext) (w : World Ext) :
  reachable c w ->
  (forall r, In r (workspace_template_versions (db w)) ->
             exists wt, In wt (workspace_templates (db w)) /\
                        wt_id wt = wtv_workspace_template_id r) /\
  (forall wt, In wt (workspace_templates (db w)) -> latestCount (db w) (wt_id wt) = 1).
Proof. apply reachable_versions_consistent. Qed.

Lemma reachable_exactly_one_latest_witness :
  map (fun wt => latestCount (db Demo.world3) (wt_id wt)) (workspace_templates (db Demo.world3))
    = [1; 1] /\
  forall wt, In wt (workspace_templates (db Demo.world3)) ->
             latestCount (db Demo.world3) (wt_id wt) = 1.
Proof.
  split; [vm_compute; reflexivity|].
  apply (reachable_exactly_one_latest Demo.client Demo.world3 demo_world3_reachable).
Defined.

(** ** What is never changed *)

Lemma Forall2_map_same {A} (R : A -> A -> Prop) (g : A -> A) l :
  (forall x, R x (g x)) -> Forall2 R l (map g l).
Proof. intros H. induction l; simpl; constructor; auto. Qed.

Lemma Forall2_same {A} (R : A -> A -> Prop) l : (forall x, R x x) -> Forall2 R l l.
Proof. intros H. induction l; constructor; auto. Qed.

Lemma db_effect_versions_kept d d' :
  db_effect d d' ->
  exists kept newer,
    workspace_template_versions d' = kept ++ newer /\
    Forall2 version_kept (workspace_template_versions d) kept /\
    length newer <= 1.
Proof.
  assert (Hrefl : forall r, version_kept r r) by (by split).
  intros Heff. destruct Heff as [d | d ns t wfid Hl | d t wt Hin Hid | d ns uid].
  - exists (workspace_template_versions d), []. rewrite app_nil_r.
    split; [reflexivity|]. split; [by apply Forall2_same | simpl; lia].
  - eexists (workspace_template_versions d), [_]. split; [reflexivity|].
    split; [by apply Forall2_same | simpl; lia].
  - eexists _, [_]. split; [reflexivity|]. split; [|simpl; lia].
    apply Forall2_map_same. intros r. unfold version_kept.
    destruct (_ && _); [|by split]. split; [reflexivity | discriminate].
  - exists (workspace_template_versions d), []. rewrite app_nil_r.
    split; [reflexivity|]. split; [by apply Forall2_same | simpl; lia].
Qed.

Lemma db_effect_templates_kept d d' :
  db_effect d d' ->
  exists kept newer,
    workspace_templates d' = kept ++ newer /\
    Forall2 template_kept (workspace_templates d) kept /\
    length newer <= 1 /\
    Forall (fun r => wt_is_archived r = false) newer.
Proof.
  assert (Hrefl : forall r, template_kept r r) by (by split).
  intros Heff. destruct Heff as [d | d ns t wfid Hl | d t wt Hin Hid | d ns uid].
  - exists (workspace_templates d), []. rewrite app_nil_r.
    split; [reflexivity|]. split; [by apply Forall2_same|]. split; [simpl; lia | constructor].
  - eexists (workspace_templates d), [_]. split; [reflexivity|].
    split; [by apply Forall2_same|]. split; [simpl; lia|].
    constructor; [reflexivity | constructor].
  - eexists _, []. rewrite app_nil_r. split; [reflexivity|].
    split; [|split; [simpl; lia | constructor]].
    apply Forall2_map_same. intros r. unfold template_kept, relabel.
    destruct (_ && _); by split.
  - eexists _, []. rewrite app_nil_r. split; [reflexivity|].
    split; [|split; [simpl; lia | constructor]].
    apply Forall2_map_same. intros r. unfold template_kept.
    destruct (archivable ns uid r); by split.
Qed.

Lemma demo_step_2_3 : committed_step Demo.client Demo.world2 Demo.world3.
Proof. apply step_update. Qed.

Lemma demo_step_3_4 : committed_step Demo.client Demo.world3 Demo.world4.
Proof. apply step_archive. Qed.

(** X3.  No operation of the client deletes, reorders or rewrites a version
    row: after any create, update or archive (committed or failed) the rows
    present before are still there in the same order with the same id,
    version, manifest, labels, template id and creation time; only their
    latest flag may have been cleared (never set), and at most one row
    was appended. *)
Theorem version_rows_are_append_only {Ext} (c : Client Ext) (w w' : World Ext) :
  committed_step c w w' ->
  exists kept newer,
    workspace_template_versions (db w') = kept ++ newer /\
    Forall2 (fun r r' => outdate r' = outdate r /\
                         (wtv_is_latest r' = true -> wtv_is_latest r = true))
            (workspace_template_versions (db w)) kept /\
    length newer <= 1.
Proof. intros Hstep. by apply db_effect_versions_kept, (committed_step_effect c). Qed.

Lemma version_rows_are_append_only_witness :
  exists kept newer,
    workspace_template_versions (db Demo.world3) = kept ++ newer /\
    Forall2 (fun r r' => outdate r' = outdate r /\
                         (wtv_is_latest r' = true -> wtv_is_latest r = true))
            (workspace_template_versions (db Demo.world2)) kept /\
    length newer <= 1.
Proof.
  apply (version_rows_are_append_only Demo.client Demo.world2 Demo.world3 demo_step_2_3).
Defined.

(** X4.  No operation of the client deletes a template row or changes its
    id, uid, name, namespace, workflow-template id or creation time, and an
    archived template stays archived: after any create, update or archive
    the rows present before are still there in the same order with these
    columns unchanged, and at most one row, not archived, was appended. *)
Theorem template_rows_are_kept {Ext} (c : Client Ext) (w w' : World Ext) :
  committed_step c w w' ->
  exists kept newer,
    workspace_templates (db w') = kept ++ newer /\
    Forall2 (fun r r' => templateIdentity r' = templateIdentity r /\
                         (wt_is_archived r = true -> wt_is_archived r' = true))
            (workspace_templates (db w)) kept /\
    length newer <= 1 /\
    Forall (fun r => wt_is_archived r = false) newer.
Proof. intros Hstep. by apply db_effect_templates_kept, (committed_step_effect c). Qed.

Lemma template_rows_are_kept_witness :
  exists kept newer,
    workspace_templates (db Demo.world4) = kept ++ newer /\
    Forall2 (fun r r' => templateIdentity r' = templateIdentity r /\
                         (wt_is_archived r = true -> wt_is_archived r' = true))
            (workspace_templates (db Demo.world3)) kept /\
    length newer <= 1 /\
    Forall (fun r => wt_is_archived r = false) newer.
Proof.
  apply (template_rows_are_kept Demo.client Demo.world3 Demo.world4 demo_step_3_4).
Defined.

(** ** Failure leaves the store alone *)

Example demo_failed_create :
  is_ok (fst (CreateWorkspaceTemplate Demo.clientFailingCleanUp Demo.versionInsertFails
                Demo.world1 "ns" (Demo.newTemplate "ml-1"))) = false.
Proof. vm_compute. reflexivity. Qed.

(** X5.  A create or an update that returns an error has changed neither
    table of the store, whatever step failed and whatever the
    collaborators did: the transaction is all or nothing. *)
Theorem failed_write_leaves_store {Ext} (c : Client Ext) (w : World Ext)
    (namespace : string) (t : WorkspaceTemplate) :
  (forall f, is_ok (fst (CreateWorkspaceTemplate c f w namespace t)) = false ->
             db (snd (CreateWorkspaceTemplate c f w namespace t)) = db w) /\
  (forall f, is_ok (fst (UpdateWorkspaceTemplate c f w namespace t)) = false ->
             db (snd (UpdateWorkspaceTemplate c f w namespace t)) = db w).
Proof.
  split; intros f.
  - destruct (CreateWorkspaceTemplate c f w namespace t) as [r w'] eqn:Hc. simpl.
    apply CreateWorkspaceTemplate_cases in Hc as [[_ Hd] | (t1 & wfid & _ & _ & ->)];
      [auto | discriminate].
  - destruct (UpdateWorkspaceTemplate c f w namespace t) as [r w'] eqn:Hu. simpl.
    apply UpdateWorkspaceTemplate_cases in Hu
      as [[_ Hd] | (t0 & t' & wt & _ & _ & _ & _ & _ & ->)]; [auto | discriminate].
Qed.

Lemma failed_write_leaves_store_witness :
  db (snd (CreateWorkspaceTemplate Demo.clientFailingCleanUp Demo.versionInsertFails
             Demo.world1 "ns" (Demo.newTemplate "ml-1"))) = db Demo.world1.
Proof.
  apply (proj1 (failed_write_leaves_store Demo.clientFailingCleanUp Demo.world1 "ns"
                  (Demo.newTemplate "ml-1"))).
  exact demo_failed_create.
Defined.

(** ** Updating what cannot be found *)

(** X6.  Updating a template that does not exist or whose rows are all
    archived fails with [NotFound] and changes nothing, neither in the
    store nor at the orchestrator. *)
Theorem update_of_archived_is_not_found {Ext} (c : Client Ext) (f : UpdateFaults)
    (w : World Ext) (namespace : string) (t : WorkspaceTemplate) :
  uf_get f = None ->
  (forall wt, In wt (workspace_templates (db w)) ->
              wt_uid wt = UID t -> wt_namespace wt = namespace -> wt_is_archived wt = true) ->
  UpdateWorkspaceTemplate c f w namespace t
  = (inr (UserError NotFound "Workspace template not found."), w).
Proof.
  intros Hf Harch. unfold UpdateWorkspaceTemplate.
  rewrite (GetWorkspaceTemplate_no_rows c (uf_get f) w namespace (UID t) (Version t) Hf
             (versionRows_archived w namespace (UID t) (Version t) Harch)).
  reflexivity.
Qed.

Example demo_world4_ml1_archived :
  forallb (fun r => negb (String.eqb (wt_uid r) "ml-1" && String.eqb (wt_namespace r) "ns")
                    || wt_is_archived r)
    (workspace_templates (db Demo.world4)) = true.
Proof. vm_compute. reflexivity. Qed.

Lemma update_of_archived_is_not_found_witness :
  UpdateWorkspaceTemplate Demo.client noUpdateFaults Demo.world4 "ns" Demo.updateRequest
  = (inr (UserError NotFound "Workspace template not found."), Demo.world4).
Proof.
  apply (update_of_archived_is_not_found Demo.client noUpdateFaults Demo.world4 "ns"
           Demo.updateRequest).
  - reflexivity.
  - apply (archived_of_forallb _ "ns" "ml-1"). exact demo_world4_ml1_archived.
Defined.

(** ** Names of active templates *)

Lemma createWorkspaceTemplate_named {Ext} (c : Client Ext) f (w : World Ext) namespace t r w' :
  createWorkspaceTemplate c f w namespace t = (r, w') ->
  db w' = db w \/
  exists t1 wfid, Name t1 = Name t /\ db w' = createdDB (db w) namespace t1 wfid.
Proof.
  unfold createWorkspaceTemplate.
  destruct (GenerateUID c (Name t)) as [uid|e]; [|intros [= <- <-]; left; auto].
  destruct (WorkflowTemplate_ (set_UID t uid)) as [wf0|]; [|intros [= <- <-]; left; auto].
  destruct (validateWorkflowTemplate c namespace _ (orch w)); [intros [= <- <-]; left; auto|].
  destruct (createWorkflowTemplate c namespace _ (orch w)) as [[wf|e] o];
    [|intros [= <- <-]; left; auto].
  destruct (cf_begin f); [intros [= <- <-]; left; auto|].
  unfold insertWorkspaceTemplateDB, createWorkspaceTemplateVersionDB, createdDB,
    insertWorkspaceTemplateDB, createWorkspaceTemplateVersionDB.
  destruct (cf_insertTemplate f).
  { simpl. destruct (ArchiveWorkflowTemplate c namespace _ _) as [[b ce] o2].
    intros [= <- <-]. left. auto. }
  destruct (cf_insertVersion f).
  { simpl. destruct (ArchiveWorkflowTemplate c namespace _ _) as [[b [ce|]] o2];
      intros [= <- <-]; left; auto. }
  destruct (cf_commit f).
  { simpl. destruct (ArchiveWorkflowTemplate c namespace _ _) as [[b ce] o2].
    intros [= <- <-]. left. auto. }
  simpl. intros [= <- <-]. right.
  exists (set_IsLatest
            (set_Version (set_WorkflowTemplate (set_UID t uid) (Some wf)) (wf_Version wf))
            true), (wf_ID wf).
  split; reflexivity.
Qed.

Lemma CreateWorkspaceTemplate_checked {Ext} (c : Client Ext) f (w : World Ext) namespace t :
  let w' := snd (CreateWorkspaceTemplate c f w namespace t) in
  db w' = db w \/
  (getWorkspaceTemplateByName (cf_getByName f) (db w) namespace (Name t) = (None, None) /\
   exists t1 wfid, Name t1 = Name t /\ db w' = createdDB (db w) namespace t1 wfid).
Proof.
  unfold CreateWorkspaceTemplate.
  destruct (ValidateStruct c t); [left; reflexivity|].
  change (Name (set_Namespace t namespace)) with (Name t).
  destruct (getWorkspaceTemplateByName _ _ _ _) as [[existing|] [e|]] eqn:Hget;
    try (left; reflexivity).
  destruct (snd (generateWorkspaceTemplateWorkflowTemplate c (orch w) _)) as [wf|e];
    [|left; reflexivity].
  destruct (createWorkspaceTemplate c f w namespace _) as [[t'|e] w1] eqn:Hc; simpl;
    apply createWorkspaceTemplate_named in Hc as [Hd | (t1 & wfid & Hn & Hd)]; auto;
    right; (split; [reflexivity|]); exists t1, wfid; auto.
Qed.

Lemma byNameRows_none fault d namespace name :
  fault <> Some ErrNoRows ->
  getWorkspaceTemplateByName fault d namespace name = (None, None) ->
  byNameRows d namespace name = [].
Proof.
  unfold getWorkspaceTemplateByName, dbGet. intros Hf.
  destruct fault as [e|]; [destruct e; try discriminate; by destruct Hf|].
  destruct (byNameRows d namespace name); [reflexivity | discriminate].
Qed.

Lemma filter_map_length_le {A} (p : A -> bool) (g : A -> A) l :
  (forall x, p (g x) = true -> p x = true) ->
  length (List.filter p (map g l)) <= length (List.filter p l).
Proof.
  intros H. induction l as [|a l IH]; simpl; [lia|].
  destruct (p (g a)) eqn:Hg; [rewrite (H a Hg); simpl; lia|].
  destruct (p a); simpl; lia.
Qed.

(** X7.  No two active templates of a namespace get the same name: when the
    names of the active templates are unique, they still are after a create
    (whose name lookup was not answered with a spurious [sql.ErrNoRows]),
    after an update and after an archive. *)
Theorem active_names_stay_unique {Ext} (c : Client Ext) (w : World Ext) :
  active_names_unique (db w) ->
  (forall f namespace t,
     cf_getByName f <> Some ErrNoRows ->
     active_names_unique (db (snd (CreateWorkspaceTemplate c f w namespace t)))) /\
  (forall f namespace t,
     active_names_unique (db (snd (UpdateWorkspaceTemplate c f w namespace t)))) /\
  (forall f namespace uid,
     active_names_unique (db (snd (ArchiveWorkspaceTemplate c f w namespace uid)))).
Proof.
  intros Huniq. split; [|split].
  - intros f namespace t Hf.
    destruct (CreateWorkspaceTemplate_checked c f w namespace t)
      as [-> | (Hget & t1 & wfid & Hn & ->)]; [exact Huniq|].
    apply byNameRows_none in Hget; [|exact Hf].
    intros ns name. unfold byNameRows, createdDB. simpl.
    rewrite List.filter_app, List.length_app. simpl.
    destruct (String.eqb_spec namespace ns) as [<-|Hns]; simpl;
      [|specialize (Huniq ns name); unfold byNameRows in Huniq; lia].
    rewrite Hn.
    destruct (String.eqb_spec (Name t) name) as [<-|Hname]; simpl;
      [|specialize (Huniq namespace name); unfold byNameRows in Huniq; lia].
    unfold byNameRows in Hget. rewrite Hget. simpl. lia.
  - intros f namespace t.
    destruct (UpdateWorkspaceTemplate c f w namespace t) as [r w'] eqn:Hu. simpl.
    apply UpdateWorkspaceTemplate_cases in Hu
      as [[_ ->] | (t0 & t' & wt & _ & _ & _ & _ & Htx & _)]; [exact Huniq|].
    apply updateTransaction_updatedDB in Htx. rewrite Htx.
    intros ns name. unfold byNameRows. simpl.
    rewrite filter_map_length; [apply Huniq|].
    intros row. unfold relabel.
    by destruct (String.eqb (wt_uid row) (UID t0) && String.eqb (wt_namespace row) (Namespace t0)).
  - intros f namespace uid.
    destruct (ArchiveWorkspaceTemplate_effect c f w namespace uid) as [-> | ->];
      [exact Huniq|].
    intros ns name. unfold byNameRows. simpl.
    etransitivity; [apply filter_map_length_le | apply Huniq].
    intros row. destruct (archivable namespace uid row); [simpl|done].
    rewrite andb_false_r. discriminate.
Qed.

Lemma active_names_stay_unique_witness :
  active_names_unique (db Demo.world1).
Proof.
  apply (proj1 (active_names_stay_unique Demo.client Demo.world0
                  (fun namespace name => le_0_n 1))
           noCreateFaults "ns" (Demo.newTemplate "base")).
  discriminate.
Defined.

(** ** Counting *)

(** X8.  [CountWorkspaceTemplates] follows the writes: a successful create
    in a namespace raises that namespace's count by one and no other; an
    update never changes a count; an archive never changes the count of
    another namespace and never raises the count of its own; a failing
    query yields count zero with the error. *)
Theorem count_follows_writes {Ext} (c : Client Ext) (w : World Ext) (namespace : string) :
  (forall f t t' w' ns,
     CreateWorkspaceTemplate c f w namespace t = (inl t', w') ->
     fst (CountWorkspaceTemplates None (db w') ns)
     = (fst (CountWorkspaceTemplates None (db w) ns)
        + if String.eqb namespace ns then 1 else 0)%Z) /\
  (forall f t ns,
     CountWorkspaceTemplates None (db (snd (UpdateWorkspaceTemplate c f w namespace t))) ns
     = CountWorkspaceTemplates None (db w) ns) /\
  (forall f uid ns,
     ns <> namespace ->
     CountWorkspaceTemplates None (db (snd (ArchiveWorkspaceTemplate c f w namespace uid))) ns
     = CountWorkspaceTemplates None (db w) ns) /\
  (forall f uid,
     (fst (CountWorkspaceTemplates None
             (db (snd (ArchiveWorkspaceTemplate c f w namespace uid))) namespace)
      <= fst (CountWorkspaceTemplates None (db w) namespace))%Z) /\
  (forall err d, CountWorkspaceTemplates (Some err) d namespace = (0%Z, Some err)).
Proof.
  split; [|split; [|split; [|split]]].
  - intros f t t' w' ns Hc.
    apply CreateWorkspaceTemplate_cases in Hc as [[Hr _] | (t1 & wfid & _ & -> & _)];
      [discriminate|].
    unfold CountWorkspaceTemplates, createdDB. simpl.
    rewrite List.filter_app, List.length_app. simpl.
    destruct (String.eqb namespace ns); simpl; lia.
  - intros f t ns.
    destruct (UpdateWorkspaceTemplate c f w namespace t) as [r w'] eqn:Hu. simpl.
    apply UpdateWorkspaceTemplate_cases in Hu
      as [[_ ->] | (t0 & t' & wt & _ & _ & _ & _ & Htx & _)]; [reflexivity|].
    apply updateTransaction_updatedDB in Htx. rewrite Htx.
    unfold CountWorkspaceTemplates. simpl. rewrite filter_map_length; [reflexivity|].
    intros row. unfold relabel.
    by destruct (String.eqb (wt_uid row) (UID t0) && String.eqb (wt_namespace row) (Namespace t0)).
  - intros f uid ns Hns.
    destruct (ArchiveWorkspaceTemplate_effect c f w namespace uid) as [-> | ->];
      [reflexivity|].
    unfold CountWorkspaceTemplates. simpl. rewrite filter_map_length; [reflexivity|].
    intros row. destruct (archivable namespace uid row) eqn:Ha; [|reflexivity].
    unfold archivable in Ha. apply andb_prop in Ha as [Ha _].
    apply andb_prop in Ha as [_ Hrow]. apply String.eqb_eq in Hrow. simpl. rewrite Hrow.
    destruct (String.eqb_spec namespace ns); [congruence | reflexivity].
  - intros f uid.
    destruct (ArchiveWorkspaceTemplate_effect c f w namespace uid) as [-> | ->];
      [lia|].
    unfold CountWorkspaceTemplates. simpl. apply Nat2Z.inj_le.
    apply filter_map_length_le.
    intros row. destruct (archivable namespace uid row); [simpl|done].
    rewrite andb_false_r. discriminate.
  - reflexivity.
Qed.

Lemma count_follows_writes_witness :
  fst (CountWorkspaceTemplates None (db (snd Demo.thirdCreated)) "ns")
  = (fst (CountWorkspaceTemplates None (db Demo.world3) "ns") + 1)%Z.
Proof.
  apply (proj1 (count_follows_writes Demo.client Demo.world3 "ns")
           noCreateFaults (Demo.newTemplate "third") (fst Demo.thirdCreated)
           (snd Demo.thirdCreated) "ns").
  exact demo_create_third.
Defined.

(** ** Listing versions *)

Lemma insertByVersion_In t l x : In x (insertByVersion t l) <-> x = t \/ In x l.
Proof.
  induction l as [|u l IH]; simpl; [intuition|].
  destruct (Version u <=? Version t)%Z; simpl; [intuition | rewrite IH; intuition].
Qed.

Lemma orderByVersionDesc_In l x : In x (orderByVersionDesc l) <-> In x l.
Proof.
  induction l as [|t l IH]; simpl; [tauto|].
  rewrite insertByVersion_In, IH. intuition.
Qed.

Lemma insertByVersion_descending t l :
  descending (map Version l) -> descending (map Version (insertByVersion t l)).
Proof.
  induction l as [|u l IH]; simpl; [intros _; split; [constructor | exact I]|].
  intros [Hall Hd]. destruct (Z.leb_spec (Version u) (Version t)) as [Hle|Hgt]; simpl.
  - split; [|split; assumption].
    constructor; [exact Hle|].
    eapply Forall_impl; [exact Hall|]. simpl. intros b Hb. lia.
  - split; [|auto].
    rewrite List.Forall_forall. intros b Hb. apply in_map_iff in Hb as (x & <- & Hx).
    apply insertByVersion_In in Hx as [-> | Hx]; [lia|].
    rewrite List.Forall_forall in Hall. apply Hall. by apply in_map.
Qed.

Lemma orderByVersionDesc_descending l : descending (map Version (orderByVersionDesc l)).
Proof.
  induction l as [|t l IH]; simpl; [exact I | by apply insertByVersion_descending].
Qed.

Lemma distinctOnVersion_In prev l x : In x (distinctOnVersion prev l) -> In x l.
Proof.
  revert prev. induction l as [|t l IH]; intros prev; simpl; [tauto|].
  destruct prev as [v|]; [destruct (Version t =? v)%Z|]; simpl;
    intros H; try destruct H as [-> | H]; eauto.
Qed.

Lemma distinctOnVersion_strict prev l :
  descending (map Version l) ->
  (forall v, prev = Some v -> Forall (fun b => (b <= v)%Z) (map Version l)) ->
  strictlyDescending (map Version (distinctOnVersion prev l)) /\
  (forall v, prev = Some v ->
             Forall (fun b => (b < v)%Z) (map Version (distinctOnVersion prev l))).
Proof.
  revert prev. induction l as [|t l IH]; intros prev; simpl.
  - intros _ _. split; [exact I | intros; constructor].
  - intros [Hall Hd] Hprev.
    assert (Hnext : forall v, Some (Version t) = Some v ->
                              Forall (fun b => (b <= v)%Z) (map Version l))
      by (by intros v [= <-]).
    destruct (IH (Some (Version t)) Hd Hnext) as [Hs Hb].
    destruct prev as [v|].
    + specialize (Hprev v eq_refl). inversion Hprev as [|? ? Htv Hrest]; subst.
      destruct (Z.eqb_spec (Version t) v) as [Heq|Hne].
      * apply IH; [exact Hd|]. by intros v' [= <-].
      * simpl. split; [split; [by apply Hb | exact Hs]|].
        intros v' [= <-]. constructor; [lia|].
        eapply Forall_impl; [by apply Hb|]. simpl. intros b Hlt. lia.
    + simpl. split; [split; [by apply Hb | exact Hs] | discriminate].
Qed.

Lemma distinctOnVersion_complete prev l x :
  In x l -> prev <> Some (Version x) ->
  descending (map Version l) ->
  (forall v, prev = Some v -> Forall (fun b => (b <= v)%Z) (map Version l)) ->
  exists y, In y (distinctOnVersion prev l) /\ Version y = Version x.
Proof.
  revert prev. induction l as [|t l IH]; intros prev; simpl; [tauto|].
  intros Hin Hprev [Hall Hd] Hbound.
  assert (Hnext : forall v, Some (Version t) = Some v ->
                            Forall (fun b => (b <= v)%Z) (map Version l))
    by (by intros v [= <-]).
  assert (Hkeep : exists y, In y (t :: distinctOnVersion (Some (Version t)) l) /\
                            Version y = Version x).
  { destruct Hin as [-> | Hin]; [exists x; simpl; auto|].
    destruct (Z.eq_dec (Version t) (Version x)) as [Heq|Hne]; [exists t; simpl; auto|].
    destruct (IH (Some (Version t)) Hin) as (y & Hy & Hv); auto; [congruence|].
    exists y. simpl. auto. }
  destruct prev as [v|]; [|exact Hkeep].
  destruct (Z.eqb_spec (Version t) v) as [Heq|Hne]; [|exact Hkeep].
  destruct Hin as [-> | Hin]; [congruence|].
  apply IH; auto.
  intros v' [= <-]. specialize (Hbound v eq_refl). by inversion Hbound.
Qed.

Lemma versionListRows_In {Ext} (w : World Ext) namespace uid t :
  In t (versionListRows w namespace uid) ->
  exists wt wtv wft wftv,
    In wt (workspace_templates (db w)) /\
    In wtv (workspace_template_versions (db w)) /\
    In wft (workflow_templates (orch w)) /\
    wtv_workspace_template_id wtv = wt_id wt /\
    versionListed namespace uid wt wft = true /\
    t = scanVersion wt wtv wft wftv.
Proof.
  unfold versionListRows. rewrite in_flat_map. intros (wt & Hwt & H).
  rewrite in_flat_map in H. destruct H as (wtv & Hwtv & H).
  destruct (N.eqb_spec (wtv_workspace_template_id wtv) (wt_id wt)) as [Hid|_]; [|destruct H].
  rewrite in_flat_map in H. destruct H as (wft & Hwft & H).
  destruct (wft_id wft =? wt_workflow_template_id wt)%N; [|destruct H].
  rewrite in_flat_map in H. destruct H as (wftv & Hwftv & H).
  destruct (wftv_workflow_template_id wftv =? wft_id wft)%N; simpl in H; [|destruct H].
  destruct (versionListed namespace uid wt wft) eqn:Hm; [|destruct H].
  destruct H as [<-|[]]. exists wt, wtv, wft, wftv. auto 10.
Qed.

(** X9.  [ListWorkspaceTemplateVersions] returns the versions of a template
    latest first and each version number once: the version numbers of the
    result are strictly descending; every returned entry comes from an
    active template row of the requested uid and namespace whose workflow
    template is not archived; and every version number found by the join
    is returned.  A failing query returns no entry and the error. *)
Theorem ListWorkspaceTemplateVersions_ordered {Ext} (w : World Ext) (namespace uid : string) :
  let listed := fst (ListWorkspaceTemplateVersions None w namespace uid) in
  strictlyDescending (map Version listed) /\
  (forall t, In t listed ->
     exists wt wtv wft,
       In wt (workspace_templates (db w)) /\ In wtv (workspace_template_versions (db w)) /\
       In wft (workflow_templates (orch w)) /\
       wtv_workspace_template_id wtv = wt_id wt /\
       wt_uid wt = uid /\ wt_namespace wt = namespace /\
       wt_is_archived wt = false /\ wft_is_archived wft = false /\
       Version t = wtv_version wtv /\ Manifest t = wtv_manifest wtv /\ ID t = wt_id wt) /\
  (forall t, In t (versionListRows w namespace uid) ->
     exists t', In t' listed /\ Version t' = Version t) /\
  (forall err, ListWorkspaceTemplateVersions (Some err) w namespace uid = ([], Some err)).
Proof.
  simpl. pose proof (orderByVersionDesc_descending (versionListRows w namespace uid)) as Hd.
  split; [|split; [|split]].
  - apply (distinctOnVersion_strict None); [exact Hd | discriminate].
  - intros t Ht. apply distinctOnVersion_In in Ht.
    apply (proj1 (orderByVersionDesc_In _ _)) in Ht.
    apply versionListRows_In in Ht
      as (wt & wtv & wft & wftv & Hwt & Hwtv & Hwft & Hid & Hm & ->).
    unfold versionListed in Hm.
    apply andb_prop in Hm as [Hm Hwfta]. apply andb_prop in Hm as [Hm Hwta].
    apply andb_prop in Hm as [Hu Hn].
    apply String.eqb_eq in Hu. apply String.eqb_eq in Hn.
    apply negb_true_iff in Hwfta. apply negb_true_iff in Hwta.
    exists wt, wtv, wft. simpl. auto 12.
  - intros t Ht. apply (distinctOnVersion_complete None);
      [by apply orderByVersionDesc_In | discriminate | exact Hd | discriminate].
  - reflexivity.
Qed.

Example demo_list_versions :
  map (fun t => (Version t, WorkspaceTemplateVersionID t))
    (fst (ListWorkspaceTemplateVersions None Demo.world3 "ns" "ml-1"))
  = [ (2%Z, 3%N); (1%Z, 2%N) ].
Proof. vm_compute. reflexivity. Qed.

Lemma ListWorkspaceTemplateVersions_ordered_witness :
  strictlyDescending
    (map Version (fst (ListWorkspaceTemplateVersions None Demo.world3 "ns" "ml-1"))).
Proof. apply (proj1 (ListWorkspaceTemplateVersions_ordered Demo.world3 "ns" "ml-1")). Defined.

(** ** Archive: what a failure leaves behind *)

Lemma archiveWorkspaces_app {Ext} (c : Client Ext) namespace before after (o : Orchestrator Ext) :
  archiveWorkspaces c namespace (before ++ after) o
  = match archiveWorkspaces c namespace before o with
    | (Some err, o') => (Some err, o')
    | (None, o') => archiveWorkspaces c namespace after o'
    end.
Proof.
  revert o. induction before as [|ws before IH]; intros o; simpl; [reflexivity|].
  destruct (ArchiveWorkspace c namespace (ws_UID ws) o) as [[e|] o']; [reflexivity | apply IH].
Qed.

Lemma GetWorkspaceTemplate_uid {Ext} (c : Client Ext) fault w namespace uid version t :
  GetWorkspaceTemplate c fault w namespace uid version = (Some t, None) -> UID t = uid.
Proof.
  intros Hget. apply GetWorkspaceTemplate_found in Hget as (t0 & wf & Hin & ->).
  apply versionRows_In in Hin as (wt & wtv & wft & wftv & _ & _ & _ & _ & _ & Hm & ->).
  apply versionMatches_true in Hm as (Hu & _). exact Hu.
Qed.

(** X10.  When one live instance of the template cannot be archived,
    [ArchiveWorkspaceTemplate] stops there: it reports [false] with the
    [Unknown] error, the instances after the failing one are not touched,
    the orchestrator-side definition is not archived and the store is
    unchanged, so the template itself is still active. *)
Theorem instance_failure_aborts_archive {Ext} (c : Client Ext) (f : ArchiveFaults)
    (w : World Ext) (namespace uid : string) (wsTemp : WorkspaceTemplate)
    (before after : list Workspace) (ws : Workspace) (o1 o2 : Orchestrator Ext)
    (err : error) :
  GetWorkspaceTemplate c (af_get f) w namespace uid 0 = (Some wsTemp, None) ->
  ListWorkspacesByTemplateID c namespace (WorkspaceTemplateVersionID wsTemp) (orch w)
    = inl (before ++ ws :: after) ->
  archiveWorkspaces c namespace before (orch w) = (None, o1) ->
  ArchiveWorkspace c namespace (ws_UID ws) o1 = (Some err, o2) ->
  ArchiveWorkspaceTemplate c f w namespace uid
  = ((false, Some (UserError Unknown "Unable to archive workspace template.")),
     {| db := db w; orch := o2 |}).
Proof.
  intros Hget Hlist Hbefore Hws. unfold ArchiveWorkspaceTemplate.
  rewrite Hget, Hlist, archiveWorkspaces_app, Hbefore. simpl. rewrite Hws. reflexivity.
Qed.

Example demo_instances_get :
  GetWorkspaceTemplate DemoInstances.clientFailingInstance (af_get noArchiveFaults) Demo.world3 "ns" "ml-1" 0
  = (Some DemoInstances.ml1Latest, None).
Proof. vm_compute. reflexivity. Qed.

Example demo_instances_list :
  ListWorkspacesByTemplateID DemoInstances.clientFailingInstance "ns"
    (WorkspaceTemplateVersionID DemoInstances.ml1Latest) (orch Demo.world3)
  = inl ([ {| ws_UID := "ws-a" |} ] ++ {| ws_UID := "ws-b" |} :: [ {| ws_UID := "ws-c" |} ]).
Proof. vm_compute. reflexivity. Qed.

Example demo_instances_before :
  archiveWorkspaces DemoInstances.clientFailingInstance "ns" [ {| ws_UID := "ws-a" |} ] (orch Demo.world3)
  = (None, orch Demo.world3).
Proof. vm_compute. reflexivity. Qed.

Example demo_instances_failing :
  ArchiveWorkspace DemoInstances.clientFailingInstance "ns" (ws_UID {| ws_UID := "ws-b" |}) (orch Demo.world3)
  = (Some (Errorf "workspace is busy"), orch Demo.world3).
Proof. vm_compute. reflexivity. Qed.

Lemma instance_failure_aborts_archive_witness :
  ArchiveWorkspaceTemplate DemoInstances.clientFailingInstance noArchiveFaults Demo.world3 "ns" "ml-1"
  = ((false, Some (UserError Unknown "Unable to archive workspace template.")),
     {| db := db Demo.world3; orch := orch Demo.world3 |}).
Proof.
  exact (instance_failure_aborts_archive DemoInstances.clientFailingInstance noArchiveFaults Demo.world3
           "ns" "ml-1" DemoInstances.ml1Latest
           [ {| ws_UID := "ws-a" |} ] [ {| ws_UID := "ws-c" |} ] {| ws_UID := "ws-b" |}
           (orch Demo.world3) (orch Demo.world3) (Errorf "workspace is busy")
           demo_instances_get demo_instances_list demo_instances_before
           demo_instances_failing).
Defined.

(** X11.  When every instance was archived and the template row was marked
    archived but archiving the orchestrator-side definition then fails,
    [ArchiveWorkspaceTemplate] reports [false] with the [Unknown] error
    although the template row stays archived; a retry then fails with
    [not found], so the remaining step is never reached again. *)
Theorem definition_failure_leaves_template_archived {Ext} (c : Client Ext)
    (f : ArchiveFaults) (w : World Ext) (namespace uid : string)
    (wsTemp : WorkspaceTemplate) (wsList : list Workspace) (o1 o2 : Orchestrator Ext)
    (b : bool) (err : error) :
  GetWorkspaceTemplate c (af_get f) w namespace uid 0 = (Some wsTemp, None) ->
  ListWorkspacesByTemplateID c namespace (WorkspaceTemplateVersionID wsTemp) (orch w)
    = inl wsList ->
  archiveWorkspaces c namespace wsList (orch w) = (None, o1) ->
  af_exec f = None -> af_rowsAffected f = None ->
  ArchiveWorkflowTemplate c namespace uid o1 = ((b, Some err), o2) ->
  let w' := {| db := archivedDB (db w) namespace uid; orch := o2 |} in
  ArchiveWorkspaceTemplate c f w namespace uid
    = ((false, Some (UserError Unknown "Unable to archive workspace template.")), w') /\
  (forall wt, In wt (workspace_templates (db w')) ->
              wt_uid wt = uid -> wt_namespace wt = namespace -> wt_is_archived wt = true) /\
  (forall f', af_get f' = None ->
              ArchiveWorkspaceTemplate c f' w' namespace uid
              = ((false, Some (Errorf "not found")), w')).
Proof.
  intros Hget Hlist Hall Hexec Hrows Hdef w'.
  pose proof (GetWorkspaceTemplate_uid _ _ _ _ _ _ _ Hget) as Huid.
  assert (Harch : forall wt, In wt (workspace_templates (db w')) ->
                             wt_uid wt = uid -> wt_namespace wt = namespace ->
                             wt_is_archived wt = true)
    by (intros wt; apply archived_rows).
  split; [|split; [exact Harch|]].
  - unfold ArchiveWorkspaceTemplate, archiveWorkspaceTemplateDB.
    rewrite Hget, Hlist, Hall, Hexec, Hrows, Huid. simpl.
    destruct (Nat.eqb _ 0); simpl; rewrite Hdef; reflexivity.
  - intros f' Hf'. unfold ArchiveWorkspaceTemplate.
    rewrite (GetWorkspaceTemplate_no_rows c (af_get f') w' namespace uid 0 Hf'
               (versionRows_archived w' namespace uid 0 Harch)).
    reflexivity.
Qed.

Example demo_failing_get :
  GetWorkspaceTemplate Demo.clientFailingCleanUp (af_get noArchiveFaults) Demo.world3
    "ns" "ml-1" 0
  = (Some DemoInstances.ml1Latest, None).
Proof. vm_compute. reflexivity. Qed.

Example demo_failing_list :
  ListWorkspacesByTemplateID Demo.clientFailingCleanUp "ns"
    (WorkspaceTemplateVersionID DemoInstances.ml1Latest) (orch Demo.world3)
  = inl [].
Proof. vm_compute. reflexivity. Qed.

Example demo_failing_instances :
  archiveWorkspaces Demo.clientFailingCleanUp "ns" [] (orch Demo.world3)
  = (None, orch Demo.world3).
Proof. vm_compute. reflexivity. Qed.

Example demo_failing_definition :
  ArchiveWorkflowTemplate Demo.clientFailingCleanUp "ns" "ml-1" (orch Demo.world3)
  = ((false, Some (Errorf "orchestrator unavailable")), orch Demo.world3).
Proof. vm_compute. reflexivity. Qed.

Lemma definition_failure_leaves_template_archived_witness :
  ArchiveWorkspaceTemplate Demo.clientFailingCleanUp noArchiveFaults Demo.world3 "ns" "ml-1"
  = ((false, Some (UserError Unknown "Unable to archive workspace template.")),
     {| db := archivedDB (db Demo.world3) "ns" "ml-1"; orch := orch Demo.world3 |}).
Proof.
  exact (proj1 (definition_failure_leaves_template_archived Demo.clientFailingCleanUp
                  noArchiveFaults Demo.world3 "ns" "ml-1" DemoInstances.ml1Latest
                  [] (orch Demo.world3) (orch Demo.world3) false
                  (Errorf "orchestrator unavailable")
                  demo_failing_get demo_failing_list demo_failing_instances
                  eq_refl eq_refl demo_failing_definition)).
Defined.

(** * Further properties of the compiler *)

(** ** Names of the injected parameters *)

Lemma append_cons a x y : String a x +:+ y = String a (x +:+ y).
Proof. reflexivity. Qed.

Lemma length_append' a b : String.length (a +:+ b) = String.length a + String.length b.
Proof.
  induction a as [|x a IH]; [reflexivity|].
  rewrite append_cons. simpl. by rewrite IH.
Qed.

Lemma append_inj_r a b s : a +:+ s = b +:+ s -> a = b.
Proof.
  revert b. induction a as [|x a IH]; intros [|y b] H.
  - reflexivity.
  - change (EmptyString +:+ s) with s in H.
    apply (f_equal String.length) in H. rewrite append_cons in H. simpl in H.
    rewrite length_append' in H. lia.
  - change (EmptyString +:+ s) with s in H.
    apply (f_equal String.length) in H. rewrite append_cons in H. simpl in H.
    rewrite length_append' in H. lia.
  - rewrite !append_cons in H. injection H as -> H. f_equal. by apply IH.
Qed.

Lemma volumeSizeName_inj a b : volumeSizeName a = volumeSizeName b -> a = b.
Proof.
  unfold volumeSizeName. intros H.
  apply (inj (String.append "sys-")) in H. by apply append_inj_r in H.
Qed.

Lemma volumeSizeName_length n : String.length (volumeSizeName n) = 16 + String.length n.
Proof. unfold volumeSizeName. rewrite !length_append'. simpl. lia. Qed.

Lemma volumeSizeName_not_system n :
  ~ In (volumeSizeName n)
       ["sys-name"; "sys-resource-action"; "sys-workspace-action"; "sys-uid";
        "sys-host"; "sys-node-pool-label"; "sys-node-pool"].
Proof.
  intros H. simpl in H.
  repeat (destruct H as [H|H];
          [ pose proof (f_equal String.length H) as Hlen;
            rewrite volumeSizeName_length in Hlen; simpl in Hlen;
            try lia;
            destruct n as [|a [|b [|c [|d [|e n]]]]]; simpl in Hlen; try lia;
            cbv in H; discriminate H
          | ]).
  exact H.
Qed.

Lemma NoDup_map_inj {A B} (f : A -> B) (l : list A) :
  (forall x y, f x = f y -> x = y) -> NoDup l -> NoDup (map f l).
Proof.
  intros Hinj. induction 1 as [|x l Hx Hl IH]; simpl; constructor; [|exact IH].
  rewrite list_elem_of_In, in_map_iff. intros (y & Hy & Hin).
  apply Hinj in Hy as ->. by apply list_elem_of_In in Hin.
Qed.

Lemma systemVolumeParameters_names spec :
  exists volumes,
    map p_Name (systemVolumeParameters spec) = map volumeSizeName volumes /\
    NoDup volumes.
Proof.
  destruct (systemVolumeParameters_characterised spec) as (vs & Heq & Hnd & _).
  exists (map vm_Name vs). split; [|exact Hnd].
  rewrite Heq, !map_map. reflexivity.
Qed.

(** X12.  The parameters that [generateArguments] injects never collide
    with one another: the names of the four placeholders, the three runtime
    parameters and the synthesized volume-size parameters are pairwise
    distinct, for every spec (a user-declared parameter may still repeat
    one of them: the declared ones are not checked). *)
Theorem injected_parameter_names_distinct (spec : WorkspaceSpec) (config : SystemConfig)
    (runtime : list Param) :
  generateRuntimeParameters config = inl runtime ->
  NoDup (map p_Name (placeholderParameters ++ runtime ++ systemVolumeParameters spec)).
Proof.
  intros Hrt.
  destruct (generateRuntimeParameters_names _ _ Hrt) as [Hnames _].
  destruct (systemVolumeParameters_names spec) as (volumes & Hvol & Hnd).
  assert (Hfix : map p_Name (placeholderParameters ++ runtime)
                 = ["sys-name"; "sys-resource-action"; "sys-workspace-action"; "sys-uid";
                    "sys-host"; "sys-node-pool-label"; "sys-node-pool"])
    by (rewrite map_app, Hnames; reflexivity).
  rewrite app_assoc, map_app, Hfix, Hvol.
  apply NoDup_app. split; [|split].
  - apply NoDup_ListNoDup. repeat constructor; simpl; intuition discriminate.
  - intros x Hx Hx'. apply list_elem_of_In in Hx. apply list_elem_of_In in Hx'.
    apply in_map_iff in Hx' as (n & <- & _).
    by apply (volumeSizeName_not_system n).
  - apply NoDup_map_inj; [apply volumeSizeName_inj | exact Hnd].
Qed.

Lemma injected_parameter_names_distinct_witness :
  NoDup (map p_Name (placeholderParameters
                       ++ [ mkHidden "sys-host" (Domain Demo.config) "input.hidden";
                            mkHidden "sys-node-pool-label" (NodePoolLabel Demo.config)
                              "input.hidden";
                            {| p_Name := "sys-node-pool";
                               p_Value := Some "Standard_D4s_v3";
                               p_Type := "select.select";
                               p_Options := [ {| po_Name := "CPU";
                                                 po_Value := "Standard_D4s_v3" |} ];
                               p_DisplayName := Some "Node pool";
                               p_Hint := Some "Name of node pool or group";
                               p_Required := true |} ]
                       ++ systemVolumeParameters Demo.specWithReservedMount)).
Proof.
  apply (injected_parameter_names_distinct Demo.specWithReservedMount Demo.config).
  reflexivity.
Defined.

(** ** Volume claims of the stateful set *)

Lemma firstDeclared_sound seen vcts v :
  In v (firstDeclared seen vcts) -> In v vcts /\ map_get seen (pvc_Name v) = false.
Proof.
  revert seen. induction vcts as [|u vcts IH]; intros seen; simpl; [tauto|].
  destruct (map_get seen (pvc_Name u)) eqn:Hs.
  - intros H. apply IH in H. tauto.
  - intros [<- | H]; [tauto|]. apply IH in H as (Hin & Hseen). split; [tauto|].
    destruct (decide (pvc_Name u = pvc_Name v)) as [Heq|Hne].
    + rewrite Heq, map_get_insert_eq in Hseen. discriminate.
    + by rewrite map_get_insert_ne in Hseen.
Qed.

Lemma firstDeclared_complete seen vcts v :
  In v vcts -> map_get seen (pvc_Name v) = false ->
  exists v', In v' (firstDeclared seen vcts) /\ pvc_Name v' = pvc_Name v /\ In v' vcts.
Proof.
  intros Hin. revert seen.
  induction vcts as [|u vcts IH]; intros seen Hseen; simpl; [destruct Hin|].
  destruct Hin as [-> | Hin].
  - rewrite Hseen. exists v. simpl. auto.
  - destruct (map_get seen (pvc_Name u)) eqn:Hs.
    + destruct (IH Hin seen Hseen) as (v' & H1 & H2 & H3). exists v'. auto.
    + destruct (decide (pvc_Name u = pvc_Name v)) as [Heq|Hne].
      * exists u. simpl. auto.
      * destruct (IH Hin (<[pvc_Name u := true]> seen)) as (v' & H1 & H2 & H3).
        { by rewrite map_get_insert_ne. }
        exists v'. simpl. auto.
Qed.

Lemma firstDeclared_NoDup seen vcts : NoDup (map pvc_Name (firstDeclared seen vcts)).
Proof.
  revert seen. induction vcts as [|u vcts IH]; intros seen; simpl; [constructor|].
  destruct (map_get seen (pvc_Name u)); [apply IH|].
  simpl. constructor; [|apply IH].
  rewrite list_elem_of_In, in_map_iff. intros (v & Hn & Hin).
  apply firstDeclared_sound in Hin as (_ & Hseen).
  rewrite <- Hn, map_get_insert_eq in Hseen. discriminate.
Qed.

Lemma declaredClaims_scan vcts claims seen :
  fst (fold_left declaredClaimsStep vcts (claims, seen))
  = claims ++ map declaredVolumeClaim (firstDeclared seen vcts).
Proof.
  revert claims seen. induction vcts as [|v vcts IH]; intros claims seen; simpl.
  - by rewrite app_nil_r.
  - destruct (map_get seen (pvc_Name v)); [apply IH|].
    rewrite IH. simpl. by rewrite <- app_assoc.
Qed.

Lemma reservedVolume_true n :
  reservedVolume n = true <-> n = "sys-dshm" \/ n = "sys-namespace-config".
Proof. unfold reservedVolume. rewrite orb_true_iff, !String.eqb_eq. tauto. Qed.

(** The claims of the stateful set: the first declared template of each
    name, then one synthesized claim for the first mount of each name that
    is neither declared nor reserved. *)
Lemma statefulSetVolumeClaims_eq spec :
  exists seen,
    statefulSetVolumeClaims spec
    = map declaredVolumeClaim (firstDeclared ∅ (VolumeClaimTemplates spec))
      ++ map synthesizedVolumeClaim (firstMounts ∅ seen (allMounts (Containers spec))) /\
    forall n, map_get seen n = true
              <-> In n (map pvc_Name (VolumeClaimTemplates spec)) \/ reservedVolume n = true.
Proof.
  unfold statefulSetVolumeClaims.
  destruct (fold_left declaredClaimsStep (VolumeClaimTemplates spec) ([], ∅))
    as [claims seen] eqn:Hd.
  exists (<["sys-namespace-config" := true]> (<["sys-dshm" := true]> seen)). split.
  - simpl. rewrite nested_loop_flat, mountClaims_scan. f_equal.
    change claims with (fst (claims, seen)). rewrite <- Hd. apply declaredClaims_scan.
  - intros n. rewrite reservedVolume_true.
    pose proof (declaredClaims_seen (VolumeClaimTemplates spec) [] ∅ n) as Hseen.
    rewrite Hd, map_get_empty in Hseen. simpl in Hseen.
    destruct (decide ("sys-namespace-config" = n)) as [<-|Hn1];
      [rewrite map_get_insert_eq; tauto|].
    rewrite map_get_insert_ne by done.
    destruct (decide ("sys-dshm" = n)) as [<-|Hn2];
      [rewrite map_get_insert_eq; tauto|].
    rewrite map_get_insert_ne by done. rewrite Hseen.
    split; [intros [H|H]; [discriminate | tauto]|].
    intros [H | [H | H]]; [tauto | congruence | congruence].
Qed.

Lemma statefulSetVolumeClaims_unseen spec seen :
  (forall n, map_get seen n = true
             <-> In n (map pvc_Name (VolumeClaimTemplates spec)) \/ reservedVolume n = true) ->
  forall n, map_get seen n = false
            <-> ~ In n (map pvc_Name (VolumeClaimTemplates spec)) /\ reservedVolume n = false.
Proof.
  intros Hseen n. specialize (Hseen n).
  destruct (map_get seen n), (reservedVolume n); intuition discriminate.
Qed.

(** Which names the stateful set claims. *)
Lemma stateful_set_claims_members spec n :
  In n (map vc_Name (statefulSetVolumeClaims spec))
  <-> In n (map pvc_Name (VolumeClaimTemplates spec)) \/
      (In n (map vm_Name (allMounts (Containers spec))) /\ reservedVolume n = false).
Proof.
  destruct (statefulSetVolumeClaims_eq spec) as (seen & -> & Hseen).
  pose proof (statefulSetVolumeClaims_unseen spec seen Hseen) as Hnot.
  rewrite map_app, !map_map. simpl.
  rewrite in_app_iff. split.
  - intros [H | H].
    + apply in_map_iff in H as (v & <- & Hv). apply firstDeclared_sound in Hv as [Hv _].
      left. by apply in_map.
    + apply in_map_iff in H as (m & <- & Hm).
      apply firstMounts_sound in Hm as (Hm & Hs & _). apply Hnot in Hs as [_ Hs].
      right. split; [by apply in_map | exact Hs].
  - intros [H | [H Hr]].
    + apply in_map_iff in H as (v & <- & Hv).
      destruct (firstDeclared_complete ∅ _ v Hv (map_get_empty _)) as (v' & Hv' & Hn & _).
      left. rewrite <- Hn. by apply in_map.
    + destruct (List.in_dec String.string_dec n (map pvc_Name (VolumeClaimTemplates spec)))
        as [Hd|Hd].
      * apply in_map_iff in Hd as (v & <- & Hv).
        destruct (firstDeclared_complete ∅ _ v Hv (map_get_empty _)) as (v' & Hv' & Hn & _).
        left. rewrite <- Hn. by apply in_map.
      * apply in_map_iff in H as (m & <- & Hm).
        destruct (firstMounts_complete ∅ seen _ m Hm) as (m' & Hm' & Hn).
        { apply Hnot. auto. }
        { apply map_get_empty. }
        right. rewrite <- Hn. by apply in_map.
Qed.

(** X13.  The volume claims of the stateful set, for every spec: no two
    claims share a name; a name is claimed exactly when a volume-claim
    template of that name is declared or some container mounts it and it is
    not one of the reserved names [sys-dshm], [sys-namespace-config]; and
    every claim carries a storage class. *)
Theorem stateful_set_claims_cover_mounts (spec : WorkspaceSpec) :
  NoDup (map vc_Name (statefulSetVolumeClaims spec)) /\
  (forall n,
     In n (map vc_Name (statefulSetVolumeClaims spec))
     <-> In n (map pvc_Name (VolumeClaimTemplates spec)) \/
         (In n (map vm_Name (allMounts (Containers spec))) /\ reservedVolume n = false)) /\
  (forall cl, In cl (statefulSetVolumeClaims spec) -> vc_StorageClassName cl <> None).
Proof.
  split; [|split; [apply stateful_set_claims_members|]];
    destruct (statefulSetVolumeClaims_eq spec) as (seen & -> & Hseen).
  - pose proof (statefulSetVolumeClaims_unseen spec seen Hseen) as Hnot.
    rewrite map_app, !map_map. simpl.
    apply NoDup_app. split; [apply firstDeclared_NoDup|]. split; [|apply firstMounts_NoDup].
    intros n Hd Hm. apply list_elem_of_In in Hd. apply list_elem_of_In in Hm.
    apply in_map_iff in Hd as (v & <- & Hv). apply firstDeclared_sound in Hv as [Hv _].
    apply in_map_iff in Hm as (m & Heq & Hm). apply firstMounts_sound in Hm as (_ & Hs & _).
    rewrite Heq in Hs. apply Hnot in Hs as [Hs _]. apply Hs. by apply in_map.
  - intros cl Hcl. apply in_app_iff in Hcl as [H | H].
    + apply in_map_iff in H as (v & <- & _). simpl. by destruct (pvc_StorageClassName v).
    + apply in_map_iff in H as (m & <- & _). simpl. discriminate.
Qed.

(** The size a claim defers to is the workflow parameter of the name that
    [generateArguments] gives the volume's size parameter. *)
Lemma deferredVolumeSize_parameter n :
  deferredVolumeSize n = "{{workflow.parameters." +:+ volumeSizeName n +:+ "}}Mi".
Proof.
  unfold deferredVolumeSize, volumeSizeName.
  change "{{workflow.parameters.sys-" with ("{{workflow.parameters." +:+ "sys-").
  change "-volume-size}}Mi" with ("-volume-size" +:+ "}}Mi").
  by rewrite !append_assoc'.
Qed.

Lemma claim_storage_text spec cl t :
  In cl (statefulSetVolumeClaims spec) -> vc_Storage cl = StorageText t ->
  t = deferredVolumeSize (vc_Name cl).
Proof.
  destruct (statefulSetVolumeClaims_eq spec) as (seen & -> & _).
  intros Hin Ht. apply in_app_iff in Hin as [H | H];
    apply in_map_iff in H as (v & <- & _); simpl in *.
  - destruct (pvc_Requests v); congruence.
  - congruence.
Qed.

Lemma volume_parameter_synthesized spec n :
  In (volumeSizeName n) (map p_Name (systemVolumeParameters spec))
  <-> In n (map vm_Name (allMounts (Containers spec))) /\
      ~ exists v, In v (VolumeClaimTemplates spec) /\ pvc_Name v = n /\
                  pvc_Requests v <> None.
Proof.
  destruct (systemVolumeParameters_characterised spec) as (vs & Heq & _ & Hin).
  rewrite <- Hin, Heq, map_map.
  change (map (fun x => p_Name (volumeSizeParameter x)) vs)
    with (map (fun x => volumeSizeName (vm_Name x)) vs).
  rewrite <- (map_map vm_Name volumeSizeName). split.
  - intros H. apply in_map_iff in H as (m & Hn & Hm).
    apply volumeSizeName_inj in Hn. by subst.
  - intros H. by apply in_map.
Qed.

(** X14.  Claims and size parameters agree as far as the two loops look at
    the same names.  A claim of the stateful set whose storage is a text
    defers to the workflow parameter [sys-<name>-volume-size]; that
    parameter is synthesized by [generateArguments] exactly when some
    container mounts the volume and no declared template of the name has a
    requests map ([Spec.Resources.Requests] not nil, with or without a
    [storage] entry in it).  So the claim synthesized for a mounted volume
    that no template declares always finds its parameter, while the claim
    of a template declared without a requests map finds it only if the
    volume is mounted and no other template of that name has a requests
    map. *)
Theorem deferred_claim_size_parameter (spec : WorkspaceSpec) (cl : VolumeClaimDoc)
    (t : string) :
  In cl (statefulSetVolumeClaims spec) ->
  vc_Storage cl = StorageText t ->
  t = "{{workflow.parameters." +:+ volumeSizeName (vc_Name cl) +:+ "}}Mi" /\
  (In (volumeSizeName (vc_Name cl)) (map p_Name (systemVolumeParameters spec))
   <-> In (vc_Name cl) (map vm_Name (allMounts (Containers spec))) /\
       ~ exists v, In v (VolumeClaimTemplates spec) /\ pvc_Name v = vc_Name cl /\
                   pvc_Requests v <> None) /\
  (~ In (vc_Name cl) (map pvc_Name (VolumeClaimTemplates spec)) ->
   In (volumeSizeName (vc_Name cl)) (map p_Name (systemVolumeParameters spec))).
Proof.
  intros Hin Ht. split; [|split].
  - rewrite <- deferredVolumeSize_parameter. by apply (claim_storage_text spec).
  - apply volume_parameter_synthesized.
  - intros Hnd. apply volume_parameter_synthesized.
    destruct (stateful_set_claims_members spec (vc_Name cl)) as [Hm _].
    destruct (Hm (in_map vc_Name _ _ Hin)) as [Hd | [Hmt _]]; [by destruct Hnd|].
    split; [exact Hmt|]. intros (v & Hv & Hn & _). apply Hnd. rewrite <- Hn. by apply in_map.
Qed.

Lemma deferred_claim_size_parameter_witness :
  "{{workflow.parameters.sys-data-volume-size}}Mi"
  = "{{workflow.parameters." +:+ volumeSizeName "data" +:+ "}}Mi" /\
  In (volumeSizeName "data")
     (map p_Name (systemVolumeParameters Demo.specWithReservedMount)).
Proof.
  pose (cl := synthesizedVolumeClaim (Demo.mount "data" "/data")).
  assert (Hin : In cl (statefulSetVolumeClaims Demo.specWithReservedMount))
    by (left; reflexivity).
  destruct (deferred_claim_size_parameter Demo.specWithReservedMount cl
              "{{workflow.parameters.sys-data-volume-size}}Mi" Hin eq_refl)
    as (Ht & _ & Hp).
  split; [exact Ht|]. apply Hp. simpl. tauto.
Defined.

(** ** The task graph *)

(** The entry DAG of every compiled definition: the eleven built-in tasks
    and, after them, the post-execution task when the spec asks for one. *)
Lemma workflowTemplateSpec_entryTasks lib spec m1 m2 m3 m4 d :
  workflowTemplateSpec lib spec m1 m2 m3 m4 = inl d ->
  entryTasks d
  = workspaceTasks (volumeClaimItems spec)
      ++ match PostExecution spec with
         | Some post => [postExecutionTask post]
         | None => []
         end.
Proof.
  unfold workflowTemplateSpec.
  destruct (json_Marshal lib _) as [statusBytes|]; [|discriminate].
  destruct (getCURLNodeTemplate lib _ _ _ _ _) as [curl|]; [|discriminate].
  intros [= <-]. unfold entryTasks. simpl.
  destruct (PostExecution spec) as [post|]; reflexivity.
Qed.

Lemma workflowTemplateSpec_templates lib spec m1 m2 m3 m4 d :
  workflowTemplateSpec lib spec m1 m2 m3 m4 = inl d ->
  exists entry curl user,
    wts_Templates d = entry :: tl (baseTemplates (volumeClaimItems spec) m1 m2 m3 m4)
                        ++ curl :: user /\
    tpl_Name entry = "workspace" /\
    getCURLNodeTemplate lib "sys-update-status" "PUT"
      "/apis/v1beta1/{{workflow.namespace}}/workspaces/{{workflow.parameters.sys-uid}}/status"
      (match json_Marshal lib (DocStatus "{{inputs.parameters.sys-workspace-phase}}") with
       | inl b => b | inr _ => EmptyString end)
      ["sys-workspace-phase"] = inl curl /\
    user = match PostExecution spec with Some post => pew_Templates post | None => [] end.
Proof.
  unfold workflowTemplateSpec.
  destruct (json_Marshal lib _) as [statusBytes|]; [|discriminate].
  destruct (getCURLNodeTemplate lib _ _ _ _ _) as [curl|] eqn:Hc; [|discriminate].
  intros [= <-]. simpl.
  destruct (PostExecution spec) as [post|]; simpl.
  - eexists _, curl, _. split; [reflexivity|]. auto.
  - eexists _, curl, _. split; [reflexivity|]. auto.
Qed.



(** X16.  No built-in task refers to a template that is missing: provided
    the status-callback template comes back under the name it was asked
    for, every one of the eleven built-in tasks of a compiled definition
    names a template of that definition. *)
Theorem builtin_tasks_name_defined_templates (lib : Lib) (spec : WorkspaceSpec)
    (m1 m2 m3 m4 : string) (d : WorkflowTemplateSpec) :
  (forall name method path body inputs t,
     getCURLNodeTemplate lib name method path body inputs = inl t -> tpl_Name t = name) ->
  workflowTemplateSpec lib spec m1 m2 m3 m4 = inl d ->
  forall task, In task (workspaceTasks (volumeClaimItems spec)) ->
               In task (entryTasks d) /\
               In (t_Template task) (map tpl_Name (wts_Templates d)).
Proof.
  intros Hcurl Hd task Hin. split.
  - rewrite (workflowTemplateSpec_entryTasks _ _ _ _ _ _ _ Hd). apply in_app_iff. by left.
  - destruct (workflowTemplateSpec_templates _ _ _ _ _ _ _ Hd)
      as (e & c & u & -> & _ & Hc & _).
    apply Hcurl in Hc.
    change (map tpl_Name (e :: tl (baseTemplates (volumeClaimItems spec) m1 m2 m3 m4)
                            ++ c :: u))
      with (tpl_Name e :: map tpl_Name (tl (baseTemplates (volumeClaimItems spec) m1 m2 m3 m4)
                                          ++ c :: u)).
    right. rewrite map_app. simpl. rewrite Hc.
    simpl in Hin.
    repeat (destruct Hin as [<- | Hin]; [simpl; tauto|]). destruct Hin.
Qed.

Lemma builtin_tasks_name_defined_templates_witness :
  exists d,
    workflowTemplateSpec Demo.lib Demo.specWithReservedMount "s" "v" "t" "w" = inl d /\
    In "sys-update-status" (map tpl_Name (wts_Templates d)).
Proof.
  eexists. split; [reflexivity|].
  refine (proj2 (builtin_tasks_name_defined_templates Demo.lib Demo.specWithReservedMount
                   "s" "v" "t" "w" _ _ eq_refl
                   (mkTask "sys-set-phase-running" "sys-update-status" ["create-workspace"]
                      [("sys-workspace-phase", WorkspaceRunning)] when_create_or_update [])
                   _)).
  - intros name method path body inputs t [= <-]. reflexivity.
  - simpl. tauto.
Defined.

(** ** The compiler pipeline *)



(** ** Routes *)

Lemma rewriteDestination_Some r r' :
  rewriteDestination r = Some r' <-> redirectedDestination r r'.
Proof.
  unfold rewriteDestination, redirectedDestination. split.
  - destruct r as [a|]; [|discriminate].
    destruct (d_Destination a) as [d|] eqn:Hd; [|discriminate].
    intros [= <-]. by exists a, d.
  - intros (a & d & -> & Hd & ->). by rewrite Hd.
Qed.

Lemma rewriteDestination_None r :
  rewriteDestination r = None <-> completeDestination r = false.
Proof.
  unfold rewriteDestination, completeDestination.
  destruct r as [a|]; [|tauto]. destruct (d_Destination a); split; (discriminate || tauto).
Qed.

Lemma rewriteDestination_again r r' :
  rewriteDestination r = Some r' -> rewriteDestination r' = Some r'.
Proof.
  intros H. apply rewriteDestination_Some in H as (a & d & -> & Hd & ->). reflexivity.
Qed.

Lemma Forall2_right_diagonal {A B} (P : A -> B -> Prop) (Q : B -> B -> Prop) l k :
  (forall x y, P x y -> Q y y) -> Forall2 P l k -> Forall2 Q k k.
Proof. intros HPQ H. induction H; constructor; eauto. Qed.

Lemma rewriteRoute_Some h h' : rewriteRoute h = Some h' <-> redirectedRoute h h'.
Proof.
  unfold rewriteRoute, redirectedRoute. split.
  - destruct h as [a|]; [|discriminate].
    destruct (mapM rewriteDestination (r_Route a)) as [route|] eqn:Hm; [|discriminate].
    intros [= <-]. eexists a, _. repeat split.
    apply mapM_Some in Hm. simpl.
    eapply Forall2_impl; [exact Hm|]. intros x y. apply rewriteDestination_Some.
  - intros (a & [m route other] & -> & -> & Hm & Ho & Hr). simpl in *. subst.
    assert (Hs : mapM rewriteDestination (r_Route a) = Some route).
    { apply mapM_Some. eapply Forall2_impl; [exact Hr|].
      intros x y. apply rewriteDestination_Some. }
    by rewrite Hs.
Qed.

Lemma mapM_None_forallb {A B} (f : A -> option B) (g : A -> bool) (l : list A) :
  (forall x, f x = None <-> g x = false) ->
  mapM f l = None <-> forallb g l = false.
Proof.
  intros Hfg. rewrite mapM_None. induction l as [|x l IH]; simpl.
  - split; [intros H; inversion H | discriminate].
  - rewrite Exists_cons, andb_false_iff, IH, Hfg. tauto.
Qed.

Lemma rewriteRoute_None h : rewriteRoute h = None <-> completeRoute h = false.
Proof.
  unfold rewriteRoute, completeRoute. destruct h as [a|]; [|tauto].
  rewrite <- (mapM_None_forallb rewriteDestination) by apply rewriteDestination_None.
  destruct (mapM rewriteDestination (r_Route a)); split; (discriminate || tauto).
Qed.

Lemma rewriteRoute_again h h' : rewriteRoute h = Some h' -> rewriteRoute h' = Some h'.
Proof.
  unfold rewriteRoute. destruct h as [a|]; [|discriminate].
  destruct (mapM rewriteDestination (r_Route a)) as [route|] eqn:Hm; [|discriminate].
  intros [= <-]. simpl.
  assert (Hs : mapM rewriteDestination route = Some route).
  { apply mapM_Some. apply mapM_Some in Hm.
    eapply Forall2_right_diagonal; [|exact Hm]. intros x y. apply rewriteDestination_again. }
  by rewrite Hs.
Qed.

Lemma rewriteRoutes_again rs rs' : rewriteRoutes rs = Some rs' -> rewriteRoutes rs' = Some rs'.
Proof.
  unfold rewriteRoutes. intros Hm. apply mapM_Some. apply mapM_Some in Hm.
  eapply Forall2_right_diagonal; [|exact Hm]. intros x y. apply rewriteRoute_again.
Qed.

Lemma rewriteRoutes_None rs : rewriteRoutes rs = None <-> completeRoutes rs = false.
Proof. apply mapM_None_forallb, rewriteRoute_None. Qed.

(** X18.  [createVirtualServiceManifest] on every spec.  When a route is
    nil, or an entry of a route is nil or has no destination, it panics on
    the nil dereference, whatever the other routes are.  Otherwise the
    document is built from routes that differ from the spec's in the hosts
    only: same number and order of routes and of entries, same match
    clauses, other route fields, weights, subsets and ports, every host
    replaced by [{{workflow.parameters.sys-uid}}]; the spec is left with
    these routes and is otherwise unchanged; and running the function again
    on that spec gives the same document and the same spec. *)
Theorem virtual_service_rewrites_hosts_only (lib : Lib) (spec : WorkspaceSpec) :
  (completeRoutes (Routes spec) = false ->
   createVirtualServiceManifest lib spec = (inr (Panic "nil pointer dereference"), spec)) /\
  (completeRoutes (Routes spec) = true ->
   exists routes,
     createVirtualServiceManifest lib spec
     = (yaml_Marshal lib (DocVirtualService (virtualServiceDocument routes)),
        set_Routes spec routes) /\
     Forall2 redirectedRoute (Routes spec) routes /\
     createVirtualServiceManifest lib (set_Routes spec routes)
     = createVirtualServiceManifest lib spec).
Proof.
  unfold createVirtualServiceManifest. split.
  - intros Hc. apply rewriteRoutes_None in Hc. by rewrite Hc.
  - intros Hc. destruct (rewriteRoutes (Routes spec)) as [routes|] eqn:Hr.
    + exists routes. split; [reflexivity|]. split.
      * apply mapM_Some in Hr. eapply Forall2_impl; [exact Hr|].
        intros x y. apply rewriteRoute_Some.
      * simpl. by rewrite (rewriteRoutes_again _ _ Hr).
    + apply rewriteRoutes_None in Hr. congruence.
Qed.

Lemma virtual_service_rewrites_hosts_only_witness :
  createVirtualServiceManifest Demo.lib
    (set_Routes Demo.spec
       [ Some {| r_Match := ["/"]; r_Other := EmptyString;
                 r_Route := [ Some {| d_Destination := None; d_Weight := 100 |} ] |} ])
  = (inr (Panic "nil pointer dereference"),
     set_Routes Demo.spec
       [ Some {| r_Match := ["/"]; r_Other := EmptyString;
                 r_Route := [ Some {| d_Destination := None; d_Weight := 100 |} ] |} ]) /\
  exists routes,
    snd (createVirtualServiceManifest Demo.lib
           (set_Routes Demo.spec
              [ Some {| r_Match := ["/"]; r_Other := EmptyString;
                        r_Route := [ Some {| d_Destination :=
                                               Some {| dst_Host := "jupyter";
                                                       dst_Subset := EmptyString;
                                                       dst_Port := 8888 |};
                                             d_Weight := 100 |} ] |} ]))
    = set_Routes Demo.spec routes /\
    Forall2 redirectedRoute
      [ Some {| r_Match := ["/"]; r_Other := EmptyString;
                r_Route := [ Some {| d_Destination :=
                                       Some {| dst_Host := "jupyter";
                                               dst_Subset := EmptyString;
                                               dst_Port := 8888 |};
                                     d_Weight := 100 |} ] |} ]
      routes.
Proof.
  split.
  - apply (virtual_service_rewrites_hosts_only Demo.lib). reflexivity.
  - destruct (proj2 (virtual_service_rewrites_hosts_only Demo.lib
                (set_Routes Demo.spec
                   [ Some {| r_Match := ["/"]; r_Other := EmptyString;
                             r_Route := [ Some {| d_Destination :=
                                                    Some {| dst_Host := "jupyter";
                                                            dst_Subset := EmptyString;
                                                            dst_Port := 8888 |};
                                                  d_Weight := 100 |} ] |} ]))
                eq_refl) as (routes & Heq & Hr & _).
    exists routes. split; [by rewrite Heq | exact Hr].
Defined.

(** ** The namespace server *)

Section NamespaceListing.

Import NamespaceServer.
Local Open Scope Z_scope.

Lemma int32_id z : is_int32 z -> int32 z = z.
Proof.
  unfold is_int32, int32. intros H.
  rewrite Z.mod_small by lia. lia.
Qed.

Lemma math_Ceil_div_bounds total ps :
  0 <= total -> 1 <= ps ->
  total <= math_Ceil_div total ps * ps <= total + ps - 1 /\
  0 <= math_Ceil_div total ps <= total.
Proof.
  intros Ht Hps. unfold math_Ceil_div.
  pose proof (Z.div_mod (total + ps - 1) ps ltac:(lia)) as Hdm.
  pose proof (Z.mod_pos_bound (total + ps - 1) ps ltac:(lia)) as Hm.
  split; [lia|]. split.
  - apply Z.div_pos; lia.
  - assert (H : ps * ((total + ps - 1) / ps) <= total + ps - 1) by lia.
    destruct (Z.eq_dec total 0) as [->|Hne].
    + rewrite Z.div_small; lia.
    + nia.
Qed.

(** The arithmetic of the page window, free of wrap-around for fewer than
    [2^30] matches. *)
Lemma page_window total ps page :
  0 <= total < 2 ^ 30 -> 1 <= ps < 2 ^ 31 ->
  let pages := int32 (math_Ceil_div total ps) in
  let P0 := if page >? pages then pages else page in
  let P := if P0 <=? 0 then 1 else P0 in
  let start := int32 (int32 (P - 1) * ps) in
  let end0 := int32 (start + ps) in
  let end_ := if end0 >=? int32 total then int32 total else end0 in
  pages = math_Ceil_div total ps /\
  1 <= P <= Z.max 1 pages /\
  (1 <= page <= pages -> P = page) /\
  (pages < page -> P = Z.max 1 pages) /\
  (page <= 0 -> P = 1) /\
  start = (P - 1) * ps /\
  end_ = Z.min (start + ps) total /\
  0 <= start <= end_ /\ end_ <= total /\
  int32 total = total /\
  int32 (end_ - start) = end_ - start.
Proof.
  intros Ht Hps.
  destruct (math_Ceil_div_bounds total ps ltac:(lia) ltac:(lia)) as [Hc Hc'].
  assert (E30 : 2 ^ 30 = 1073741824) by reflexivity.
  assert (E31 : 2 ^ 31 = 2147483648) by reflexivity.
  cbv zeta.
  rewrite (int32_id (math_Ceil_div total ps)) by (unfold is_int32; lia).
  set (pages := math_Ceil_div total ps) in *.
  set (P0 := if page >? pages then pages else page).
  set (P := if P0 <=? 0 then 1 else P0).
  assert (HP : 1 <= P <= Z.max 1 pages).
  { unfold P, P0. destruct (Z.gtb_spec page pages);
      [destruct (Z.leb_spec pages 0) | destruct (Z.leb_spec page 0)]; lia. }
  assert (HP1 : 1 <= page <= pages -> P = page).
  { unfold P, P0. destruct (Z.gtb_spec page pages);
      [destruct (Z.leb_spec pages 0) | destruct (Z.leb_spec page 0)]; lia. }
  assert (HP2 : pages < page -> P = Z.max 1 pages).
  { unfold P, P0. destruct (Z.gtb_spec page pages);
      [destruct (Z.leb_spec pages 0) | destruct (Z.leb_spec page 0)]; lia. }
  assert (HP3 : page <= 0 -> P = 1).
  { unfold P, P0. destruct (Z.gtb_spec page pages);
      [destruct (Z.leb_spec pages 0) | destruct (Z.leb_spec page 0)]; lia. }
  assert (Hstart : 0 <= (P - 1) * ps /\
                   ((P - 1) * ps = 0 \/
                    ((P - 1) * ps + ps <= total + ps - 1 /\ ps < total))).
  { destruct (Z.eq_dec P 1) as [->|Hne]; [lia|].
    assert (P <= pages) by lia. split; [nia|]. right. split; nia. }
  rewrite (int32_id (P - 1)) by (unfold is_int32; lia).
  rewrite (int32_id ((P - 1) * ps)) by (unfold is_int32; lia).
  rewrite (int32_id ((P - 1) * ps + ps)) by (unfold is_int32; lia).
  rewrite (int32_id total) by (unfold is_int32; lia).
  set (start := (P - 1) * ps) in *.
  assert (Hend : (if start + ps >=? total then total else start + ps) = Z.min (start + ps) total).
  { destruct (Z.geb_spec (start + ps) total); lia. }
  rewrite Hend.
  repeat split; try assumption; try lia.
  rewrite int32_id; [reflexivity|]. unfold is_int32. lia.
Qed.

Lemma firstn_skipn_length {A} (l : list A) (a b : nat) :
  length (firstn b (skipn a l)) = Nat.min b (length l - a).
Proof. by rewrite List.length_firstn, List.length_skipn. Qed.

Lemma firstn_min_length {A} (l : list A) (n : nat) :
  firstn (Nat.min n (length l)) l = firstn n l.
Proof.
  destruct (Nat.le_ge_cases n (length l)) as [H|H].
  - by rewrite Nat.min_l.
  - rewrite Nat.min_r by exact H. by rewrite !List.firstn_all2 by lia.
Qed.

Lemma matches_length (query : string) (namespaces : list Namespace) :
  (Z.of_nat (length (map apiNamespace (List.filter (matchesQuery query) namespaces)))
   <= Z.of_nat (length namespaces))%Z.
Proof.
  rewrite List.length_map. apply inj_le. apply List.filter_length_le.
Qed.

(** What [ListNamespaces] answers to an authorised caller, in terms of the
    window of [page_window]. *)
Lemma ListNamespaces_authorised {Cluster} (client : KubeClient Cluster) (k : Cluster)
    (req : ListNamespacesRequest) (namespaces : list Namespace) :
  IsAuthorized client "" "list" "" "namespaces" "" k = (true, None) ->
  client_ListNamespaces client k = inl namespaces ->
  Z.of_nat (length namespaces) < 2 ^ 30 ->
  is_int32 (req_PageSize req) ->
  let matches := map apiNamespace (List.filter (matchesQuery (req_Query req)) namespaces) in
  let total := Z.of_nat (length matches) in
  let ps := effectivePageSize req in
  exists P,
    ListNamespaces client k req
    = Reply (Some {| resp_Count := Z.min ((P - 1) * ps + ps) total - (P - 1) * ps;
                     resp_Namespaces :=
                       firstn (Z.to_nat ps) (skipn (Z.to_nat ((P - 1) * ps)) matches);
                     resp_Page := P;
                     resp_Pages := math_Ceil_div total ps;
                     resp_TotalCount := total |}) None /\
    1 <= P <= Z.max 1 (math_Ceil_div total ps) /\
    (1 <= req_Page req <= math_Ceil_div total ps -> P = req_Page req) /\
    (math_Ceil_div total ps < req_Page req -> P = Z.max 1 (math_Ceil_div total ps)) /\
    (req_Page req <= 0 -> P = 1) /\
    0 <= (P - 1) * ps <= total.
Proof.
  intros Hauth Hlist Hlen Hps matches total ps.
  assert (Ht : 0 <= total < 2 ^ 30).
  { unfold total, matches. pose proof (matches_length (req_Query req) namespaces). lia. }
  assert (Hps' : 1 <= ps < 2 ^ 31).
  { unfold ps, effectivePageSize, is_int32 in *.
    destruct (Z.leb_spec (req_PageSize req) 0); lia. }
  pose proof (page_window total ps (req_Page req) Ht Hps') as Hw. cbv zeta in Hw.
  unfold ListNamespaces. rewrite Hauth. simpl negb. simpl orb. cbv iota.
  rewrite Hlist. cbv zeta.
  fold (effectivePageSize req). fold ps. fold matches. fold total.
  set (pages := int32 (math_Ceil_div total ps)) in *.
  set (P := if (if req_Page req >? pages then pages else req_Page req) <=? 0 then 1
            else (if req_Page req >? pages then pages else req_Page req)) in *.
  set (start := int32 (int32 (P - 1) * ps)) in *.
  set (end_ := if int32 (start + ps) >=? int32 total then int32 total
               else int32 (start + ps)) in *.
  destruct Hw as (Hpages & HP & HP1 & HP2 & HP3 & Hstart & Hend & Hse & Het & Htot & Hcnt).
  exists P. rewrite <- Hpages, <- Hstart.
  split; [|repeat split; try assumption; try lia; try (rewrite <- Hpages in *; auto)].
  unfold slice.
  replace ((0 <=? start) && (start <=? end_) && (end_ <=? Z.of_nat (length matches)))%bool
    with true.
  2: { symmetry. rewrite !andb_true_iff, !Z.leb_le. fold total. lia. }
  rewrite Hcnt, Htot. rewrite <- Hend. do 2 f_equal. f_equal.
  rewrite <- (firstn_min_length (skipn (Z.to_nat start) matches) (Z.to_nat ps)).
  f_equal. rewrite List.length_skipn. fold total in Hend. unfold total in *. lia.
Qed.

(** X19.  Paging of [ListNamespaces].  For an authorised caller and fewer
    than [2^30] namespaces the handler never panics on its slice and
    answers with: the number of namespaces that match the query as
    [TotalCount]; the least number of pages of the effective page size (15
    when the request gives none) that hold them as [Pages]; the requested
    page if it exists, else the last page when the request is beyond it and
    the first when it is not positive; exactly the matches of that page, in
    listing order; and their number as [Count], which is the page size on
    every page but the last. *)
Theorem ListNamespaces_returns_requested_window {Cluster : Type}
    (client : KubeClient Cluster) (k : Cluster) (req : ListNamespacesRequest)
    (namespaces : list Namespace) :
  IsAuthorized client "" "list" "" "namespaces" "" k = (true, None) ->
  client_ListNamespaces client k = inl namespaces ->
  Z.of_nat (length namespaces) < 2 ^ 30 ->
  is_int32 (req_PageSize req) ->
  let matches := map apiNamespace (List.filter (matchesQuery (req_Query req)) namespaces) in
  let ps := effectivePageSize req in
  exists resp,
    ListNamespaces client k req = Reply (Some resp) None /\
    resp_TotalCount resp = Z.of_nat (length matches) /\
    resp_TotalCount resp <= resp_Pages resp * ps < resp_TotalCount resp + ps /\
    1 <= resp_Page resp <= Z.max 1 (resp_Pages resp) /\
    (1 <= req_Page req <= resp_Pages resp -> resp_Page resp = req_Page req) /\
    (resp_Pages resp < req_Page req -> resp_Page resp = Z.max 1 (resp_Pages resp)) /\
    (req_Page req <= 0 -> resp_Page resp = 1) /\
    resp_Namespaces resp
    = firstn (Z.to_nat ps) (skipn (Z.to_nat ((resp_Page resp - 1) * ps)) matches) /\
    resp_Count resp = Z.of_nat (length (resp_Namespaces resp)) /\
    (resp_Page resp < resp_Pages resp -> resp_Count resp = ps).
Proof.
  intros Hauth Hlist Hlen Hps matches ps.
  destruct (ListNamespaces_authorised client k req namespaces Hauth Hlist Hlen Hps)
    as (P & Heq & HP & HP1 & HP2 & HP3 & Hstart).
  fold matches in Heq, HP, HP1, HP2, HP3, Hstart. fold ps in Heq, HP, HP1, HP2, HP3, Hstart.
  set (total := Z.of_nat (length matches)) in *.
  assert (Hps' : 1 <= ps).
  { unfold ps, effectivePageSize. destruct (Z.leb_spec (req_PageSize req) 0); lia. }
  destruct (math_Ceil_div_bounds total ps ltac:(lia) Hps') as [Hc Hc'].
  eexists. split; [exact Heq|]. simpl.
  repeat split; try assumption; try lia.
  - rewrite List.length_firstn, List.length_skipn. fold total. lia.
  - intros Hlt. nia.
Qed.

Lemma ListNamespaces_returns_requested_window_witness :
  exists resp,
    ListNamespaces (staticClient true None (inl demoNamespaces)) tt
      {| req_PageSize := 3; req_Page := 9; req_Query := "team" |}
    = Reply (Some resp) None /\
    resp_TotalCount resp
    = Z.of_nat (length (map apiNamespace (List.filter (matchesQuery "team") demoNamespaces))) /\
    (resp_Pages resp < 9 -> resp_Page resp = Z.max 1 (resp_Pages resp)).
Proof.
  destruct (ListNamespaces_returns_requested_window
              (staticClient true None (inl demoNamespaces)) tt
              {| req_PageSize := 3; req_Page := 9; req_Query := "team" |}
              demoNamespaces eq_refl eq_refl)
    as (resp & Heq & Htot & _ & _ & _ & Hlast & _).
  - vm_compute. reflexivity.
  - unfold is_int32. simpl. lia.
  - exists resp. split; [exact Heq|]. split; [exact Htot | exact Hlast].
Defined.

Lemma page_chunks {A} (n pages : nat) (l : list A) :
  (0 < n)%nat -> (length l <= pages * n)%nat ->
  flat_map (fun i => firstn n (skipn (i * n) l)) (seq 0 pages) = l.
Proof.
  intros Hn. revert l. induction pages as [|pages IH]; intros l Hl.
  - destruct l; [reflexivity | simpl in Hl; lia].
  - rewrite <- cons_seq, <- seq_shift. cbn [flat_map].
    rewrite flat_map_concat_map, map_map, <- flat_map_concat_map.
    change (0 * n)%nat with 0%nat. change (skipn 0 l) with l.
    etransitivity; [|apply (firstn_skipn n l)]. f_equal.
    rewrite <- (IH (skipn n l)) by (rewrite List.length_skipn; lia).
    apply flat_map_ext. intros i. rewrite List.skipn_skipn. do 2 f_equal. lia.
Qed.

(** X20.  The pages of a listing partition the matches: asking for page
    1, 2, ... up to the number of pages the handler reports and putting the
    answers one after the other gives every namespace that matches the
    query exactly as often as the cluster lists it, in listing order. *)
Theorem ListNamespaces_pages_partition_matches {Cluster : Type}
    (client : KubeClient Cluster) (k : Cluster) (req : ListNamespacesRequest)
    (namespaces : list Namespace) (resp : ListNamespacesResponse) :
  IsAuthorized client "" "list" "" "namespaces" "" k = (true, None) ->
  client_ListNamespaces client k = inl namespaces ->
  Z.of_nat (length namespaces) < 2 ^ 30 ->
  is_int32 (req_PageSize req) ->
  ListNamespaces client k req = Reply (Some resp) None ->
  flat_map (fun p => listedNamespaces (ListNamespaces client k (withPage req (Z.of_nat p))))
           (seq 1 (Z.to_nat (resp_Pages resp)))
  = map apiNamespace (List.filter (matchesQuery (req_Query req)) namespaces).
Proof.
  intros Hauth Hlist Hlen Hps Hresp.
  set (matches := map apiNamespace (List.filter (matchesQuery (req_Query req)) namespaces)).
  set (total := Z.of_nat (length matches)).
  set (ps := effectivePageSize req).
  assert (Hps' : 1 <= ps).
  { unfold ps, effectivePageSize. destruct (Z.leb_spec (req_PageSize req) 0); lia. }
  destruct (math_Ceil_div_bounds total ps ltac:(lia) Hps') as [Hc Hc'].
  assert (Hpages : resp_Pages resp = math_Ceil_div total ps).
  { destruct (ListNamespaces_authorised client k req namespaces Hauth Hlist Hlen Hps)
      as (P & Heq & _).
    rewrite Heq in Hresp. by injection Hresp as <-. }
  rewrite Hpages.
  etransitivity;
    [|apply (page_chunks (Z.to_nat ps) (Z.to_nat (math_Ceil_div total ps)) matches);
      unfold total in *; nia].
  rewrite <- seq_shift, flat_map_concat_map, map_map, <- flat_map_concat_map.
  rewrite !flat_map_concat_map. f_equal.
  apply List.map_ext_in. intros i Hi. apply in_seq in Hi.
  destruct (ListNamespaces_authorised client k (withPage req (Z.of_nat (S i))) namespaces
              Hauth Hlist Hlen Hps) as (P & Heq & _ & HP & _).
  change (req_Query (withPage req (Z.of_nat (S i)))) with (req_Query req) in Heq, HP.
  change (effectivePageSize (withPage req (Z.of_nat (S i)))) with ps in Heq, HP.
  change (req_Page (withPage req (Z.of_nat (S i)))) with (Z.of_nat (S i)) in HP.
  fold matches in Heq, HP. fold total in Heq, HP.
  rewrite Heq. simpl listedNamespaces. rewrite HP by lia.
  do 2 f_equal. nia.
Qed.

Lemma ListNamespaces_pages_partition_matches_witness :
  flat_map (fun p => listedNamespaces
                       (ListNamespaces (staticClient true None (inl demoNamespaces)) tt
                          (withPage {| req_PageSize := 3; req_Page := 1; req_Query := "team" |}
                             (Z.of_nat p))))
           (seq 1 2)
  = map apiNamespace
      (List.filter (matchesQuery "team") demoNamespaces).
Proof.
  refine (ListNamespaces_pages_partition_matches
            (staticClient true None (inl demoNamespaces)) tt
            {| req_PageSize := 3; req_Page := 1; req_Query := "team" |}
            demoNamespaces
            {| resp_Count := 3;
               resp_Namespaces := [ {| api_Name := "team-a" |}; {| api_Name := "team-b" |};
                                    {| api_Name := "team-c" |} ];
               resp_Page := 1; resp_Pages := 2; resp_TotalCount := 4 |}
            eq_refl eq_refl _ _ _).
  - vm_compute. reflexivity.
  - unfold is_int32. simpl. lia.
  - vm_compute. reflexivity.
Defined.

Lemma strings_HasPrefix_spec s p :
  strings_HasPrefix s p = true <-> exists post, s = p +:+ post.
Proof.
  revert s. induction p as [|a p IH]; intros s; simpl.
  - split; [intros _; by exists s | intros _; by destruct s].
  - destruct s as [|b s].
    + split; [discriminate | intros (post & H); discriminate].
    + simpl. rewrite andb_true_iff, Ascii.eqb_eq, IH. split.
      * intros (-> & post & ->). by exists post.
      * intros (post & H). rewrite append_cons in H. injection H as -> ->. eauto.
Qed.

Lemma strings_Contains_spec s q : strings_Contains s q = true <-> occurs_in q s.
Proof.
  unfold occurs_in. induction s as [|b s IH]; cbn [strings_Contains].
  - rewrite orb_false_r, strings_HasPrefix_spec. split.
    + intros (post & H). by exists EmptyString, post.
    + intros ([|a pre] & post & H); [by exists post | discriminate].
  - rewrite orb_true_iff, IH, strings_HasPrefix_spec. split.
    + intros [(post & H) | (pre & post & ->)].
      * by exists EmptyString, post.
      * by exists (String b pre), post.
    + intros ([|a pre] & post & H).
      * left. by exists post.
      * right. rewrite append_cons in H. injection H as -> ->. by exists pre, post.
Qed.

(** X21.  The query of [ListNamespaces] is a substring filter: a namespace
    passes exactly when the query occurs somewhere in its name, the empty
    query letting every namespace pass. *)
Theorem namespace_query_is_substring_match (query : string) (ns : Namespace) :
  matchesQuery query ns = true <-> occurs_in query (ns_Name ns).
Proof.
  unfold matchesQuery. destruct (String.eqb_spec query EmptyString) as [->|Hne]; simpl.
  - split; [intros _ | reflexivity]. by exists EmptyString, (ns_Name ns).
  - apply strings_Contains_spec.
Qed.

(** X22.  A caller that is not authorised gets nothing from the namespace
    handlers: when the authoriser refuses or fails, [ListNamespaces] and
    [CreateNamespace] hand back no response and the authoriser's error as
    it is, the cluster is not touched, and a refusal that comes without an
    error therefore leaves the caller with neither a response nor an
    error. *)
Theorem refused_namespace_requests_get_no_response {Cluster : Type}
    (client : KubeClient Cluster) (k : Cluster) (req : ListNamespacesRequest)
    (namespace : option ApiNamespace) (allowedList allowedCreate : bool)
    (errList errCreate : option error) :
  IsAuthorized client "" "list" "" "namespaces" "" k = (allowedList, errList) ->
  IsAuthorized client "" "create" "" "namespaces" "" k = (allowedCreate, errCreate) ->
  allowedList = false \/ errList <> None ->
  allowedCreate = false \/ errCreate <> None ->
  ListNamespaces client k req = Reply None errList /\
  CreateNamespace client k namespace = (Reply None errCreate, k).
Proof.
  intros HL HC HrL HrC. unfold ListNamespaces, CreateNamespace. rewrite HL, HC.
  split.
  - destruct errList; [reflexivity|]. destruct allowedList; [|reflexivity].
    by destruct HrL.
  - destruct errCreate; [reflexivity|]. destruct allowedCreate; [|reflexivity].
    by destruct HrC.
Qed.

Lemma refused_namespace_requests_get_no_response_witness :
  ListNamespaces (staticClient false None (inl demoNamespaces)) tt
    {| req_PageSize := 3; req_Page := 1; req_Query := "team" |}
  = Reply None None /\
  CreateNamespace (staticClient false None (inl demoNamespaces)) tt
    (Some {| api_Name := "team-e" |})
  = (Reply None None, tt).
Proof.
  apply (refused_namespace_requests_get_no_response
           (staticClient false None (inl demoNamespaces)) tt
           {| req_PageSize := 3; req_Page := 1; req_Query := "team" |}
           (Some {| api_Name := "team-e" |})
           false false None None eq_refl eq_refl); by left.
Defined.

End NamespaceListing.
